(** * A shallow embedding of [scrape.py] (class [EfficientNewsScraper])

    The pipeline scrapes news pages, categorises each article with a
    zero-shot classifier, embeds it and upserts it into a vector store; a
    migration pass repairs legacy category encodings of stored metadata.

    Layout of the development:
    - [Py]: the fragment of Python's data model the code relies on
      (strings as sequences of code points, dynamically typed values,
      insertion-ordered dictionaries, [str.strip], [str.split], slicing);
    - [MD5], [Utf8]: [hashlib.md5] and [str.encode];
    - [Json]: [json.loads];
    - [Scraper]: the methods of [EfficientNewsScraper] and [main], written in
      a state-and-exception monad over the vector store and a log of the
      calls made to the external collaborators (models, browser, store);
    - [Doubles]: concrete collaborators, stores and articles to run the
      methods on;
    - [Spec]: the predicates and the stage-by-stage descriptions of the
      pipeline that the statements are written with;
    - [Props]: the properties of the migration, the identifiers, the
      categorisation, the store and the persisted array;
    - [More]: further properties, method by method. *)

From Stdlib Require Import ZArith NArith QArith Qround Lia List String Ascii.
From stdpp Require Import base option list gmap fin_maps.
Import ListNotations.
#[local] Open Scope Z_scope.
#[local] Open Scope list_scope.
Set Warnings "-register-all".

(* ================================================================== *)
(** * Python data *)
(* ================================================================== *)

Module Py.

(** A Python [str] is a sequence of Unicode code points. *)
Definition str := list N.

(** ASCII literals of the source. *)
Definition lit (s : string) : str := map N_of_ascii (list_ascii_of_string s).
#[global] Arguments lit s : simpl never.

(** Non-finite floats, which [json.loads] accepts as [NaN], [Infinity] and
    [-Infinity]. *)
Inductive nonfinite := NaN | PosInf | NegInf.

(** Dynamically typed values: what a metadata field, a JSON document or an
    article field can hold.  A finite float is given by its value, a
    rational. *)
Inductive val :=
| VNone
| VBool (b : bool)
| VInt (z : Z)
| VFloat (q : Q)
| VNonFinite (x : nonfinite)
| VStr (s : str)
| VList (l : list val)
| VDict (d : list (str * val)).

(** A [dict]: insertion-ordered, one binding per key. *)
Definition dict := list (str * val).

(** The exceptions (all subclasses of [Exception]) that the modelled code can
    meet.  [ExternalError] stands for whatever an external collaborator
    raises. *)
Inductive exn :=
| AttributeError | TypeError | KeyError | IndexError | ValueError
| UnicodeEncodeError | ExternalError.

Inductive res (A : Type) :=
| Ok (a : A)
| Raise (e : exn).
Arguments Ok {A} a.
Arguments Raise {A} e.

Definition str_eqb (a b : str) : bool := bool_decide (a = b).

(** [d.get(k)] *)
Fixpoint dict_get (k : str) (d : dict) : option val :=
  match d with
  | [] => None
  | (k', v) :: d' => if str_eqb k k' then Some v else dict_get k d'
  end.

(** [d[k] = v]: overwrite in place, or append a new binding. *)
Fixpoint dict_set (k : str) (v : val) (d : dict) : dict :=
  match d with
  | [] => [(k, v)]
  | (k', v') :: d' =>
      if str_eqb k k' then (k', v) :: d' else (k', v') :: dict_set k v d'
  end.

(** [d[k]] *)
Definition dict_item (k : str) (d : dict) : res val :=
  match dict_get k d with
  | Some v => Ok v
  | None => Raise KeyError
  end.

(** Truth value of a sequence: it is not empty. *)
Definition nonempty {A} (xs : list A) : bool :=
  match xs with [] => false | _ :: _ => true end.

(** Truth value of an object, as tested by [if x:] and [not x]. *)
Definition truthy (v : val) : bool :=
  match v with
  | VNone => false
  | VBool b => b
  | VInt z => negb (z =? 0)
  | VFloat q => negb (Qnum q =? 0)
  | VNonFinite _ => true
  | VStr s => nonempty s
  | VList l => nonempty l
  | VDict d => nonempty d
  end.

(** [str.isspace] on one code point (CPython's [_PyUnicode_IsWhitespace]);
    [str.strip()] and [str.split()] without arguments use it. *)
Definition isspace (c : N) : bool :=
  ((9 <=? c) && (c <=? 13) || (28 <=? c) && (c <=? 32)
   || (c =? 133) || (c =? 160) || (c =? 5760)
   || (8192 <=? c) && (c <=? 8202)
   || (c =? 8232) || (c =? 8233) || (c =? 8239) || (c =? 8287)
   || (c =? 12288))%N.

Fixpoint lstrip (s : str) : str :=
  match s with
  | c :: s' => if isspace c then lstrip s' else s
  | [] => []
  end.

Definition rstrip (s : str) : str := rev (lstrip (rev s)).

(** [s.strip()] *)
Definition strip (s : str) : str := rstrip (lstrip s).

(** [s.split()]: the maximal runs of non-whitespace code points.  [cur] is
    the token being read, reversed. *)
Fixpoint split_ws_from (cur : str) (s : str) : list str :=
  match s with
  | [] => match cur with [] => [] | _ => [rev cur] end
  | c :: s' =>
      if isspace c
      then match cur with
           | [] => split_ws_from [] s'
           | _ => rev cur :: split_ws_from [] s'
           end
      else split_ws_from (c :: cur) s'
  end.

Definition split_ws (s : str) : list str := split_ws_from [] s.

(** [s.split(sep)] for a one-character separator: never empty. *)
Fixpoint split_on_from (sep : N) (cur : str) (s : str) : list str :=
  match s with
  | [] => [rev cur]
  | c :: s' =>
      if (c =? sep)%N then rev cur :: split_on_from sep [] s'
      else split_on_from sep (c :: cur) s'
  end.

Definition split_on (sep : N) (s : str) : list str := split_on_from sep [] s.

(** [c in s] for a one-character [c]. *)
Definition contains (c : N) (s : str) : bool := existsb (N.eqb c) s.

(** [s.startswith(c)] for a one-character [c]. *)
Definition startswith (c : N) (s : str) : bool :=
  match s with
  | c' :: _ => (c' =? c)%N
  | [] => false
  end.

(** [xs[:n]]: a negative bound counts from the end. *)
Definition slice_to {A} (n : Z) (xs : list A) : list A :=
  if 0 <=? n then firstn (Z.to_nat n) xs
  else firstn (length xs - Z.to_nat (- n)) xs.

Definition comma : N := 44.
Definition lbracket : N := 91.
Definition underscore : N := 95.
Definition space : N := 32.

End Py.

(* ================================================================== *)
(** * [str.encode()]: UTF-8 *)
(* ================================================================== *)

Module Utf8.
Import Py.

(** The bytes of one code point; a surrogate cannot be encoded. *)
Definition encode_char (c : N) : res (list Z) :=
  let z := Z.of_N c in
  if z <? 128 then Ok [z]
  else if z <? 2048 then
    Ok [Z.lor 192 (Z.shiftr z 6); Z.lor 128 (Z.land z 63)]
  else if z <? 65536 then
    if (55296 <=? z) && (z <=? 57343) then Raise UnicodeEncodeError
    else Ok [Z.lor 224 (Z.shiftr z 12);
             Z.lor 128 (Z.land (Z.shiftr z 6) 63);
             Z.lor 128 (Z.land z 63)]
  else if z <? 1114112 then
    Ok [Z.lor 240 (Z.shiftr z 18);
        Z.lor 128 (Z.land (Z.shiftr z 12) 63);
        Z.lor 128 (Z.land (Z.shiftr z 6) 63);
        Z.lor 128 (Z.land z 63)]
  else Raise UnicodeEncodeError.

Fixpoint encode (s : str) : res (list Z) :=
  match s with
  | [] => Ok []
  | c :: s' =>
      match encode_char c with
      | Raise e => Raise e
      | Ok bs =>
          match encode s' with
          | Raise e => Raise e
          | Ok bs' => Ok (bs ++ bs')
          end
      end
  end.

End Utf8.

(* ================================================================== *)
(** * [hashlib.md5(...).hexdigest()] (RFC 1321) *)
(* ================================================================== *)

Module MD5.

Definition wrap32 (x : Z) : Z := x mod 4294967296.
Definition add32 (a b : Z) : Z := wrap32 (a + b).
Definition not32 (x : Z) : Z := Z.lxor x 4294967295.
Definition rotl32 (x c : Z) : Z :=
  Z.lor (wrap32 (Z.shiftl x c)) (Z.shiftr x (32 - c)).

(** [floor (2^32 * |sin (i + 1)|)] for [i = 0 .. 63]. *)
Definition K : list Z :=
  [ 3614090360; 3905402710; 606105819; 3250441966;
    4118548399; 1200080426; 2821735955; 4249261313;
    1770035416; 2336552879; 4294925233; 2304563134;
    1804603682; 4254626195; 2792965006; 1236535329;
    4129170786; 3225465664; 643717713; 3921069994;
    3593408605; 38016083; 3634488961; 3889429448;
    568446438; 3275163606; 4107603335; 1163531501;
    2850285829; 4243563512; 1735328473; 2368359562;
    4294588738; 2272392833; 1839030562; 4259657740;
    2763975236; 1272893353; 4139469664; 3200236656;
    681279174; 3936430074; 3572445317; 76029189;
    3654602809; 3873151461; 530742520; 3299628645;
    4096336452; 1126891415; 2878612391; 4237533241;
    1700485571; 2399980690; 4293915773; 2240044497;
    1873313359; 4264355552; 2734768916; 1309151649;
    4149444226; 3174756917; 718787259; 3951481745 ].

(** Per-round rotation amounts. *)
Definition S : list Z :=
  [ 7; 12; 17; 22; 7; 12; 17; 22; 7; 12; 17; 22; 7; 12; 17; 22;
    5; 9; 14; 20; 5; 9; 14; 20; 5; 9; 14; 20; 5; 9; 14; 20;
    4; 11; 16; 23; 4; 11; 16; 23; 4; 11; 16; 23; 4; 11; 16; 23;
    6; 10; 15; 21; 6; 10; 15; 21; 6; 10; 15; 21; 6; 10; 15; 21 ].

(** Little-endian bytes of [x], [n] of them. *)
Fixpoint le_bytes (n : nat) (x : Z) : list Z :=
  match n with
  | O => []
  | Datatypes.S n' => x mod 256 :: le_bytes n' (x / 256)
  end.

Definition pad (msg : list Z) : list Z :=
  let len := Z.of_nat (length msg) in
  msg ++ [128] ++ repeat 0 (Z.to_nat ((55 - len) mod 64))
      ++ le_bytes 8 ((8 * len) mod 18446744073709551616).

(** Little-endian 32-bit words of a byte string. *)
Fixpoint words (fuel : nat) (bs : list Z) : list Z :=
  match fuel, bs with
  | Datatypes.S f, b0 :: b1 :: b2 :: b3 :: bs' =>
      (b0 + 256 * b1 + 65536 * b2 + 16777216 * b3) :: words f bs'
  | _, _ => []
  end.

Fixpoint blocks (fuel : nat) (ws : list Z) : list (list Z) :=
  match fuel, ws with
  | Datatypes.S f, _ :: _ => firstn 16 ws :: blocks f (skipn 16 ws)
  | _, _ => []
  end.

Definition state : Type := Z * Z * Z * Z.

Definition step (M : list Z) (st : state) (i : nat) : state :=
  let '(A, B, C, D) := st in
  let zi := Z.of_nat i in
  let '(F, g) :=
    if zi <? 16 then (Z.lor (Z.land B C) (Z.land (not32 B) D), zi)
    else if zi <? 32 then
      (Z.lor (Z.land D B) (Z.land (not32 D) C), (5 * zi + 1) mod 16)
    else if zi <? 48 then (Z.lxor B (Z.lxor C D), (3 * zi + 5) mod 16)
    else (Z.lxor C (Z.lor B (not32 D)), (7 * zi) mod 16) in
  let F' := add32 (add32 (add32 F A) (nth i K 0)) (nth (Z.to_nat g) M 0) in
  (D, add32 B (rotl32 F' (nth i S 0)), B, C).

Definition compress (st : state) (M : list Z) : state :=
  let '(a0, b0, c0, d0) := st in
  let '(A, B, C, D) := fold_left (step M) (seq 0 64) st in
  (add32 a0 A, add32 b0 B, add32 c0 C, add32 d0 D).

Definition init : state := (1732584193, 4023233417, 2562383102, 271733878).

Definition digest (msg : list Z) : list Z :=
  let p := pad msg in
  let '(A, B, C, D) :=
    fold_left compress (blocks (length p) (words (length p) p)) init in
  le_bytes 4 A ++ le_bytes 4 B ++ le_bytes 4 C ++ le_bytes 4 D.

Definition hex_digit (x : Z) : N :=
  Z.to_N (if x <? 10 then 48 + x else 87 + x).

Definition hexdigest (msg : list Z) : Py.str :=
  flat_map (fun b => [hex_digit (b / 16); hex_digit (b mod 16)]) (digest msg).

End MD5.

(* ================================================================== *)
(** * [json.loads] *)
(* ================================================================== *)

(** The decoder of CPython's [json] module with its default settings:
    whitespace is space, tab, line feed and carriage return; strings are
    strict (no raw control characters) and [\uXXXX] surrogate pairs are
    joined; a number without fraction and exponent is an [int], any other a
    float, the nearest double; [NaN], [Infinity] and [-Infinity] are
    accepted; the last binding of a repeated object key wins.  [None] stands
    for [JSONDecodeError] and for the [ValueError] of an integer literal
    that is too long, both of which are [ValueError]s.  The interpreter's
    recursion limit is not modelled. *)
Module Json.
Import Py.

Definition is_ws (c : N) : bool :=
  ((c =? 32) || (c =? 9) || (c =? 10) || (c =? 13))%N.

Fixpoint skip_ws (s : str) : str :=
  match s with
  | c :: s' => if is_ws c then skip_ws s' else s
  | [] => []
  end.

Definition is_digit (c : N) : bool := ((48 <=? c) && (c <=? 57))%N.

Definition hex_val (c : N) : option N :=
  (if (48 <=? c) && (c <=? 57) then Some (c - 48)
   else if (97 <=? c) && (c <=? 102) then Some (c - 87)
   else if (65 <=? c) && (c <=? 70) then Some (c - 55)
   else None)%N.

Definition hex4 (a b c d : N) : option N :=
  match hex_val a, hex_val b, hex_val c, hex_val d with
  | Some x, Some y, Some z, Some w => Some (((x * 16 + y) * 16 + z) * 16 + w)%N
  | _, _, _, _ => None
  end.

(** The character denoted by a one-letter escape. *)
Definition simple_escape (c : N) : option N :=
  (if c =? 34 then Some 34 else if c =? 92 then Some 92
   else if c =? 47 then Some 47 else if c =? 98 then Some 8
   else if c =? 102 then Some 12 else if c =? 110 then Some 10
   else if c =? 114 then Some 13 else if c =? 116 then Some 9
   else None)%N.

Definition is_high_surrogate (u : N) : bool := ((55296 <=? u) && (u <=? 56319))%N.
Definition is_low_surrogate (u : N) : bool := ((56320 <=? u) && (u <=? 57343))%N.
Definition join_surrogates (hi lo : N) : N :=
  (65536 + (hi - 55296) * 1024 + (lo - 56320))%N.

(** The body of a string literal, after its opening quote; [acc] is the
    decoded text so far, reversed. *)
Fixpoint scan_string (acc : str) (s : str) : option (str * str) :=
  match s with
  | [] => None
  | c :: r =>
      if (c =? 34)%N then Some (rev acc, r)
      else if (c =? 92)%N then
        match r with
        | [] => None
        | e :: r1 =>
            if (e =? 117)%N then
              match r1 with
              | h1 :: h2 :: h3 :: h4 :: r2 =>
                  match hex4 h1 h2 h3 h4 with
                  | None => None
                  | Some u =>
                      if is_high_surrogate u then
                        match r2 with
                        | b :: u' :: g1 :: g2 :: g3 :: g4 :: r3 =>
                            if ((b =? 92) && (u' =? 117))%N then
                              match hex4 g1 g2 g3 g4 with
                              | None => None
                              | Some u2 =>
                                  if is_low_surrogate u2
                                  then scan_string (join_surrogates u u2 :: acc) r3
                                  else scan_string (u :: acc) r2
                              end
                            else scan_string (u :: acc) r2
                        | _ => scan_string (u :: acc) r2
                        end
                      else scan_string (u :: acc) r2
                  end
              | _ => None
              end
            else
              match simple_escape e with
              | Some x => scan_string (x :: acc) r1
              | None => None
              end
        end
      else if (c <? 32)%N then None
      else scan_string (c :: acc) r
  end.

Fixpoint take_digits (s : str) : str * str :=
  match s with
  | c :: s' =>
      if is_digit c then let '(ds, r) := take_digits s' in (c :: ds, r)
      else ([], s)
  | [] => ([], [])
  end.

Definition digits_value (ds : str) : Z :=
  fold_left (fun acc c => 10 * acc + (Z.of_N c - 48)) ds 0.

(** [floor (log2 (n / d))] for positive [n] and [d]. *)
Definition floor_log2 (n d : Z) : Z :=
  let k := Z.log2 n - Z.log2 d in
  if (if 0 <=? k then d * 2 ^ k <=? n else d <=? n * 2 ^ (- k)) then k
  else k - 1.

(** [n / d] to the nearest integer, ties to even, for positive [d]. *)
Definition round_ratio (n d : Z) : Z :=
  let f := n / d in
  match 2 * (n mod d) ?= d with
  | Lt => f
  | Gt => f + 1
  | Eq => if Z.even f then f else f + 1
  end.

(** [float] of a decimal literal whose value is [n / d], [0 <= n] and
    [0 < d]: the value of the nearest double (53 bits of mantissa, least
    exponent -1074, ties to even), or [None] when the literal is rounded to
    infinity, which it is from [2^1024 - 2^970] on. *)
Definition to_double (n d : Z) : option Q :=
  if n =? 0 then Some 0%Q
  else
    let e := Z.max (floor_log2 n d - 52) (- 1074) in
    if 0 <=? e then
      let m := round_ratio n (d * 2 ^ e) in
      if 2 ^ 1024 <=? m * 2 ^ e then None else Some (inject_Z (m * 2 ^ e))
    else
      Some (Qred (Qmake (round_ratio (n * 2 ^ (- e)) d) (Z.to_pos (2 ^ (- e))))).

(** [sys.int_info.default_max_str_digits]: [int] refuses a decimal literal
    with more digits. *)
Definition max_str_digits : nat := 4300.

(** A number literal: sign, integer part, then optional fraction and
    exponent, each taken only when it has a digit.  A literal without
    fraction and exponent goes through [int], which raises [ValueError] on
    more than 4300 digits; any other goes through [float], which rounds to
    the nearest double and to infinity on overflow.  The sign of a zero is
    not kept. *)
Definition scan_number (s : str) : option (val * str) :=
  let '(neg, s1) :=
    match s with
    | c :: r => if (c =? 45)%N then (true, r) else (false, s)
    | [] => (false, s)
    end in
  let int_part :=
    match s1 with
    | c :: r =>
        if (c =? 48)%N then Some ([c], r)
        else if is_digit c then Some (take_digits s1)
        else None
    | [] => None
    end in
  match int_part with
  | None => None
  | Some (ids, r1) =>
      let '(fds, r2) :=
        match r1 with
        | c :: d :: _ =>
            if ((c =? 46) && is_digit d)%N then take_digits (tl r1)
            else ([], r1)
        | _ => ([], r1)
        end in
      let '(has_exp, ex, r3) :=
        match r2 with
        | c :: r =>
            if ((c =? 101) || (c =? 69))%N then
              let '(eneg, r') :=
                match r with
                | sg :: r'' =>
                    if (sg =? 45)%N then (true, r'')
                    else if (sg =? 43)%N then (false, r'')
                    else (false, r)
                | [] => (false, r)
                end in
              let '(eds, r'') := take_digits r' in
              match eds with
              | [] => (false, 0, r2)
              | _ => (true, if eneg then - digits_value eds else digits_value eds, r'')
              end
            else (false, 0, r2)
        | [] => (false, 0, r2)
        end in
      match fds, has_exp with
      | [], false =>
          if (max_str_digits <? length ids)%nat then None
          else Some (VInt ((if neg : bool then -1 else 1) * digits_value ids), r3)
      | _, _ =>
          let mantissa := digits_value (ids ++ fds) in
          let e10 := ex - Z.of_nat (length fds) in
          let double :=
            if 0 <=? e10 then to_double (mantissa * 10 ^ e10) 1
            else to_double mantissa (10 ^ (- e10)) in
          match double with
          | Some q => Some (VFloat (if neg : bool then (- q)%Q else q), r3)
          | None => Some (VNonFinite (if neg : bool then NegInf else PosInf), r3)
          end
      end
  end.

(** [s] without the prefix [p], when it has it. *)
Fixpoint strip_prefix (p s : str) : option str :=
  match p, s with
  | [], _ => Some s
  | a :: p', b :: s' => if (a =? b)%N then strip_prefix p' s' else None
  | _ :: _, [] => None
  end.

Definition scan_constant (s : str) : option (val * str) :=
  match strip_prefix (lit "null") s with
  | Some r => Some (VNone, r)
  | None =>
  match strip_prefix (lit "true") s with
  | Some r => Some (VBool true, r)
  | None =>
  match strip_prefix (lit "false") s with
  | Some r => Some (VBool false, r)
  | None =>
  match strip_prefix (lit "NaN") s with
  | Some r => Some (VNonFinite NaN, r)
  | None =>
  match strip_prefix (lit "Infinity") s with
  | Some r => Some (VNonFinite PosInf, r)
  | None =>
  match strip_prefix (lit "-Infinity") s with
  | Some r => Some (VNonFinite NegInf, r)
  | None => scan_number s
  end end end end end end.

(** One JSON value at the head of [s], and what follows it. *)
Fixpoint scan_once (fuel : nat) (s : str) : option (val * str) :=
  match fuel with
  | O => None
  | S fuel' =>
      match s with
      | [] => None
      | c :: r =>
          if (c =? 34)%N then
            match scan_string [] r with
            | Some (k, r') => Some (VStr k, r')
            | None => None
            end
          else if (c =? 123)%N then
            match skip_ws r with
            | c' :: r' =>
                if (c' =? 125)%N then Some (VDict [], r')
                else
                  match parse_members fuel' (c' :: r') with
                  | Some (kvs, r'') =>
                      Some (VDict (fold_left (fun d kv => dict_set (fst kv) (snd kv) d)
                                             kvs []), r'')
                  | None => None
                  end
            | [] => None
            end
          else if (c =? 91)%N then
            match skip_ws r with
            | c' :: r' =>
                if (c' =? 93)%N then Some (VList [], r')
                else
                  match parse_elems fuel' (c' :: r') with
                  | Some (vs, r'') => Some (VList vs, r'')
                  | None => None
                  end
            | [] => None
            end
          else scan_constant s
      end
  end
with parse_elems (fuel : nat) (s : str) : option (list val * str) :=
  match fuel with
  | O => None
  | S fuel' =>
      match scan_once fuel' s with
      | None => None
      | Some (v, r) =>
          match skip_ws r with
          | c :: r' =>
              if (c =? 93)%N then Some ([v], r')
              else if (c =? 44)%N then
                match parse_elems fuel' (skip_ws r') with
                | Some (vs, r'') => Some (v :: vs, r'')
                | None => None
                end
              else None
          | [] => None
          end
      end
  end
with parse_members (fuel : nat) (s : str) : option (list (str * val) * str) :=
  match fuel with
  | O => None
  | S fuel' =>
      match s with
      | q :: r0 =>
          if (q =? 34)%N then
            match scan_string [] r0 with
            | None => None
            | Some (k, r1) =>
                match skip_ws r1 with
                | col :: r2 =>
                    if (col =? 58)%N then
                      match scan_once fuel' (skip_ws r2) with
                      | None => None
                      | Some (v, r3) =>
                          match skip_ws r3 with
                          | c :: r4 =>
                              if (c =? 125)%N then Some ([(k, v)], r4)
                              else if (c =? 44)%N then
                                match parse_members fuel' (skip_ws r4) with
                                | Some (kvs, r5) => Some ((k, v) :: kvs, r5)
                                | None => None
                                end
                              else None
                          | [] => None
                          end
                      end
                    else None
                | [] => None
                end
            end
          else None
      | [] => None
      end
  end.

(** [json.loads(s)]: one value, surrounded by optional whitespace and
    nothing else.  Every nested call of the scanner follows at least one
    consumed character; the fuel is twice the length of the text. *)
Definition loads (s : str) : option val :=
  if startswith 65279 s then None
  else
    match scan_once (2 * length s + 2) (skip_ws s) with
    | Some (v, r) => match skip_ws r with [] => Some v | _ => None end
    | None => None
    end.

End Json.

(* ================================================================== *)
(** * The scraper *)
(* ================================================================== *)

Module Scraper.
Import Py.

(** ** The world outside the code *)

(** An embedding vector ([.tolist()] of the model's output). *)
Definition vector := list Q.

(** One entry of [self.websites]. *)
Record site := {
  site_url : str;
  site_selectors : list (str * str);
  site_limit : Z
}.

(** What the browser and the HTML parser give for one element matched by
    the container selector: the stripped text of the headline and
    description elements when they are found, the [href] of the link
    element, the [src] and [data-src] of the image element, and the clock
    reading taken when the item is built. *)
Record container := {
  headline_elem : option str;
  desc_elem : option str;
  link_elem : option (option str);
  img_elem : option (option str * option str);
  clock : str
}.

(** One stored record of the collection, as [collection.get] returns it.
    The store is persistent and its records need not come from
    [store_in_chromadb]: for a record written without metadata the store
    returns [None] in place of the dictionary. *)
Record stored := {
  embedding : vector;
  document : str;
  metadata : option dict
}.

(** Calls made on the external collaborators. *)
Inductive event :=
| Classify (text : str) (candidate_labels : list str)
| Encode (text : str)
| Goto (url : str)
| Get
| Upsert (ids : list str) (embeddings : list vector) (documents : list str)
         (metadatas : list dict)
| Update (ids : list str) (metadatas : list dict)
| Query (query_embedding : vector) (n_results : Z) (where_categories : option str)
| Dump (file : str) (obj : val).

(** The answers of the external collaborators: the zero-shot classifier
    (labels and scores, best first), the sentence encoder, the rendered page
    cut into containers (each of which may fail to be read), [urljoin], and
    the store, which may refuse a call.

    [page url selectors] is what the browser and the parser give for the
    selectors of a source: an exception when the page cannot be loaded or
    when [selectors] has no [container] entry (the [KeyError] of
    [selectors["container"]], raised after the page is loaded); otherwise
    the elements matched by the container selector, each read with the
    other selectors.  An element whose reading raises stands as that
    exception: so does every element when [selectors] has no [headline]
    entry (the [KeyError] of [selectors["headline"]]). *)
Record externals := {
  categorizer : str -> list str -> res (list str * list Q);
  embedding_model : str -> res vector;
  page : str -> list (str * str) -> res (list (res container));
  urljoin : str -> str -> str;
  store_error : event -> option exn;
  query_result : vector -> Z -> option str -> val
}.

(** The state the code runs in: the [news_articles] collection and the
    calls made so far. *)
Record world := {
  collection : gmap str stored;
  calls : list event
}.

(** ** Computations: state and exceptions *)

Definition M (A : Type) : Type := world -> res A * world.

#[global] Instance M_ret : MRet M := fun A a w => (Ok a, w).
#[global] Instance M_bind : MBind M := fun A B f m w =>
  match m w with
  | (Ok a, w') => f a w'
  | (Raise e, w') => (Raise e, w')
  end.

Definition lift {A} (r : res A) : M A := fun w => (r, w).

(** [try: m  except Exception as e: h e] *)
Definition try_except {A} (m : M A) (h : exn -> M A) : M A := fun w =>
  match m w with
  | (Raise e, w') => h e w'
  | r => r
  end.

(** Record a call. *)
Definition call (ev : event) : M unit := fun w =>
  (Ok tt, {| collection := collection w; calls := calls w ++ [ev] |}).

Definition get_collection : M (gmap str stored) := fun w => (Ok (collection w), w).

Definition set_collection (c : gmap str stored) : M unit := fun w =>
  (Ok tt, {| collection := c; calls := calls w |}).

(** A [for] loop that threads an accumulator. *)
Fixpoint for_each {A B} (xs : list A) (acc : B) (body : A -> B -> M B) : M B :=
  match xs with
  | [] => mret acc
  | x :: xs' => acc' ← body x acc; for_each xs' acc' body
  end.

(** ** Pieces of Python used by the methods *)

(** [v[i]] *)
Definition getitem_index (v : val) (i : nat) : res val :=
  match v with
  | VList l => match l !! i with Some x => Ok x | None => Raise IndexError end
  | VStr s => match s !! i with Some c => Ok (VStr [c]) | None => Raise IndexError end
  | VDict _ => Raise KeyError
  | _ => Raise TypeError
  end.

(** [v[k]] for a string [k] *)
Definition getitem_key (v : val) (k : str) : res val :=
  match v with
  | VDict d => dict_item k d
  | _ => Raise TypeError
  end.

(** [v[:n]] *)
Definition getitem_slice_to (v : val) (n : Z) : res val :=
  match v with
  | VStr s => Ok (VStr (slice_to n s))
  | VList l => Ok (VList (slice_to n l))
  | _ => Raise TypeError
  end.

(** [art[k]] where the code uses the field as text.  Articles are built by
    [scrape_website] with string fields; the formatting of a value of
    another type is not modelled and stands as a [TypeError]. *)
Definition text_field (k : str) (art : dict) : res str :=
  match dict_get k art with
  | Some (VStr s) => Ok s
  | Some _ => Raise TypeError
  | None => Raise KeyError
  end.

(** [round(x, 2)]: to the nearest hundredth, ties to even. *)
Definition round_half_even (q : Q) : Z :=
  let f := Qfloor q in
  match Qcompare (q - inject_Z f) (1 # 2) with
  | Lt => f
  | Gt => f + 1
  | Eq => if Z.even f then f else f + 1
  end.

Definition round2 (q : Q) : Q := Qmake (round_half_even (q * 100)) 100.

(** [range(0, n, step)] *)
Definition range_step (n step : nat) : list nat :=
  map (fun k => (k * step)%nat) (seq 0 (Nat.div (n + step - 1) step)).

(** [xs[i:j]] for non-negative bounds *)
Definition slice {A} (i j : nat) (xs : list A) : list A :=
  firstn (j - i) (skipn i xs).

Definition general : str := lit "general".

(** [{"category": "general", "confidence": 1.0}] *)
Definition general_result : val :=
  VDict [(lit "category", VStr general); (lit "confidence", VFloat 1)].

Section Methods.

Context (E : externals).

(** [self.websites] and [self.categories] *)
Context (websites : list (str * site)).

Definition categories : list str :=
  map lit [ "politics"; "sports"; "tech"; "business";
            "entertainment"; "health"; "science"; "world news";
            "environment"; "military"; "crime"; "economy" ]%string.

(** ** [collection.update] and [collection.upsert] *)

(** The store replaces the metadata of the records named by [ids];
    an id that is not stored is skipped. *)
Definition apply_update (ids : list str) (metadatas : list dict)
    (c : gmap str stored) : gmap str stored :=
  fold_left
    (fun c (row : str * dict) =>
       alter (fun r => {| embedding := embedding r; document := document r;
                          metadata := Some (snd row) |}) (fst row) c)
    (zip ids metadatas) c.

Definition collection_update (ids : list str) (metadatas : list dict) : M unit :=
  _ ← call (Update ids metadatas);
  match store_error E (Update ids metadatas) with
  | Some e => lift (Raise e)
  | None => c ← get_collection; set_collection (apply_update ids metadatas c)
  end.

(** The store is taken to replace vector, document and metadata of an id
    that is already stored and to insert the others. *)
Fixpoint apply_upsert (ids : list str) (embeddings : list vector)
    (documents : list str) (metadatas : list dict)
    (c : gmap str stored) : gmap str stored :=
  match ids, embeddings, documents, metadatas with
  | i :: ids', e :: embeddings', d :: documents', m :: metadatas' =>
      apply_upsert ids' embeddings' documents' metadatas'
        (<[i := {| embedding := e; document := d; metadata := Some m |}]> c)
  | _, _, _, _ => c
  end.

Definition collection_upsert (ids : list str) (embeddings : list vector)
    (documents : list str) (metadatas : list dict) : M unit :=
  _ ← call (Upsert ids embeddings documents metadatas);
  match store_error E (Upsert ids embeddings documents metadatas) with
  | Some e => lift (Raise e)
  | None =>
      c ← get_collection;
      set_collection (apply_upsert ids embeddings documents metadatas c)
  end.

(** [collection.get(include=["metadatas"])]: the ids and the metadata of
    every stored record, row by row. *)
Definition collection_get : M (list (str * option dict)) :=
  _ ← call Get;
  match store_error E Get with
  | Some e => lift (Raise e)
  | None =>
      c ← get_collection;
      mret (map (fun row => (fst row, metadata (snd row))) (map_to_list c))
  end.

(** ** [migrate_categories] *)

(** The body of the [try] block for one metadata dictionary: the
    dictionary as the block leaves it, or the exception that ends it (no
    assignment has happened by then). *)
Definition migrate_try (metadata : dict) : res dict :=
  match default (VStr []) (dict_get (lit "categories") metadata) with
  | VStr categories =>
      if startswith lbracket categories then
        match Json.loads categories with
        | None => Raise ValueError
        | Some category_list =>
            if truthy category_list then
              match getitem_index category_list 0 with
              | Raise e => Raise e
              | Ok first =>
                  match getitem_key first (lit "category") with
                  | Raise e => Raise e
                  | Ok c => Ok (dict_set (lit "categories") c metadata)
                  end
              end
            else Ok (dict_set (lit "categories") (VStr general) metadata)
        end
      else if contains comma categories then
        Ok (dict_set (lit "categories")
                     (VStr (hd [] (split_on comma categories))) metadata)
      else if negb (nonempty categories) then
        Ok (dict_set (lit "categories") (VStr general) metadata)
      else Ok metadata
  | _ => Raise AttributeError
  end.

(** One iteration of the loop on a metadata dictionary: the [try] block
    and its handler. *)
Definition migrate_metadata (metadata : dict) : dict :=
  match migrate_try metadata with
  | Ok metadata' => metadata'
  | Raise _ => dict_set (lit "categories") (VStr general) metadata
  end.

(** One iteration of the loop on what the store returned for a record.
    On [None], [metadata.get] raises [AttributeError] in the [try] block and
    the assignment [metadata["categories"] = "general"] of the handler
    raises [TypeError], which nothing catches. *)
Definition migrate_item (metadata : option dict) : res dict :=
  match metadata with
  | Some m => Ok (migrate_metadata m)
  | None => Raise TypeError
  end.

(** The loop: [updated_metadatas] when it completes, or the exception that
    leaves it. *)
Fixpoint migrate_items (metadatas : list (option dict)) : res (list dict) :=
  match metadatas with
  | [] => Ok []
  | metadata :: metadatas' =>
      match migrate_item metadata with
      | Raise e => Raise e
      | Ok m =>
          match migrate_items metadatas' with
          | Raise e => Raise e
          | Ok ms => Ok (m :: ms)
          end
      end
  end.

Definition migrate_categories : M unit :=
  results ← collection_get;
  let ids := map fst results in
  let metadatas := map snd results in
  updated_metadatas ← lift (migrate_items metadatas);
  if nonempty updated_metadatas
  then collection_update ids updated_metadatas
  else mret tt.

(** ** [generate_article_id] *)

(** [f"{url}_{headline}"] *)
Definition unique_string (url headline : str) : str :=
  url ++ [underscore] ++ headline.

Definition generate_article_id (url headline : str) : res str :=
  match Utf8.encode (unique_string url headline) with
  | Ok bytes => Ok (MD5.hexdigest bytes)
  | Raise e => Raise e
  end.

(** ** [generate_embedding] *)

Definition generate_embedding (text : str) : M vector :=
  if negb (nonempty (strip text)) then mret (repeat (0 : Q) 384)
  else
    _ ← call (Encode text);
    lift (embedding_model E text).

(** ** [categorize_article] *)

Definition categorize_article (text : str) : M val :=
  if negb (nonempty (strip text)) || (length (split_ws text) <? 3)%nat
  then mret general_result
  else
    try_except
      (_ ← call (Classify text categories);
       result ← lift (categorizer E text categories);
       match fst result !! 0%nat with
       | None => lift (Raise IndexError)
       | Some top_category =>
           match snd result !! 0%nat with
           | None => lift (Raise IndexError)
           | Some top_score =>
               mret (VDict [(lit "category", VStr top_category);
                            (lit "confidence", VFloat (round2 top_score))])
           end
       end)
      (fun _ => mret general_result).

(** ** [scrape_website] *)

(** The body of the loop over containers: the item appended, if any. *)
Definition scrape_container (url : str) (c : container) : list dict :=
  let headline :=
    match headline_elem c with Some t => t | None => lit "No headline" end in
  let description :=
    match desc_elem c with Some t => t | None => [] end in
  let link :=
    match link_elem c with
    | Some (Some href) =>
        if nonempty href then urljoin E url href else []
    | _ => []
    end in
  let img :=
    match img_elem c with
    | Some (src, data_src) =>
        let img_src :=
          match src with
          | Some s => if nonempty s then s else default [] data_src
          | None => default [] data_src
          end in
        if nonempty img_src then urljoin E url img_src else []
    | None => []
    end in
  if nonempty headline && nonempty link
     && negb (str_eqb headline (lit "No headline"))
  then [ [ (lit "headline", VStr headline);
           (lit "description", VStr description);
           (lit "url", VStr link);
           (lit "image", VStr img);
           (lit "source", VStr url);
           (lit "scraped_at", VStr (clock c)) ] ]
  else [].

Definition scrape_items (url : str) (containers : list (res container)) : list dict :=
  flat_map (fun c => match c with
                     | Ok c => scrape_container url c
                     | Raise _ => []
                     end) containers.

Definition scrape_website (url : str) (selectors : list (str * str))
    (limit : option Z) : M (list dict) :=
  try_except
    (_ ← call (Goto url);
     found ← lift (page E url selectors);
     let containers :=
       match limit with Some n => slice_to n found | None => found end in
     mret (scrape_items url containers))
    (fun _ => mret []).

(** ** [process_articles_batch] *)

(** [f"{art['headline']} {art['description']}"] *)
Definition article_text (art : dict) : res str :=
  match text_field (lit "headline") art with
  | Raise e => Raise e
  | Ok headline =>
      match text_field (lit "description") art with
      | Raise e => Raise e
      | Ok description => Ok (headline ++ [space] ++ description)
      end
  end.

Fixpoint article_texts (articles : list dict) : res (list str) :=
  match articles with
  | [] => Ok []
  | art :: articles' =>
      match article_text art with
      | Raise e => Raise e
      | Ok t =>
          match article_texts articles' with
          | Raise e => Raise e
          | Ok ts => Ok (t :: ts)
          end
      end
  end.

(** The [try] block of one batch, from index [j] on: the local variables
    [batch_articles] and [categorized_articles] as it leaves them, and the
    exception that ended it, if any.  The dictionaries are shared between
    the two lists, so a categorised article is the same in both. *)
Fixpoint categorize_batch (j : nat) (batch_texts : list str)
    (batch_articles categorized_articles : list dict)
    : M (list dict * list dict * option exn) :=
  match batch_texts with
  | [] => mret (batch_articles, categorized_articles, None)
  | text :: batch_texts' =>
      fun w =>
      match categorize_article text w with
      | (Raise e, w') => (Ok (batch_articles, categorized_articles, Some e), w')
      | (Ok category, w') =>
          match batch_articles !! j with
          | None => (Ok (batch_articles, categorized_articles, Some IndexError), w')
          | Some art =>
              let art' := dict_set (lit "categories") category art in
              let batch_articles' := <[j := art']> batch_articles in
              match getitem_key (VDict art') (lit "headline") with
              | Raise e => (Ok (batch_articles', categorized_articles, Some e), w')
              | Ok headline =>
                  match getitem_slice_to headline 50 with
                  | Raise e =>
                      (Ok (batch_articles', categorized_articles, Some e), w')
                  | Ok _ =>
                      categorize_batch (S j) batch_texts' batch_articles'
                        (categorized_articles ++ [art']) w'
                  end
              end
          end
      end
  end.

Definition process_articles_batch (articles : list dict) : M (list dict) :=
  if negb (nonempty articles) then mret []
  else
    texts_for_categorization ← lift (article_texts articles);
    let batch_size := 4%nat in
    for_each (range_step (length articles) batch_size) []
      (fun i categorized_articles =>
         let batch_articles := slice i (i + batch_size) articles in
         let batch_texts := slice i (i + batch_size) texts_for_categorization in
         '(batch_articles', categorized_articles', failure) ←
           categorize_batch 0 batch_texts batch_articles categorized_articles;
         match failure with
         | None => mret categorized_articles'
         | Some _ => mret (categorized_articles' ++ batch_articles')
         end).

(** ** [store_in_chromadb] *)

(** [article.get('categories', {}).get('category', 'general')] *)
Definition article_category (article : dict) : res val :=
  match default (VDict []) (dict_get (lit "categories") article) with
  | VDict d => Ok (default (VStr general) (dict_get (lit "category") d))
  | _ => Raise AttributeError
  end.

(** The metadata dictionary built for one article. *)
Definition article_metadata (article : dict) (doc_text : str) : res dict :=
  match dict_item (lit "headline") article with Raise e => Raise e | Ok headline =>
  match dict_item (lit "description") article with Raise e => Raise e | Ok d =>
  match getitem_slice_to d 500 with Raise e => Raise e | Ok description =>
  match dict_item (lit "url") article with Raise e => Raise e | Ok url =>
  match getitem_slice_to (default (VStr []) (dict_get (lit "image") article)) 200
  with Raise e => Raise e | Ok image =>
  match dict_item (lit "source") article with Raise e => Raise e | Ok source =>
  match dict_item (lit "scraped_at") article with Raise e => Raise e | Ok scraped_at =>
  match article_category article with Raise e => Raise e | Ok category =>
    Ok [ (lit "headline", headline);
         (lit "description", description);
         (lit "url", url);
         (lit "image", image);
         (lit "source", source);
         (lit "scraped_at", scraped_at);
         (lit "categories", category);
         (lit "text_length", VInt (Z.of_nat (length doc_text))) ]
  end end end end end end end end.

(** The four lists filled by the loop. *)
Definition columns : Type :=
  list str * list vector * list str * list dict.

(** The body of the loop over the articles. *)
Definition store_article (article : dict) (cols : columns) : M columns :=
  let '(ids, embeddings, documents, metadatas) := cols in
  doc_text ← lift (article_text article);
  embedding ← generate_embedding doc_text;
  url ← lift (text_field (lit "url") article);
  headline ← lift (text_field (lit "headline") article);
  article_id ← lift (generate_article_id url headline);
  meta ← lift (article_metadata article doc_text);
  mret (ids ++ [article_id], embeddings ++ [embedding],
        documents ++ [doc_text], metadatas ++ [meta]).

Definition store_in_chromadb (articles : list dict) : M unit :=
  if negb (nonempty articles) then mret tt
  else
    '(ids, embeddings, documents, metadatas) ←
      for_each articles ([], [], [], []) store_article;
    collection_upsert ids embeddings documents metadatas.

(** ** [scrape_all_websites] *)

(** The [try] block for one source: the articles it adds to
    [all_articles]. *)
Definition scrape_site (config : site) (max_articles_per_site : Z)
    : M (list dict) :=
  articles ← scrape_website (site_url config) (site_selectors config)
                (Some (Z.min (site_limit config) max_articles_per_site));
  if nonempty articles then
    processed_articles ← process_articles_batch articles;
    _ ← store_in_chromadb processed_articles;
    mret processed_articles
  else mret [].

Definition scrape_all_websites (max_articles_per_site : Z) : M (list dict) :=
  for_each websites []
    (fun entry all_articles =>
       try_except
         (processed_articles ← scrape_site (snd entry) max_articles_per_site;
          mret (all_articles ++ processed_articles))
         (fun _ => mret all_articles)).

(** ** [search_articles] *)

Definition search_articles (query : str) (limit : Z)
    (category_filter : option str) : M val :=
  query_embedding ← generate_embedding query;
  let where_filter :=
    match category_filter with
    | Some c => if nonempty c then Some c else None
    | None => None
    end in
  _ ← call (Query query_embedding limit where_filter);
  match store_error E (Query query_embedding limit where_filter) with
  | Some e => lift (Raise e)
  | None => mret (query_result E query_embedding limit where_filter)
  end.

(** ** [main] *)

(** What a [for] loop iterates over. *)
Definition iterate (v : val) : res (list val) :=
  match v with
  | VList l => Ok l
  | VStr s => Ok (map (fun c => VStr [c]) s)
  | VDict d => Ok (map (fun kv => VStr (fst kv)) d)
  | _ => Raise TypeError
  end.

(** The loop that logs the stored articles found by the search: it reads
    three fields of every metadata dictionary. *)
Fixpoint inspect_metadatas (metadatas : list val) : res unit :=
  match metadatas with
  | [] => Ok tt
  | m :: metadatas' =>
      match getitem_key m (lit "headline") with Raise e => Raise e | Ok _ =>
      match getitem_key m (lit "source") with Raise e => Raise e | Ok _ =>
      match getitem_key m (lit "categories") with Raise e => Raise e | Ok _ =>
        inspect_metadatas metadatas'
      end end end
  end.

Definition inspect_results (results : val) : res unit :=
  match getitem_key results (lit "metadatas") with
  | Raise e => Raise e
  | Ok ms =>
      match getitem_index ms 0 with
      | Raise e => Raise e
      | Ok first =>
          match iterate first with
          | Raise e => Raise e
          | Ok metadatas => inspect_metadatas metadatas
          end
      end
  end.

(** The constructor runs the migration; the run is scraped, inspected by a
    search and dumped to [efficient_articles.json]. *)
Definition main : M unit :=
  _ ← migrate_categories;
  articles ← scrape_all_websites 12;
  results ← search_articles (lit "sports") 5 (Some (lit "sports"));
  _ ← lift (inspect_results results);
  call (Dump (lit "efficient_articles.json") (VList (map VDict articles))).

End Methods.

(** [self.websites] as the constructor sets it. *)
Definition bbc_websites : list (str * site) :=
  [ (lit "bbc_live",
     {| site_url := lit "https://www.bbc.com/live";
        site_selectors :=
          [ (lit "container", lit ".sc-225578b-0.btdqbl");
            (lit "headline", lit ".sc-88db9cf0-13.juUQAL");
            (lit "description", lit ".sc-88db9cf0-14.bWanPM");
            (lit "link", lit ".sc-8a623a54-0.hMvGwj");
            (lit "image", lit ".sc-d1200759-0.dvfjxj") ];
        site_limit := 12 |}) ].

End Scraper.

(* ================================================================== *)
(** * Concrete collaborators and data *)
(* ================================================================== *)

Module Doubles.
Import Py Scraper.

(** An empty store and no call made yet. *)
Definition w0 : world := {| collection := ∅; calls := [] |}.

(** A container with a headline, a description and a link. *)
Definition card (headline description href : string) : res container :=
  Ok {| headline_elem := Some (lit headline);
        desc_elem := Some (lit description);
        link_elem := Some (Some (lit href));
        img_elem := None;
        clock := lit "2024-01-01T00:00:00" |}.

(** The selectors of a source, as the configuration gives them: one for
    the container and one for each of its four elements. *)
Definition card_selectors : list (str * str) :=
  [ (lit "container", lit ".card");
    (lit "headline", lit ".card-title");
    (lit "description", lit ".card-text");
    (lit "link", lit ".card-link");
    (lit "image", lit ".card-image") ].

Definition has_selector (k : str) (selectors : list (str * str)) : bool :=
  existsb (fun kv => str_eqb k (fst kv)) selectors.

(** What a page with the given elements gives for the selectors: a
    [KeyError] without a container selector, and elements that all raise
    [KeyError] without a headline selector. *)
Definition select_with (selectors : list (str * str))
    (elements : list (res container)) : res (list (res container)) :=
  if has_selector (lit "container") selectors then
    if has_selector (lit "headline") selectors then Ok elements
    else Ok (map (fun _ => Raise KeyError) elements)
  else Raise KeyError.

(** Collaborators that answer: the classifier always puts "sports" first
    with score 0.9, the encoder returns a short vector, the page of
    [https://b.example] shows three cards and any other page fails to load,
    and the store accepts every call. *)
Definition stub : externals :=
  {| categorizer := fun _ _ => Ok ([lit "sports"; lit "tech"], [(9 # 10)%Q; (1 # 10)%Q]);
     embedding_model := fun _ => Ok [1%Q; 0%Q];
     page := fun url selectors =>
       if str_eqb url (lit "https://b.example")
       then select_with selectors
              [ card "Cup final goes to penalties" "A late equaliser" "/one";
                card "Chip maker unveils new design" "Faster and cooler" "/two";
                card "Markets rally after rate cut" "Shares rise" "/three" ]
       else Raise ExternalError;
     urljoin := fun base href => base ++ href;
     store_error := fun _ => None;
     query_result := fun _ _ _ => VDict [(lit "metadatas", VList [VList []])] |}.

(** The same collaborators with a classifier that always fails. *)
Definition failing : externals :=
  {| categorizer := fun _ _ => Raise ExternalError;
     embedding_model := embedding_model stub;
     page := page stub;
     urljoin := urljoin stub;
     store_error := store_error stub;
     query_result := query_result stub |}.

(** A literal in which every apostrophe stands for a double quote. *)
Definition dq (s : string) : str :=
  map (fun c => if (c =? 39)%N then 34%N else c) (lit s).

(** A stored record whose metadata has the given category. *)
Definition with_category (v : val) : stored :=
  {| embedding := [1%Q; 0%Q];
     document := lit "Cup final goes to penalties";
     metadata := Some [ (lit "headline", VStr (lit "Cup final goes to penalties"));
                        (lit "categories", v) ] |}.

(** A store holding one record. *)
Definition one_record (v : val) : world :=
  {| collection := {[ lit "id1" := with_category v ]}; calls := [] |}.

(** A stored record written without metadata. *)
Definition without_metadata : stored :=
  {| embedding := [0%Q; 1%Q];
     document := lit "Chip maker unveils new design";
     metadata := None |}.

(** A store holding a record with a legacy category and a record without
    metadata. *)
Definition legacy_store : world :=
  {| collection := {[ lit "id1" := with_category (VStr (lit "sports,tech"));
                      lit "id2" := without_metadata ]};
     calls := [] |}.

(** An article as [process_articles_batch] returns it. *)
Definition sample_article : dict :=
  [ (lit "headline", VStr (lit "Cup final goes to penalties"));
    (lit "description", VStr (lit "A late equaliser"));
    (lit "url", VStr (lit "https://b.example/one"));
    (lit "image", VStr (lit ""));
    (lit "source", VStr (lit "https://b.example"));
    (lit "scraped_at", VStr (lit "2024-01-01T00:00:00"));
    (lit "categories",
     VDict [(lit "category", VStr (lit "sports"));
            (lit "confidence", VFloat (9 # 10))]) ].

Definition source_a : str * site :=
  (lit "a", {| site_url := lit "https://a.example";
               site_selectors := card_selectors;
               site_limit := 12 |}).

Definition source_b : str * site :=
  (lit "b", {| site_url := lit "https://b.example";
               site_selectors := card_selectors;
               site_limit := 12 |}).

(** Two configured sources: the first fails to load, the second shows
    three cards. *)
Definition two_sources : list (str * site) := [source_a; source_b].

(** The items scraped from the second of the two sources. *)
Definition b_items : list dict :=
  scrape_items stub (lit "https://b.example")
    (match page stub (lit "https://b.example") card_selectors
     with Ok found => found | Raise _ => [] end).

(** A page with a container that cannot be read between two cards. *)
Definition flaky : externals :=
  {| categorizer := categorizer stub;
     embedding_model := embedding_model stub;
     page := fun _ selectors =>
       select_with selectors
         [ card "Cup final goes to penalties" "A late equaliser" "/one";
           Raise ExternalError;
           card "Markets rally after rate cut" "Shares rise" "/three" ];
     urljoin := urljoin stub;
     store_error := store_error stub;
     query_result := query_result stub |}.

(** An article without a description. *)
Definition headline_only : dict :=
  [ (lit "headline", VStr (lit "Cup final goes to penalties"));
    (lit "url", VStr (lit "https://b.example/one")) ].

(** A store that refuses every write. *)
Definition refusing : externals :=
  {| categorizer := categorizer stub;
     embedding_model := embedding_model stub;
     page := page stub;
     urljoin := urljoin stub;
     store_error := fun ev =>
       match ev with
       | Upsert _ _ _ _ | Update _ _ => Some ExternalError
       | _ => None
       end;
     query_result := query_result stub |}.

End Doubles.

(* ================================================================== *)
(** * Predicates and descriptions used in the statements *)
(* ================================================================== *)

Module Spec.
Import Py Scraper.

(** The first code point of a UTF-8 byte string and the bytes after it,
    read off the leading byte. *)
Definition utf8_head (bs : list Z) : option (N * list Z) :=
  match bs with
  | [] => None
  | b0 :: r0 =>
      if b0 <? 128 then Some (Z.to_N b0, r0)
      else if b0 <? 224 then
        match r0 with
        | b1 :: r1 => Some (Z.to_N ((b0 - 192) * 64 + (b1 - 128)), r1)
        | _ => None
        end
      else if b0 <? 240 then
        match r0 with
        | b1 :: b2 :: r2 =>
            Some (Z.to_N ((b0 - 224) * 4096 + (b1 - 128) * 64 + (b2 - 128)), r2)
        | _ => None
        end
      else
        match r0 with
        | b1 :: b2 :: b3 :: r3 =>
            Some (Z.to_N ((b0 - 240) * 262144 + (b1 - 128) * 4096
                          + (b2 - 128) * 64 + (b3 - 128)), r3)
        | _ => None
        end
  end.

(** The part of [s] before its first [sep]: the first segment. *)
Fixpoint first_segment (sep : N) (s : str) : str :=
  match s with
  | [] => []
  | c :: s' => if (c =? sep)%N then [] else c :: first_segment sep s'
  end.

(** A category that is a plain label: not empty, no comma, no leading
    bracket. *)
Definition clean (s : str) : bool :=
  nonempty s && negb (startswith lbracket s) && negb (contains comma s).

(** Metadata on which one migration yields a plain label, or [general]:
    a comma-separated category does not begin with a comma, and the first
    object of a JSON-encoded category names a plain label. *)
Definition stable_input (m : dict) : bool :=
  match dict_get (lit "categories") m with
  | Some (VStr s) =>
      if startswith lbracket s then
        match Json.loads s with
        | Some (VList (VDict d :: _)) =>
            match dict_get (lit "category") d with
            | Some (VStr c) => clean c
            | Some _ => false
            | None => true
            end
        | _ => true
        end
      else negb (startswith comma s)
  | _ => true
  end.

(** The record has a metadata dictionary. *)
Definition has_metadata (r : stored) : bool :=
  match metadata r with Some _ => true | None => false end.

(** Every record of the collection has one. *)
Definition all_metadata (c : gmap str stored) : bool :=
  forallb (fun row => has_metadata (snd row)) (map_to_list c).

(** What one migration makes of a stored record. *)
Definition migrate_record (r : stored) : stored :=
  {| embedding := embedding r; document := document r;
     metadata := migrate_metadata <$> metadata r |}.

(** The rows passed to [collection.update] for a collection: the ids of
    the records and the migrated metadata of those that have metadata,
    which a run that reaches the update has found all to have. *)
Definition update_ids (c : gmap str stored) : list str :=
  map fst (map_to_list c).

Definition update_metadatas (c : gmap str stored) : list dict :=
  omap (fun row => migrate_metadata <$> metadata (snd row)) (map_to_list c).

(** The category stored for an id. *)
Definition stored_category (w : world) (id : str) : option val :=
  match collection w !! id with
  | Some r =>
      match metadata r with
      | Some m => dict_get (lit "categories") m
      | None => None
      end
  | None => None
  end.

(** The world after some more calls. *)
Definition logged (evs : list event) (w : world) : world :=
  {| collection := collection w; calls := calls w ++ evs |}.

(** ** The pipeline, stage by stage *)

(** The test that short-circuits [categorize_article]. *)
Definition short_text (text : str) : bool :=
  negb (nonempty (strip text)) || (length (split_ws text) <? 3)%nat.

(** The result of [categorize_article] on a text. *)
Definition category_of (E : externals) (text : str) : val :=
  if short_text text then general_result
  else
    match categorizer E text categories with
    | Ok (top_category :: _, top_score :: _) =>
        VDict [(lit "category", VStr top_category);
               (lit "confidence", VFloat (round2 top_score))]
    | _ => general_result
    end.

(** The world after [categorize_article] on a text. *)
Definition after_categorize (text : str) (w : world) : world :=
  if short_text text then w else logged [Classify text categories] w.

(** The text that is categorised for an article. *)
Definition text_of (art : dict) : str :=
  match article_text art with Ok t => t | Raise _ => [] end.

(** An article once categorised. *)
Definition categorized (E : externals) (art : dict) : dict :=
  dict_set (lit "categories") (category_of E (text_of art)) art.

(** The field is present and is a string. *)
Definition is_text (k : str) (art : dict) : bool :=
  match dict_get k art with Some (VStr _) => true | _ => false end.

(** An item as [scrape_website] builds it: six string fields. *)
Definition scraped_item (art : dict) : bool :=
  forallb (fun k => is_text k art)
    (map lit [ "headline"; "description"; "url"; "image"; "source";
               "scraped_at" ]%string).

(** The category assigned to an article, if any, is a string. *)
Definition category_ok (art : dict) : bool :=
  match dict_get (lit "categories") art with
  | None => true
  | Some (VDict d) =>
      match dict_get (lit "category") d with
      | None | Some (VStr _) => true
      | Some _ => false
      end
  | Some _ => false
  end.

(** The category assigned to an article, [general] when none is. *)
Definition assigned_category (art : dict) : str :=
  match dict_get (lit "categories") art with
  | Some (VDict d) =>
      match dict_get (lit "category") d with
      | Some (VStr c) => c
      | _ => general
      end
  | _ => general
  end.

(** Every call a computation makes satisfies [P], from any world. *)
Definition emits (P : event -> Prop) {A} (m : M A) : Prop :=
  forall w, exists evs, calls (snd (m w)) = calls w ++ evs /\ Forall P evs.

Definition not_dump (ev : event) : Prop :=
  match ev with Dump _ _ => False | _ => True end.

Definition not_upsert (ev : event) : Prop :=
  match ev with Upsert _ _ _ _ => False | _ => True end.

(** What one source adds to the result of a run: the articles of its
    [try] block when it completes, nothing when it raises. *)
Definition site_contribution (E : externals) (config : site) (limit : Z)
    (w : world) : list dict * world :=
  match scrape_site E config limit w with
  | (Ok processed_articles, w') => (processed_articles, w')
  | (Raise _, w') => ([], w')
  end.

Fixpoint run_contributions (E : externals) (sites : list (str * site))
    (limit : Z) (w : world) : list dict * world :=
  match sites with
  | [] => ([], w)
  | entry :: sites' =>
      let '(arts, w1) := site_contribution E (snd entry) limit w in
      let '(arts', w2) := run_contributions E sites' limit w1 in
      (arts ++ arts', w2)
  end.

(** The key is present. *)
Definition has_key (k : str) (art : dict) : bool :=
  match dict_get k art with Some _ => true | None => false end.

(** The keys of an item, in the order in which [scrape_website] sets
    them. *)
Definition item_keys : list str :=
  map lit [ "headline"; "description"; "url"; "image"; "source";
            "scraped_at" ]%string.

(** An item as [scrape_website] returns it: the six string fields, no
    other, and no category yet. *)
Definition raw_item (art : dict) : bool :=
  bool_decide (map fst art = item_keys)
  && scraped_item art && negb (has_key (lit "categories") art)
  && negb (has_key (lit "category") art)
  && negb (has_key (lit "confidence") art).

(** What [scrape_website] returns. *)
Definition scraped (E : externals) (url : str) (selectors : list (str * str))
    (limit : option Z) : list dict :=
  match page E url selectors with
  | Ok found =>
      scrape_items E url
        (match limit with Some n => slice_to n found | None => found end)
  | Raise _ => []
  end.

(** The items scraped from a configured source. *)
Definition site_items (E : externals) (config : site) (limit : Z) : list dict :=
  scraped E (site_url config) (site_selectors config)
    (Some (Z.min (site_limit config) limit)).

(** The classifier gives scores between 0 and 1. *)
Definition unit_scores (E : externals) : Prop :=
  forall text labels ls ss,
    categorizer E text labels = Ok (ls, ss) ->
    Forall (fun x => 0 <= x /\ x <= 1)%Q ss.

(** The first label and the first score of the classifier on a text, when
    the code asks for them and gets them: the text has three tokens or more
    and the classifier answers with a label and a score at least. *)
Definition top_answer (E : externals) (text : str) : option (str * Q) :=
  if short_text text then None
  else
    match categorizer E text categories with
    | Ok (top_category :: _, top_score :: _) => Some (top_category, top_score)
    | _ => None
    end.

(** The category and the confidence the code assigns to a text: the first
    label of the classifier with its first score rounded to two decimals,
    or [general] with 1.0 when there is no such answer; the confidence lies
    between 0 and 1 when the scores of the classifier do. *)
Definition confidence_of (E : externals) (text : str) (c : str) (q : Q) : Prop :=
  match top_answer E text with
  | Some (top_category, top_score) => c = top_category /\ q = round2 top_score
  | None => c = general /\ q = 1%Q
  end
  /\ (unit_scores E -> (0 <= q /\ q <= 1)%Q).

(** The elements of the persisted array as the code builds them: seven
    keys, of which six hold strings and the last, [categories], an object
    holding the category and the confidence, which [conf] relates to the
    text of the element (its headline, a space and its description); no
    [category] or [confidence] key of their own. *)
Definition persisted_shape (conf : str -> str -> Q -> Prop) (art : dict) : Prop :=
  map fst art = item_keys ++ [lit "categories"]
  /\ scraped_item art = true
  /\ (exists c q,
        dict_get (lit "categories") art
        = Some (VDict [(lit "category", VStr c); (lit "confidence", VFloat q)])
        /\ conf (text_of art) c q)
  /\ dict_get (lit "category") art = None
  /\ dict_get (lit "confidence") art = None.

(** The Article record in the words of the specification's data model:
    the six string fields and, as fields of the record itself, [category]
    as a string and [confidence] as a float between 0 and 1. *)
Definition article_record_shape (art : dict) : Prop :=
  scraped_item art = true
  /\ (exists c, dict_get (lit "category") art = Some (VStr c))
  /\ (exists q, dict_get (lit "confidence") art = Some (VFloat q)
                /\ (0 <= q /\ q <= 1)%Q).

(** ** What [store_in_chromadb] writes *)

(** The metadata dictionary built for an article. *)
Definition metadata_of (art : dict) : res dict :=
  match article_text art with
  | Ok doc_text => article_metadata art doc_text
  | Raise e => Raise e
  end.

(** The image of an article, if any, is a string. *)
Definition image_ok (art : dict) : bool :=
  match dict_get (lit "image") art with
  | None | Some (VStr _) => true
  | Some _ => false
  end.

(** An article as the pipeline hands it to [store_in_chromadb]: its
    headline and description are strings, and so are its image and its
    assigned category when it has them. *)
Definition storable (art : dict) : bool :=
  is_text (lit "headline") art && is_text (lit "description") art
  && image_ok art && category_ok art.

(** The invariant of a stored metadata dictionary [m], written with the
    document text [doc_text] for the article [art]. *)
Definition metadata_invariant (art : dict) (doc_text : str) (m : dict) : Prop :=
  exists headline description image,
    dict_get (lit "headline") art = Some (VStr headline)
    /\ dict_get (lit "description") art = Some (VStr description)
    /\ default (VStr []) (dict_get (lit "image") art) = VStr image
    /\ doc_text = headline ++ [space] ++ description
    /\ dict_get (lit "categories") m = Some (VStr (assigned_category art))
    /\ dict_get (lit "description") m = Some (VStr (slice_to 500 description))
    /\ (length (slice_to 500 description) <= 500)%nat
    /\ dict_get (lit "image") m = Some (VStr (slice_to 200 image))
    /\ (length (slice_to 200 image) <= 200)%nat
    /\ dict_get (lit "text_length") m = Some (VInt (Z.of_nat (length doc_text))).

(** ** Further descriptions of the methods *)

(** An item as [scrape_website] appends it for the page [url]: the six
    fields in order, with a headline that is neither empty nor the
    placeholder, a link that is not empty, and the page as source. *)
Definition valid_item (url : str) (art : dict) : Prop :=
  exists headline description link image scraped_at,
    art = [ (lit "headline", VStr headline);
            (lit "description", VStr description);
            (lit "url", VStr link);
            (lit "image", VStr image);
            (lit "source", VStr url);
            (lit "scraped_at", VStr scraped_at) ]
    /\ headline ≠ [] /\ headline ≠ lit "No headline" /\ link ≠ [].

(** The calls [categorize_article] makes on a text. *)
Definition classify_calls (text : str) : list event :=
  if short_text text then [] else [Classify text categories].

(** The field is absent or is a string. *)
Definition absent_or_text (k : str) (art : dict) : bool :=
  match dict_get k art with
  | None | Some (VStr _) => true
  | Some _ => false
  end.

(** What [generate_embedding] returns on a text, and the calls it makes. *)
Definition embedding_of (E : externals) (text : str) : res vector :=
  if negb (nonempty (strip text)) then Ok (repeat (0 : Q) 384)
  else embedding_model E text.

Definition encode_calls (text : str) : list event :=
  if negb (nonempty (strip text)) then [] else [Encode text].

Definition is_encode (ev : event) : Prop :=
  match ev with Encode _ => True | _ => False end.

(** The row that the loop of [store_in_chromadb] builds for an article:
    id, embedding, document text and metadata. *)
Definition record_of (E : externals) (art : dict)
    : res (str * vector * str * dict) :=
  match article_text art with Raise e => Raise e | Ok doc_text =>
  match embedding_of E doc_text with Raise e => Raise e | Ok embedding =>
  match text_field (lit "url") art with Raise e => Raise e | Ok url =>
  match text_field (lit "headline") art with Raise e => Raise e | Ok headline =>
  match generate_article_id url headline with Raise e => Raise e | Ok article_id =>
  match article_metadata art doc_text with Raise e => Raise e | Ok meta =>
    Ok (article_id, embedding, doc_text, meta)
  end end end end end end.

Fixpoint records_of (E : externals) (arts : list dict)
    : res (list (str * vector * str * dict)) :=
  match arts with
  | [] => Ok []
  | a :: arts' =>
      match record_of E a with
      | Raise e => Raise e
      | Ok r =>
          match records_of E arts' with
          | Raise e => Raise e
          | Ok rs => Ok (r :: rs)
          end
      end
  end.

(** The call to the store for a list of rows. *)
Definition upsert_of (rows : list (str * vector * str * dict)) : event :=
  Upsert (map (fun r => fst (fst (fst r))) rows)
         (map (fun r => snd (fst (fst r))) rows)
         (map (fun r => snd (fst r)) rows)
         (map snd rows).

(** A lowercase hexadecimal digit. *)
Definition is_hex (c : N) : bool :=
  ((48 <=? c) && (c <=? 57) || (97 <=? c) && (c <=? 102))%N.

(** A code point that UTF-8 can encode: in range and not a surrogate. *)
Definition encodable (c : N) : bool :=
  ((c <? 55296) || (57343 <? c) && (c <? 1114112))%N.

(** A computation only makes calls, all of which satisfy [P]: it leaves
    the collection as it is. *)
Definition logs (P : event -> Prop) {A} (m : M A) : Prop :=
  forall w, exists evs, snd (m w) = logged evs w /\ Forall P evs.

(** The pages that a sequence of calls loads, in order. *)
Definition goto_urls (evs : list event) : list str :=
  flat_map (fun ev => match ev with Goto url => [url] | _ => [] end) evs.

Definition not_goto (ev : event) : Prop :=
  match ev with Goto _ => False | _ => True end.

(** The call hands the article to the store, which takes it: the id of the
    article and its document stand at the same place of the call. *)
Definition stored_by (E : externals) (a : dict) (ev : event) : Prop :=
  match ev with
  | Upsert ids embs docs metas =>
      store_error E ev = None
      /\ exists (i : nat) id url headline description,
           dict_get (lit "url") a = Some (VStr url)
           /\ dict_get (lit "headline") a = Some (VStr headline)
           /\ dict_get (lit "description") a = Some (VStr description)
           /\ generate_article_id url headline = Ok id
           /\ ids !! i = Some id
           /\ docs !! i = Some (headline ++ [space] ++ description)
  | _ => False
  end.

(** A search hit that the loop of [main] can log: a dictionary with the
    three keys it reads. *)
Definition inspectable (m : val) : Prop :=
  exists d, m = VDict d
            /\ has_key (lit "headline") d = true
            /\ has_key (lit "source") d = true
            /\ has_key (lit "categories") d = true.

(** The sum of the limits of the sources, each capped by the limit of the
    run. *)
Definition sites_bound (sites : list (str * site)) (limit : Z) : Z :=
  fold_right Z.add 0
    (map (fun entry => Z.min (site_limit (snd entry)) limit) sites).

End Spec.

(* ================================================================== *)
(** * Properties *)
(* ================================================================== *)

Module Props.
Import Py Scraper Doubles Spec.

(** ** Python data *)

Lemma str_eqb_eq (a b : str) : str_eqb a b = true <-> a = b.
Proof. unfold str_eqb. apply bool_decide_eq_true. Qed.

Lemma str_eqb_refl (a : str) : str_eqb a a = true.
Proof. by apply str_eqb_eq. Qed.

Lemma str_eqb_ne (a b : str) : a ≠ b -> str_eqb a b = false.
Proof. unfold str_eqb. apply bool_decide_eq_false. Qed.

Lemma dict_get_set_eq k v d : dict_get k (dict_set k v d) = Some v.
Proof.
  induction d as [|[k' v'] d IH]; simpl.
  - by rewrite str_eqb_refl.
  - destruct (str_eqb k k') eqn:Hk; simpl; rewrite Hk; [done | exact IH].
Qed.

Lemma dict_get_set_ne k k' v d :
  k ≠ k' -> dict_get k (dict_set k' v d) = dict_get k d.
Proof.
  intros Hne. induction d as [|[k2 v2] d IH]; simpl.
  - by rewrite str_eqb_ne.
  - destruct (str_eqb k' k2) eqn:Hk; simpl.
    + apply str_eqb_eq in Hk as <-. by rewrite (str_eqb_ne k k' Hne).
    + by rewrite IH.
Qed.

Lemma lstrip_all_space (s : str) : forallb isspace s = true -> lstrip s = [].
Proof.
  induction s as [|c s IH]; simpl; [done |].
  intros [Hc Hs]%andb_prop. rewrite Hc. by apply IH.
Qed.

Lemma strip_all_space (s : str) : forallb isspace s = true -> strip s = [].
Proof. intros H. unfold strip. by rewrite lstrip_all_space. Qed.

(** ** [generate_article_id] *)

(** Equal pre-hash strings give equal ids. *)
Lemma generate_article_id_unique_string url1 headline1 url2 headline2 :
  unique_string url1 headline1 = unique_string url2 headline2 ->
  generate_article_id url1 headline1 = generate_article_id url2 headline2.
Proof. unfold generate_article_id. by intros ->. Qed.

(** C5, as stated, fails: the pairs [("a_b", "c")] and [("a", "b_c")] are
    distinct and are given the same id, since both are hashed as
    ["a_b_c"]. *)
Lemma generate_article_id_collision :
  (lit "a_b", lit "c") ≠ (lit "a", lit "b_c")
  /\ generate_article_id (lit "a_b") (lit "c")
     = generate_article_id (lit "a") (lit "b_c")
  /\ generate_article_id (lit "a_b") (lit "c")
     = Ok (lit "8d28cddc274233853a82eae1c6c7f0b3").
Proof. split; [discriminate | split; vm_compute; reflexivity]. Qed.

(** A bit pattern laid over the free low bits of a leading byte adds. *)
Lemma lor_low_bits (a x k : Z) :
  0 <= k -> 0 <= x < 2 ^ k -> a mod 2 ^ k = 0 -> Z.lor a x = a + x.
Proof.
  intros Hk Hx Ha.
  assert (Hland : Z.land a x = 0).
  { rewrite <- (Z.mod_small x (2 ^ k)) by lia.
    rewrite <- (Z.land_ones x k) by lia.
    rewrite (Z.land_comm x), Z.land_assoc, (Z.land_ones a k) by lia.
    by rewrite Ha. }
  rewrite <- (Z.lxor_lor _ _ Hland). symmetry. by apply Z.add_nocarry_lxor.
Qed.

(** Arithmetic with quotients and remainders by constants. *)
Ltac bytes_arith :=
  try reflexivity;
  repeat match goal with
         | |- context [2 ^ ?k] =>
             let v := eval cbv in (2 ^ k) in change (2 ^ k) with v
         end;
  Z.div_mod_to_equations; lia.

(** The bytes of a code point, followed by anything, are read back as that
    code point. *)
Lemma encode_char_head (c : N) (bs rest : list Z) :
  Utf8.encode_char c = Ok bs -> utf8_head (bs ++ rest) = Some (c, rest).
Proof.
  unfold Utf8.encode_char. cbn zeta.
  pose proof (N2Z.is_nonneg c) as Hc.
  assert (Hz : Z.to_N (Z.of_N c) = c) by apply N2Z.id.
  generalize dependent (Z.of_N c). intros z Hc Hz.
  rewrite !Z.shiftr_div_pow2 by lia.
  change 63 with (Z.ones 6). rewrite !Z.land_ones by lia.
  change (2 ^ 6) with 64. change (2 ^ 12) with 4096. change (2 ^ 18) with 262144.
  destruct (z <? 128) eqn:H1; [intros [= <-]; cbn; by rewrite H1, Hz |].
  apply Z.ltb_ge in H1.
  destruct (z <? 2048) eqn:H2.
  { apply Z.ltb_lt in H2. intros [= <-].
    rewrite (lor_low_bits 192 (z / 64) 5), (lor_low_bits 128 (z mod 64) 6)
      by bytes_arith.
    cbn [app utf8_head].
    replace (192 + z / 64 <? 128) with false
      by (symmetry; apply Z.ltb_ge; bytes_arith).
    replace (192 + z / 64 <? 224) with true
      by (symmetry; apply Z.ltb_lt; bytes_arith).
    do 2 f_equal. rewrite <- Hz. f_equal. bytes_arith. }
  apply Z.ltb_ge in H2.
  destruct (z <? 65536) eqn:H3.
  { apply Z.ltb_lt in H3. destruct (_ && _); [discriminate |]. intros [= <-].
    rewrite (lor_low_bits 224 (z / 4096) 4),
      (lor_low_bits 128 ((z / 64) mod 64) 6), (lor_low_bits 128 (z mod 64) 6)
      by bytes_arith.
    cbn [app utf8_head].
    replace (224 + z / 4096 <? 128) with false
      by (symmetry; apply Z.ltb_ge; bytes_arith).
    replace (224 + z / 4096 <? 224) with false
      by (symmetry; apply Z.ltb_ge; bytes_arith).
    replace (224 + z / 4096 <? 240) with true
      by (symmetry; apply Z.ltb_lt; bytes_arith).
    do 2 f_equal. rewrite <- Hz. f_equal. bytes_arith. }
  apply Z.ltb_ge in H3.
  destruct (z <? 1114112) eqn:H4; [| discriminate].
  apply Z.ltb_lt in H4. intros [= <-].
  rewrite (lor_low_bits 240 (z / 262144) 3),
    (lor_low_bits 128 ((z / 4096) mod 64) 6),
    (lor_low_bits 128 ((z / 64) mod 64) 6), (lor_low_bits 128 (z mod 64) 6)
    by bytes_arith.
  cbn [app utf8_head].
  replace (240 + z / 262144 <? 128) with false
    by (symmetry; apply Z.ltb_ge; bytes_arith).
  replace (240 + z / 262144 <? 224) with false
    by (symmetry; apply Z.ltb_ge; bytes_arith).
  replace (240 + z / 262144 <? 240) with false
    by (symmetry; apply Z.ltb_ge; bytes_arith).
  do 2 f_equal. rewrite <- Hz. f_equal. bytes_arith.
Qed.

(** [str.encode] is injective: two strings with the same bytes are the
    same string. *)
Lemma encode_inj (s1 s2 : str) (bs : list Z) :
  Utf8.encode s1 = Ok bs -> Utf8.encode s2 = Ok bs -> s1 = s2.
Proof.
  revert s2 bs. induction s1 as [|c1 s1 IH]; intros [|c2 s2] bs;
    cbn [Utf8.encode]; try done.
  - intros [= <-].
    destruct (Utf8.encode_char c2) as [b2|] eqn:H2; [| discriminate].
    destruct (Utf8.encode s2) as [r2|]; [| discriminate].
    intros [= Hnil]. pose proof (encode_char_head c2 b2 r2 H2) as Hh.
    rewrite Hnil in Hh. discriminate Hh.
  - destruct (Utf8.encode_char c1) as [b1|] eqn:H1; [| discriminate].
    destruct (Utf8.encode s1) as [r1|]; [| discriminate].
    intros [= <-] [= Hnil]. pose proof (encode_char_head c1 b1 r1 H1) as Hh.
    rewrite <- Hnil in Hh. discriminate Hh.
  - destruct (Utf8.encode_char c1) as [b1|] eqn:H1; [| discriminate].
    destruct (Utf8.encode s1) as [r1|] eqn:Hs1; [| discriminate].
    destruct (Utf8.encode_char c2) as [b2|] eqn:H2; [| discriminate].
    destruct (Utf8.encode s2) as [r2|] eqn:Hs2; [| discriminate].
    intros [= <-] [= Heq].
    pose proof (encode_char_head c1 b1 r1 H1) as Hh1.
    pose proof (encode_char_head c2 b2 r2 H2) as Hh2.
    rewrite Heq, Hh1 in Hh2. injection Hh2 as -> ->.
    f_equal. by eapply IH.
Qed.

(** The bytes of an encoded string are bytes. *)
Lemma encode_char_range (c : N) (bs : list Z) :
  Utf8.encode_char c = Ok bs -> Forall (fun b => 0 <= b < 256) bs.
Proof.
  unfold Utf8.encode_char. cbn zeta.
  pose proof (N2Z.is_nonneg c) as Hc.
  generalize dependent (Z.of_N c). intros z Hc.
  rewrite !Z.shiftr_div_pow2 by lia.
  change 63 with (Z.ones 6). rewrite !Z.land_ones by lia.
  change (2 ^ 6) with 64. change (2 ^ 12) with 4096. change (2 ^ 18) with 262144.
  destruct (z <? 128) eqn:H1.
  { apply Z.ltb_lt in H1. intros [= <-]. repeat constructor; lia. }
  apply Z.ltb_ge in H1.
  destruct (z <? 2048) eqn:H2.
  { apply Z.ltb_lt in H2. intros [= <-].
    rewrite (lor_low_bits 192 (z / 64) 5), (lor_low_bits 128 (z mod 64) 6)
      by bytes_arith.
    repeat constructor; bytes_arith. }
  apply Z.ltb_ge in H2.
  destruct (z <? 65536) eqn:H3.
  { apply Z.ltb_lt in H3. destruct (_ && _); [discriminate |]. intros [= <-].
    rewrite (lor_low_bits 224 (z / 4096) 4),
      (lor_low_bits 128 ((z / 64) mod 64) 6), (lor_low_bits 128 (z mod 64) 6)
      by bytes_arith.
    repeat constructor; bytes_arith. }
  apply Z.ltb_ge in H3.
  destruct (z <? 1114112) eqn:H4; [| discriminate].
  apply Z.ltb_lt in H4. intros [= <-].
  rewrite (lor_low_bits 240 (z / 262144) 3),
    (lor_low_bits 128 ((z / 4096) mod 64) 6),
    (lor_low_bits 128 ((z / 64) mod 64) 6), (lor_low_bits 128 (z mod 64) 6)
    by bytes_arith.
  repeat constructor; bytes_arith.
Qed.

Lemma encode_range (s : str) (bs : list Z) :
  Utf8.encode s = Ok bs -> Forall (fun b => 0 <= b < 256) bs.
Proof.
  revert bs. induction s as [|c s IH]; intros bs; cbn [Utf8.encode].
  - intros [= <-]. constructor.
  - destruct (Utf8.encode_char c) as [b|] eqn:Hc; [| discriminate].
    destruct (Utf8.encode s) as [r|]; [| discriminate].
    intros [= <-]. apply Forall_app. split; [by eapply encode_char_range | by apply IH].
Qed.

Lemma length_le_bytes (n : nat) (x : Z) : length (MD5.le_bytes n x) = n.
Proof.
  revert x. induction n as [|n IH]; intros x; cbn [MD5.le_bytes length];
    [done | by rewrite IH].
Qed.

Lemma le_bytes_range (n : nat) (x : Z) :
  Forall (fun b => 0 <= b < 256) (MD5.le_bytes n x).
Proof.
  revert x. induction n as [|n IH]; intros x; cbn [MD5.le_bytes];
    constructor; [| apply IH].
  apply Z.mod_pos_bound. lia.
Qed.

Lemma digest_range (msg : list Z) :
  Forall (fun b => 0 <= b < 256) (MD5.digest msg).
Proof.
  unfold MD5.digest.
  destruct (fold_left MD5.compress _ MD5.init) as [[[A B] C] D].
  repeat (apply Forall_app; split); apply le_bytes_range.
Qed.

Lemma hex_digit_inj (x y : Z) :
  0 <= x < 16 -> 0 <= y < 16 -> MD5.hex_digit x = MD5.hex_digit y -> x = y.
Proof.
  unfold MD5.hex_digit. intros Hx Hy H.
  destruct (x <? 10) eqn:Hx10; destruct (y <? 10) eqn:Hy10;
    rewrite ?Z.ltb_lt, ?Z.ltb_ge in *; lia.
Qed.

(** The hexadecimal text of a digest determines the digest. *)
Lemma hexdigest_inj (msg1 msg2 : list Z) :
  MD5.hexdigest msg1 = MD5.hexdigest msg2 -> MD5.digest msg1 = MD5.digest msg2.
Proof.
  unfold MD5.hexdigest.
  pose proof (digest_range msg1) as H1. pose proof (digest_range msg2) as H2.
  revert H1 H2. generalize (MD5.digest msg1) (MD5.digest msg2).
  intros l1 l2 H1. revert l2.
  induction H1 as [|b1 l1 Hb1 _ IH]; intros l2 H2; destruct H2 as [|b2 l2 Hb2 H2];
    cbn [flat_map app]; try done.
  intros [= Hhi Hlo Hrest].
  apply hex_digit_inj in Hhi; [| bytes_arith | bytes_arith].
  apply hex_digit_inj in Hlo; [| bytes_arith | bytes_arith].
  f_equal; [| by apply IH].
  rewrite (Z.div_mod b1 16), (Z.div_mod b2 16) by lia. by rewrite Hhi, Hlo.
Qed.

(** C5, amended: two distinct pairs whose urls contain no underscore have
    distinct pre-hash strings [url + "_" + headline], hence distinct
    encodings, and [generate_article_id] gives them the same id exactly
    when MD5 gives one digest to these two distinct byte strings. *)
Theorem unique_string_injective url1 headline1 url2 headline2 :
  contains underscore url1 = false ->
  contains underscore url2 = false ->
  (url1, headline1) ≠ (url2, headline2) ->
  unique_string url1 headline1 ≠ unique_string url2 headline2
  /\ forall bytes1 bytes2,
       Utf8.encode (unique_string url1 headline1) = Ok bytes1 ->
       Utf8.encode (unique_string url2 headline2) = Ok bytes2 ->
       bytes1 ≠ bytes2
       /\ Forall (fun b => 0 <= b < 256) bytes1
       /\ Forall (fun b => 0 <= b < 256) bytes2
       /\ generate_article_id url1 headline1 = Ok (MD5.hexdigest bytes1)
       /\ generate_article_id url2 headline2 = Ok (MD5.hexdigest bytes2)
       /\ (generate_article_id url1 headline1
           = generate_article_id url2 headline2
           <-> MD5.digest bytes1 = MD5.digest bytes2).
Proof.
  intros H1 H2 Hne.
  assert (Hstr : unique_string url1 headline1 ≠ unique_string url2 headline2).
  { intros Heq. apply Hne. clear Hne.
    revert url2 H1 H2 Heq. unfold unique_string, contains.
    induction url1 as [|c url1 IH]; intros [|c' url2]; cbn [existsb app];
      intros H1 H2 Heq.
    - by injection Heq as ->.
    - injection Heq as <- _. by rewrite N.eqb_refl in H2.
    - injection Heq as -> _. by rewrite N.eqb_refl in H1.
    - injection Heq as -> Heq.
      apply orb_false_elim in H1 as [_ H1]. apply orb_false_elim in H2 as [_ H2].
      specialize (IH url2 H1 H2 Heq). by injection IH as -> ->. }
  split; [exact Hstr |].
  unfold generate_article_id. intros b1 b2 Hb1 Hb2. rewrite Hb1, Hb2.
  split; [intros ->; apply Hstr; by eapply encode_inj |].
  split; [by eapply encode_range |]. split; [by eapply encode_range |].
  split; [done |]. split; [done |]. split.
  - intros [= Hid]. by apply hexdigest_inj.
  - unfold MD5.hexdigest. by intros ->.
Qed.

Lemma unique_string_injective_witness :
  unique_string (lit "https://a.example/x") (lit "Cup_final")
  ≠ unique_string (lit "https://a.example/x") (lit "Cup final")
  /\ generate_article_id (lit "https://a.example/x") (lit "Cup_final")
     ≠ generate_article_id (lit "https://a.example/x") (lit "Cup final").
Proof.
  destruct (unique_string_injective
              (lit "https://a.example/x") (lit "Cup_final")
              (lit "https://a.example/x") (lit "Cup final"))
    as [Hstr Hids]; [reflexivity | reflexivity | discriminate |].
  split; [exact Hstr |].
  destruct (Utf8.encode
              (unique_string (lit "https://a.example/x") (lit "Cup_final")))
    as [b1|] eqn:Hb1; [| vm_compute in Hb1; discriminate Hb1].
  destruct (Utf8.encode
              (unique_string (lit "https://a.example/x") (lit "Cup final")))
    as [b2|] eqn:Hb2; [| vm_compute in Hb2; discriminate Hb2].
  destruct (Hids b1 b2 eq_refl eq_refl) as [_ [_ [_ [_ [_ Hiff]]]]].
  intros Heq. apply Hiff in Heq.
  vm_compute in Hb1, Hb2. injection Hb1 as <-. injection Hb2 as <-.
  vm_compute in Heq. discriminate Heq.
Defined.

(** ** [generate_embedding] *)

(** C9: on a text that is empty or made of whitespace only, the result is
    the vector of 384 zeros and the world is unchanged: the encoder is not
    called. *)
Theorem generate_embedding_blank E (text : str) (w : world) :
  forallb isspace text = true ->
  generate_embedding E text w = (Ok (repeat (0 : Q) 384), w)
  /\ length (repeat (0 : Q) 384) = 384%nat
  /\ Forall (fun x => x = 0%Q) (repeat (0 : Q) 384).
Proof.
  intros H. unfold generate_embedding. rewrite (strip_all_space _ H).
  split; [reflexivity |]. split; [apply repeat_length |].
  apply Forall_forall. intros x Hx%list_elem_of_In. by apply repeat_spec in Hx.
Qed.

Lemma generate_embedding_blank_witness :
  generate_embedding stub (lit "") w0 = (Ok (repeat (0 : Q) 384), w0)
  /\ generate_embedding stub (lit "  ") w0 = (Ok (repeat (0 : Q) 384), w0).
Proof.
  split.
  - apply (generate_embedding_blank stub (lit "") w0). reflexivity.
  - apply (generate_embedding_blank stub (lit "  ") w0). reflexivity.
Defined.

(** ** [categorize_article] *)

(** C6: a text that is blank or has fewer than three whitespace-delimited
    tokens is given [general] with confidence 1.0, and the world is
    unchanged: the classifier is not called. *)
Theorem categorize_article_short_circuit E (text : str) (w : world) :
  forallb isspace text = true \/ (length (split_ws text) < 3)%nat ->
  categorize_article E text w = (Ok general_result, w).
Proof.
  intros H. unfold categorize_article.
  destruct H as [H | H].
  - by rewrite (strip_all_space _ H).
  - apply Nat.ltb_lt in H. rewrite H. by rewrite orb_true_r.
Qed.

Lemma categorize_article_short_circuit_witness :
  categorize_article stub (lit "") w0 = (Ok general_result, w0)
  /\ categorize_article stub (lit "a b") w0 = (Ok general_result, w0).
Proof.
  split.
  - apply (categorize_article_short_circuit stub (lit "") w0).
    left. reflexivity.
  - apply (categorize_article_short_circuit stub (lit "a b") w0).
    right. simpl. lia.
Defined.

(** ** [migrate_categories] *)

Lemma hd_split_on_from sep cur s :
  hd [] (split_on_from sep cur s) = rev cur ++ first_segment sep s.
Proof.
  revert cur. induction s as [|c s IH]; intros cur; simpl.
  - by rewrite app_nil_r.
  - destruct (c =? sep)%N; simpl.
    + by rewrite app_nil_r.
    + rewrite IH. simpl. by rewrite <- app_assoc.
Qed.

Lemma hd_split_on sep s : hd [] (split_on sep s) = first_segment sep s.
Proof. unfold split_on. by rewrite hd_split_on_from. Qed.

Lemma categories_ne_category : lit "category" ≠ lit "categories".
Proof. discriminate. Qed.

(** Case analysis on a scrutinee that is not itself a case analysis. *)
Ltac case_inner :=
  match goal with
  | |- context [match ?x with _ => _ end] =>
      lazymatch x with
      | context [match _ with _ => _ end] => fail
      | _ => destruct x eqn:?
      end
  end.

(** Every branch of the [try] block leaves the dictionary as it is or
    assigns its [categories] key. *)
Lemma migrate_try_shape (m : dict) :
  match migrate_try m with
  | Ok m' => m' = m \/ exists v, m' = dict_set (lit "categories") v m
  | Raise _ => True
  end.
Proof. unfold migrate_try. repeat case_inner; eauto. Qed.

(** The handler and every branch of the [try] block touch the
    [categories] key only. *)
Lemma migrate_metadata_other_keys (m : dict) (k : str) :
  k ≠ lit "categories" -> dict_get k (migrate_metadata m) = dict_get k m.
Proof.
  intros Hk. unfold migrate_metadata.
  pose proof (migrate_try_shape m) as H.
  destruct (migrate_try m) as [m'|e].
  - destruct H as [-> | [v ->]]; [done | by rewrite dict_get_set_ne].
  - by rewrite dict_get_set_ne.
Qed.

Lemma zip_fst_map {A B C} (f : A -> B) (g : A -> C) (l : list A) :
  zip (map f l) (map g l) = map (fun x => (f x, g x)) l.
Proof. induction l as [|x l IH]; simpl; [done | by rewrite IH]. Qed.

(** Updating every row of a collection with a function of its own
    metadata maps that function over the collection. *)
Lemma apply_update_rows (f : option dict -> dict) (rows : list (str * stored))
    (c : gmap str stored) (k : str) :
  NoDup (map fst rows) ->
  (forall i r, (i, r) ∈ rows -> c !! i = Some r) ->
  apply_update (map fst rows) (map (fun row => f (metadata (snd row))) rows) c !! k
  = if decide (k ∈ map fst rows)
    then (fun r => {| embedding := embedding r; document := document r;
                      metadata := Some (f (metadata r)) |}) <$> c !! k
    else c !! k.
Proof.
  unfold apply_update. rewrite zip_fst_map.
  revert c. induction rows as [|[i0 r0] rows IH]; intros c Hnd Hin.
  - cbn [map fold_left]. case_decide as Hk; [by apply elem_of_nil in Hk | done].
  - cbn [map fold_left fst snd] in *. apply NoDup_cons in Hnd as [Hi0 Hnd].
    rewrite IH; [| done |].
    + destruct (decide (k = i0)) as [-> | Hne].
      * rewrite decide_False by done.
        rewrite decide_True by (apply elem_of_cons; by left).
        rewrite lookup_alter_eq.
        by rewrite (Hin i0 r0) by (apply elem_of_cons; by left).
      * rewrite lookup_alter_ne by done.
        destruct (decide (k ∈ map fst rows)) as [Hk | Hk].
        -- by rewrite decide_True by (apply elem_of_cons; by right).
        -- rewrite decide_False; [done |].
           intros [? | ?]%elem_of_cons; done.
    + intros i r Hir. rewrite lookup_alter_ne.
      * apply Hin. apply elem_of_cons. by right.
      * intros <-. apply Hi0.
        apply (list_elem_of_fmap_2 fst) in Hir. exact Hir.
Qed.

(** The loop completes exactly when every record has metadata, and gives
    the migrated dictionaries in order; otherwise it raises the
    [TypeError] of the first record without metadata. *)
Lemma migrate_items_run (rows : list (str * stored)) :
  migrate_items (map snd (map (fun row => (fst row, metadata (snd row))) rows))
  = if forallb (fun row => has_metadata (snd row)) rows
    then Ok (omap (fun row => migrate_metadata <$> metadata (snd row)) rows)
    else Raise TypeError.
Proof.
  induction rows as [|[i r] rows IH]; [done |].
  cbn [map migrate_items forallb fst snd]. unfold has_metadata at 1.
  cbn [snd]. destruct (metadata r) as [m|] eqn:Hm; [| done].
  cbn [migrate_item andb]. rewrite IH.
  destruct (forallb _ rows); [| done]. cbn. by rewrite Hm.
Qed.

(** On a collection whose records all have metadata, the rows of the
    update are aligned with the records. *)
Lemma update_metadatas_rows (c : gmap str stored) :
  all_metadata c = true ->
  update_metadatas c
  = map (fun row => migrate_metadata (default [] (metadata (snd row))))
        (map_to_list c).
Proof.
  unfold all_metadata, update_metadatas.
  induction (map_to_list c) as [|[i r] rows IH]; [done |].
  cbn [forallb map snd]. unfold has_metadata at 1. cbn [snd].
  destruct (metadata r) as [m|] eqn:Hm; [| discriminate].
  cbn [andb]. intros Hrows. cbn. by rewrite Hm, IH.
Qed.

Lemma all_metadata_lookup (c : gmap str stored) (id : str) (r : stored) :
  all_metadata c = true -> c !! id = Some r -> exists m, metadata r = Some m.
Proof.
  unfold all_metadata. rewrite forallb_forall. intros Hall Hr.
  apply elem_of_map_to_list in Hr. apply list_elem_of_In in Hr.
  specialize (Hall _ Hr). unfold has_metadata in Hall. cbn [snd] in Hall.
  destruct (metadata r) as [m|]; [by exists m | discriminate].
Qed.

(** One batched update with the migrated metadata of every row migrates
    every record. *)
Lemma apply_update_migrates (c : gmap str stored) :
  all_metadata c = true ->
  apply_update (update_ids c) (update_metadatas c) c = migrate_record <$> c.
Proof.
  intros Hall. apply map_eq. intros k.
  rewrite (update_metadatas_rows c Hall). unfold update_ids.
  rewrite (apply_update_rows (fun o => migrate_metadata (default [] o))).
  - rewrite lookup_fmap. destruct (c !! k) as [r|] eqn:Hr.
    + destruct (all_metadata_lookup c k r Hall Hr) as [m Hm].
      destruct (decide _) as [Hk | Hk].
      * cbn. unfold migrate_record. by rewrite Hm.
      * exfalso. apply Hk. apply elem_of_map_to_list in Hr.
        apply (list_elem_of_fmap_2 fst) in Hr. exact Hr.
    + by destruct (decide _).
  - apply NoDup_fst_map_to_list.
  - intros i r. apply elem_of_map_to_list.
Qed.

(** What a run of the migration does, by the answers of the store. *)
Lemma migrate_categories_run E (w : world) :
  migrate_categories E w =
  match store_error E Get with
  | Some e => (Raise e, logged [Get] w)
  | None =>
      let c := collection w in
      if all_metadata c then
        if nonempty (map_to_list c) then
          match store_error E (Update (update_ids c) (update_metadatas c)) with
          | Some e =>
              (Raise e, logged [Get; Update (update_ids c) (update_metadatas c)] w)
          | None =>
              (Ok tt, {| collection := migrate_record <$> c;
                         calls := calls w ++ [Get; Update (update_ids c)
                                                          (update_metadatas c)] |})
          end
        else (Ok tt, logged [Get] w)
      else (Raise TypeError, logged [Get] w)
  end.
Proof.
  set (c := collection w).
  assert (Hids : forall rows : list (str * stored),
            map fst (map (fun row => (fst row, metadata (snd row))) rows)
            = map fst rows)
    by (intros rows; rewrite map_map; reflexivity).
  unfold migrate_categories, collection_get, collection_update.
  unfold mbind, M_bind, call, lift, get_collection, set_collection, mret, M_ret, logged.
  cbn beta iota.
  destruct (store_error E Get) as [e|]; [done |].
  cbn beta iota. cbn [collection calls].
  rewrite (Hids (map_to_list c)), (migrate_items_run (map_to_list c)).
  fold (update_ids c) (update_metadatas c) (all_metadata c).
  destruct (all_metadata c) eqn:Hall; [| done].
  assert (Hne : nonempty (update_metadatas c) = nonempty (map_to_list c)).
  { rewrite (update_metadatas_rows c Hall). by destruct (map_to_list c). }
  rewrite Hne. subst c.
  destruct (nonempty (map_to_list (collection w))); [| done].
  destruct (store_error E (Update _ _)) as [e|]; cbn [collection calls].
  - by rewrite <- app_assoc.
  - rewrite (apply_update_migrates _ Hall). by rewrite <- app_assoc.
Qed.

(** A plain label is left as it is. *)
Lemma migrate_metadata_clean (m : dict) (s : str) :
  dict_get (lit "categories") m = Some (VStr s) ->
  clean s = true ->
  migrate_metadata m = m.
Proof.
  intros Hm Hs. unfold clean in Hs.
  apply andb_prop in Hs as [[Hne Hbr]%andb_prop Hco].
  apply negb_true_iff in Hbr, Hco.
  unfold migrate_metadata, migrate_try. rewrite Hm. cbn [default from_option id].
  by rewrite Hbr, Hco, Hne.
Qed.

(** X20: what one iteration of the migration loop makes of the category
    of a record whose metadata is a dictionary, case by case: the category
    of the first object of a JSON array, or [general] for the empty array;
    the first comma-delimited segment; [general] for an empty or missing
    category; a plain label is left unchanged; an error in the [try] block
    gives [general]; no other key is touched; and the three legacy
    categories of the scenario become "tech", "sports" and "general". *)
Theorem migrate_categories_cases :
  let category (m : dict) := dict_get (lit "categories") m in
  (forall m : dict,
      (forall s d rest v,
          category m = Some (VStr s) -> startswith lbracket s = true ->
          Json.loads s = Some (VList (VDict d :: rest)) ->
          dict_get (lit "category") d = Some v ->
          category (migrate_metadata m) = Some v)
      /\ (forall s,
             category m = Some (VStr s) -> startswith lbracket s = true ->
             Json.loads s = Some (VList []) ->
             category (migrate_metadata m) = Some (VStr general))
      /\ (forall s,
             category m = Some (VStr s) -> startswith lbracket s = false ->
             contains comma s = true ->
             category (migrate_metadata m) = Some (VStr (first_segment comma s)))
      /\ (category m = None \/ category m = Some (VStr []) ->
          category (migrate_metadata m) = Some (VStr general))
      /\ (forall s,
             category m = Some (VStr s) -> s ≠ [] ->
             startswith lbracket s = false -> contains comma s = false ->
             migrate_metadata m = m)
      /\ (forall e,
             migrate_try m = Raise e ->
             category (migrate_metadata m) = Some (VStr general))
      /\ (forall k,
             k ≠ lit "categories" ->
             dict_get k (migrate_metadata m) = dict_get k m))
  /\ category (migrate_metadata
                 [(lit "categories", VStr (dq "[{'category':'tech','score':0.9}]"))])
     = Some (VStr (lit "tech"))
  /\ category (migrate_metadata [(lit "categories", VStr (lit "sports,tech"))])
     = Some (VStr (lit "sports"))
  /\ category (migrate_metadata [(lit "categories", VStr (lit ""))])
     = Some (VStr (lit "general")).
Proof.
  intros category. subst category. cbn beta.
  split; [| by vm_compute].
  intros m. unfold migrate_metadata, migrate_try.
  repeat split.
  - intros s d rest v -> Hs Hj Hv. cbn [default from_option id].
    rewrite Hs, Hj. cbn. unfold dict_item. rewrite Hv. apply dict_get_set_eq.
  - intros s -> Hs Hj. cbn [default from_option id]. rewrite Hs, Hj. cbn.
    apply dict_get_set_eq.
  - intros s -> Hs Hc. cbn [default from_option id]. rewrite Hs, Hc, hd_split_on.
    apply dict_get_set_eq.
  - intros [-> | ->]; cbn; apply dict_get_set_eq.
  - intros s -> Hne Hs Hc. cbn [default from_option id]. rewrite Hs, Hc.
    by destruct s.
  - fold (migrate_try m). intros e ->. apply dict_get_set_eq.
  - fold (migrate_try m). fold (migrate_metadata m).
    apply migrate_metadata_other_keys.
Qed.

Lemma migrate_categories_cases_witness :
  dict_get (lit "categories")
    (migrate_metadata
       [(lit "categories", VStr (dq "[{'category':'sports'}, {'category':'tech'}]"))])
  = Some (VStr (lit "sports"))
  /\ dict_get (lit "categories")
       (migrate_metadata [(lit "categories", VStr (lit "politics,world news"))])
     = Some (VStr (lit "politics"))
  /\ migrate_metadata [(lit "categories", VStr (lit "health"))]
     = [(lit "categories", VStr (lit "health"))]
  /\ dict_get (lit "categories")
       (migrate_metadata [(lit "categories", VStr (lit "[broken"))])
     = Some (VStr general).
Proof.
  pose proof migrate_categories_cases as [H _]. cbn zeta in H.
  split; [| split; [| split]].
  - apply (proj1 (H _)
             (dq "[{'category':'sports'}, {'category':'tech'}]")
             [(lit "category", VStr (lit "sports"))]
             [VDict [(lit "category", VStr (lit "tech"))]]
             (VStr (lit "sports")));
      vm_compute; reflexivity.
  - apply (proj1 (proj2 (proj2 (H _))) (lit "politics,world news"));
      vm_compute; reflexivity.
  - apply (proj1 (proj2 (proj2 (proj2 (proj2 (H _))))) (lit "health"));
      [reflexivity | discriminate | reflexivity | reflexivity].
  - apply (proj1 (proj2 (proj2 (proj2 (proj2 (proj2 (H _)))))) ValueError).
    vm_compute; reflexivity.
Defined.

(** C1: on a store that holds a record without metadata the pass aborts.
    The [get] of the [try] block fails on [None], and so does the assignment
    in the handler that was to force [general]: the run raises [TypeError]
    after its one call to the store, makes no update, and the legacy
    category of the other record stays as it was. *)
Theorem migrate_categories_aborts_without_metadata :
  metadata without_metadata = None
  /\ migrate_item (metadata without_metadata) = Raise TypeError
  /\ migrate_categories stub legacy_store
     = (Raise TypeError, logged [Get] legacy_store)
  /\ stored_category (snd (migrate_categories stub legacy_store)) (lit "id1")
     = Some (VStr (lit "sports,tech"))
  /\ dict_get (lit "categories")
       (migrate_metadata [(lit "categories", VStr (lit "sports,tech"))])
     = Some (VStr (lit "sports")).
Proof.
  assert (Hrun : migrate_categories stub legacy_store
                 = (Raise TypeError, logged [Get] legacy_store)).
  { rewrite migrate_categories_run. cbn [store_error stub]. cbn zeta.
    replace (all_metadata (collection legacy_store)) with false;
      [reflexivity |].
    symmetry. vm_compute. reflexivity. }
  split; [reflexivity |]. split; [reflexivity |]. split; [exact Hrun |].
  split; [| vm_compute; reflexivity].
  rewrite Hrun. cbn [snd]. unfold stored_category, logged, legacy_store.
  cbn [collection].
  rewrite lookup_insert_eq. reflexivity.
Qed.

Lemma first_segment_no_sep sep s : contains sep (first_segment sep s) = false.
Proof.
  unfold contains. induction s as [|c s IH]; simpl; [done |].
  destruct (c =? sep)%N eqn:Hc; simpl; [done |].
  rewrite IH, orb_false_r. rewrite N.eqb_sym. exact Hc.
Qed.

Lemma first_segment_clean s :
  startswith lbracket s = false -> startswith comma s = false ->
  contains comma s = true ->
  clean (first_segment comma s) = true.
Proof.
  intros Hbr Hco Hin. unfold clean. rewrite first_segment_no_sep.
  destruct s as [|c s]; [done |].
  cbn [first_segment startswith] in *. rewrite Hco.
  cbn [nonempty startswith]. by rewrite Hbr.
Qed.

Lemma general_clean : clean general = true.
Proof. reflexivity. Qed.

(** On stable metadata the migrated category is a plain label. *)
Lemma migrate_metadata_result_clean (m : dict) :
  stable_input m = true ->
  exists c, dict_get (lit "categories") (migrate_metadata m) = Some (VStr c)
            /\ clean c = true.
Proof.
  unfold stable_input, migrate_metadata, migrate_try. intros Hst.
  assert (Hgen : exists c,
             dict_get (lit "categories")
               (dict_set (lit "categories") (VStr general) m) = Some (VStr c)
             /\ clean c = true)
    by (exists general; split; [apply dict_get_set_eq | apply general_clean]).
  destruct (dict_get (lit "categories") m) as [v|] eqn:Hm;
    cbn [default from_option id]; [| exact Hgen].
  destruct v as [| | | | |s| |]; try exact Hgen.
  destruct (startswith lbracket s) eqn:Hbr.
  - destruct (Json.loads s) as [v|]; [| exact Hgen].
    destruct v as [|b|z|q| |s'|l|d]; cbn -[general]; try exact Hgen.
    + destruct b; exact Hgen.
    + destruct (negb (z =? 0)); exact Hgen.
    + destruct (negb (Qnum q =? 0)); exact Hgen.
    + destruct s'; cbn -[general]; exact Hgen.
    + destruct l as [|first l]; cbn -[general]; [exact Hgen |].
      destruct first as [| | | | | | |d]; cbn -[general]; try exact Hgen.
      unfold dict_item.
      destruct (dict_get (lit "category") d) as [c|]; [| exact Hgen].
      destruct c as [| | | | |c| |]; try discriminate.
      exists c. split; [apply dict_get_set_eq | exact Hst].
    + destruct d; cbn -[general]; exact Hgen.
  - apply negb_true_iff in Hst.
    destruct (contains comma s) eqn:Hco.
    + exists (first_segment comma s). rewrite hd_split_on.
      split; [apply dict_get_set_eq | by apply first_segment_clean].
    + destruct s as [|c s]; cbn -[general]; [exact Hgen |].
      exists (c :: s). split; [exact Hm |].
      unfold clean. by rewrite Hbr, Hco.
Qed.

(** On stable metadata a second migration changes nothing. *)
Lemma migrate_metadata_stable (m : dict) :
  stable_input m = true ->
  migrate_metadata (migrate_metadata m) = migrate_metadata m.
Proof.
  intros [c [Hc Hclean]]%migrate_metadata_result_clean.
  by apply (migrate_metadata_clean _ c).
Qed.

(** A run leaves the collection as it is or migrates every record. *)
Lemma migrate_categories_collection E (w : world) :
  collection (snd (migrate_categories E w)) = collection w
  \/ collection (snd (migrate_categories E w)) = migrate_record <$> collection w.
Proof.
  rewrite migrate_categories_run.
  destruct (store_error E Get); [by left |]. cbn zeta.
  destruct (all_metadata _); [| by left].
  destruct (nonempty _); [| by left].
  destruct (store_error E _); [by left | by right].
Qed.

(** The collection a run leaves depends on the collection it finds and on
    the answers of the store only. *)
Lemma migrate_categories_collection_ext E (w1 w2 : world) :
  collection w1 = collection w2 ->
  collection (snd (migrate_categories E w1))
  = collection (snd (migrate_categories E w2)).
Proof.
  intros Hc. rewrite !migrate_categories_run.
  destruct (store_error E Get); [done |]. cbn zeta. rewrite Hc.
  destruct (all_metadata _); [| done].
  destruct (nonempty _); [| done].
  by destruct (store_error E _).
Qed.

(** C2, as stated, fails: a record whose category is [",tech"] has the
    empty category after one run and [general] after two. *)
Lemma migrate_categories_not_idempotent :
  let w1 := snd (migrate_categories stub (one_record (VStr (lit ",tech")))) in
  let w2 := snd (migrate_categories stub w1) in
  stored_category w1 (lit "id1") = Some (VStr (lit ""))
  /\ stored_category w2 (lit "id1") = Some (VStr (lit "general"))
  /\ collection w2 ≠ collection w1.
Proof.
  intros w1 w2.
  assert (H1 : stored_category w1 (lit "id1") = Some (VStr (lit "")))
    by (vm_compute; reflexivity).
  assert (H2 : stored_category w2 (lit "id1") = Some (VStr (lit "general")))
    by (vm_compute; reflexivity).
  split; [exact H1 | split; [exact H2 |]].
  intros Heq.
  assert (H3 : stored_category w2 (lit "id1") = stored_category w1 (lit "id1"))
    by (unfold stored_category; rewrite Heq; reflexivity).
  rewrite H1, H2 in H3. discriminate H3.
Qed.

(** C2, amended: on a store in which no comma-separated category begins
    with a comma and the first object of every JSON-encoded category names a
    plain label (not empty, no comma, no leading bracket), a second run
    leaves every record as the first run left it. *)
Theorem migrate_categories_idempotent E (w : world) :
  (forall id r m,
      collection w !! id = Some r -> metadata r = Some m ->
      stable_input m = true) ->
  collection (snd (migrate_categories E (snd (migrate_categories E w))))
  = collection (snd (migrate_categories E w)).
Proof.
  intros Hst.
  assert (Hfix : forall c : gmap str stored,
             (forall id r m, c !! id = Some r -> metadata r = Some m ->
                             stable_input m = true) ->
             migrate_record <$> (migrate_record <$> c) = migrate_record <$> c).
  { intros c Hc. apply map_eq. intros k. rewrite !lookup_fmap.
    destruct (c !! k) as [r|] eqn:Hr; [| done]. cbn.
    unfold migrate_record. cbn. f_equal. f_equal.
    destruct (metadata r) as [m|] eqn:Hm; [| done]. cbn. f_equal.
    apply migrate_metadata_stable. by apply (Hc k r). }
  destruct (migrate_categories_collection E w) as [H1 | H1].
  - rewrite (migrate_categories_collection_ext E _ w H1). done.
  - destruct (migrate_categories_collection E (snd (migrate_categories E w)))
      as [H2 | H2]; [done |].
    rewrite H2, H1. by apply Hfix.
Qed.

Lemma migrate_categories_idempotent_witness :
  let w := one_record (VStr (dq "[{'category':'tech','score':0.9}]")) in
  collection (snd (migrate_categories stub (snd (migrate_categories stub w))))
  = collection (snd (migrate_categories stub w)).
Proof.
  intros w. apply (migrate_categories_idempotent stub w).
  intros id r m Hr. subst w. unfold one_record in Hr. cbn [collection] in Hr.
  apply lookup_singleton_Some in Hr as [_ <-].
  intros [= <-]. vm_compute. reflexivity.
Defined.




(** ** Running computations *)

Lemma bind_run {A B} (m : M A) (f : A -> M B) (w : world) :
  (m ≫= f) w = match m w with
               | (Ok a, w') => f a w'
               | (Raise e, w') => (Raise e, w')
               end.
Proof. reflexivity. Qed.

Lemma emits_ret P {A} (a : A) : emits P (mret a : M A).
Proof. intros w. exists []. by rewrite app_nil_r. Qed.

Lemma emits_lift P {A} (r : res A) : emits P (lift r).
Proof. intros w. exists []. by rewrite app_nil_r. Qed.

Lemma emits_call (P : event -> Prop) ev : P ev -> emits P (call ev).
Proof. intros H w. exists [ev]. split; [done | by constructor]. Qed.

Lemma emits_get_collection P : emits P get_collection.
Proof. intros w. exists []. by rewrite app_nil_r. Qed.

Lemma emits_set_collection P c : emits P (set_collection c).
Proof. intros w. exists []. by rewrite app_nil_r. Qed.

Lemma emits_bind P {A B} (m : M A) (f : A -> M B) :
  emits P m -> (forall a, emits P (f a)) -> emits P (m ≫= f).
Proof.
  intros Hm Hf w. rewrite bind_run. destruct (Hm w) as [evs [Hevs HP]].
  destruct (m w) as [[a|e] w1]; cbn [snd] in *.
  - destruct (Hf a w1) as [evs' [Hevs' HP']].
    exists (evs ++ evs'). rewrite Hevs', Hevs, app_assoc.
    split; [done | by apply Forall_app].
  - by exists evs.
Qed.

Lemma emits_try P {A} (m : M A) (h : exn -> M A) :
  emits P m -> (forall e, emits P (h e)) -> emits P (try_except m h).
Proof.
  intros Hm Hh w. unfold try_except. destruct (Hm w) as [evs [Hevs HP]].
  destruct (m w) as [[a|e] w1]; cbn [snd] in *.
  - by exists evs.
  - destruct (Hh e w1) as [evs' [Hevs' HP']].
    exists (evs ++ evs'). rewrite Hevs', Hevs, app_assoc.
    split; [done | by apply Forall_app].
Qed.

Lemma emits_for_each P {A B} (xs : list A) (acc : B) (body : A -> B -> M B) :
  (forall x acc, emits P (body x acc)) -> emits P (for_each xs acc body).
Proof.
  intros Hbody. revert acc. induction xs as [|x xs IH]; intros acc; cbn [for_each].
  - apply emits_ret.
  - apply emits_bind; [apply Hbody | apply IH].
Qed.

(** ** [categorize_article], continued *)

Lemma categorize_article_run E (text : str) (w : world) :
  categorize_article E text w
  = (Ok (category_of E text), after_categorize text w).
Proof.
  unfold categorize_article, category_of, after_categorize.
  fold (short_text text). destruct (short_text text); [done |].
  unfold try_except. rewrite bind_run. cbn [call]. rewrite bind_run.
  unfold lift, logged.
  destruct (categorizer E text categories) as [[labels scores]|e]; [| done].
  cbn [fst snd]. destruct labels as [|top labels]; [done |].
  destruct scores as [|score scores]; done.
Qed.

(** ** [process_articles_batch] *)

Lemma is_text_get k art :
  is_text k art = true -> exists s, dict_get k art = Some (VStr s).
Proof.
  unfold is_text. destruct (dict_get k art) as [[| | | | |s| |]|]; try done.
  by exists s.
Qed.

Lemma headline_ne_categories : lit "headline" ≠ lit "categories".
Proof. discriminate. Qed.

Lemma article_texts_ok (arts : list dict) :
  Forall (fun a => is_text (lit "headline") a = true
                   /\ is_text (lit "description") a = true) arts ->
  article_texts arts = Ok (map text_of arts).
Proof.
  induction 1 as [|a arts [Hh Hd] _ IH]; cbn [article_texts map]; [done |].
  apply is_text_get in Hh as [h Hh]. apply is_text_get in Hd as [d Hd].
  unfold text_of at 1. unfold article_text, text_field. by rewrite Hh, Hd, IH.
Qed.

(** The [try] block of a batch categorises every article left in it and
    ends without an exception. *)
Lemma categorize_batch_run E (todo pre acc : list dict) (w : world) :
  Forall (fun a => is_text (lit "headline") a = true) todo ->
  exists w',
    categorize_batch E (length pre) (map text_of todo) (pre ++ todo) acc w
    = (Ok (pre ++ map (categorized E) todo,
           acc ++ map (categorized E) todo, None), w').
Proof.
  intros Htodo. revert pre acc w.
  induction Htodo as [|a todo Ha _ IH]; intros pre acc w.
  - cbn [map categorize_batch]. rewrite !app_nil_r. by eexists.
  - cbn [map categorize_batch]. rewrite categorize_article_run.
    rewrite list_lookup_middle by done.
    fold (categorized E a).
    apply is_text_get in Ha as [h Hh].
    cbn [getitem_key]. unfold dict_item, categorized at 1.
    rewrite dict_get_set_ne by apply headline_ne_categories.
    rewrite Hh. cbn [getitem_slice_to].
    rewrite insert_app_r_alt by done. rewrite Nat.sub_diag. cbn [insert list_insert].
    specialize (IH (pre ++ [categorized E a]) (acc ++ [categorized E a])
                  (after_categorize (text_of a) w)) as [w' IH].
    rewrite length_app in IH. cbn [length] in IH.
    rewrite Nat.add_1_r in IH. rewrite <- !app_assoc in IH. cbn [app] in IH.
    exists w'. exact IH.
Qed.

Lemma range_step_covers (n : nat) : (n <= 4 * Nat.div (n + 4 - 1) 4)%nat.
Proof.
  pose proof (Nat.div_mod_eq (n + 4 - 1) 4).
  pose proof (Nat.mod_upper_bound (n + 4 - 1) 4). lia.
Qed.

(** Every article with a headline and a description is categorised, in
    order, whatever the classifier answers. *)
Lemma process_articles_batch_run E (arts : list dict) (w : world) :
  Forall (fun a => is_text (lit "headline") a = true
                   /\ is_text (lit "description") a = true) arts ->
  exists w',
    process_articles_batch E arts w = (Ok (map (categorized E) arts), w').
Proof.
  intros Harts. unfold process_articles_batch.
  destruct arts as [|a0 arts0]; [by eexists |].
  cbn [nonempty negb]. set (arts := a0 :: arts0) in *. clearbody arts.
  rewrite bind_run, (article_texts_ok _ Harts). unfold lift at 1.
  unfold range_step.
  assert (Hloop : forall m k acc w,
    exists w',
      for_each (map (fun k => (k * 4)%nat) (seq k m)) acc
        (fun i categorized_articles =>
           '(batch_articles', categorized_articles', failure) ←
             categorize_batch E 0 (slice i (i + 4) (map text_of arts))
               (slice i (i + 4) arts) categorized_articles;
           match failure with
           | Some _ => mret (categorized_articles' ++ batch_articles')
           | None => mret categorized_articles'
           end) w
      = (Ok (acc ++ map (categorized E) (take (4 * m) (drop (k * 4) arts))), w')).
  { induction m as [|m IH]; intros k acc w1.
    - cbn [seq map for_each]. rewrite Nat.mul_0_r. cbn [take map].
      rewrite app_nil_r. by eexists.
    - cbn [seq map for_each]. rewrite bind_run. rewrite bind_run.
      assert (Hs : forall (A : Type) (l : list A),
                 slice (k * 4) (k * 4 + 4) l = take 4 (drop (k * 4) l))
        by (intros A l; unfold slice; f_equal; lia).
      rewrite !Hs, skipn_map, firstn_map.
      destruct (categorize_batch_run E (take 4 (drop (k * 4) arts)) [] acc w1)
        as [w2 Hrun].
      { apply Forall_take, Forall_drop.
        eapply Forall_impl; [exact Harts | by intros a [? ?]]. }
      cbn [length app] in Hrun. rewrite Hrun.
      destruct (IH (S k) (acc ++ map (categorized E) (take 4 (drop (k * 4) arts))) w2)
        as [w3 Hrest].
      unfold mret at 1, M_ret at 1.
      rewrite Hrest. exists w3. f_equal. f_equal.
      rewrite <- app_assoc. f_equal. rewrite <- map_app. f_equal.
      replace (S k * 4)%nat with (k * 4 + 4)%nat by lia.
      rewrite <- drop_drop, take_take_drop. f_equal. lia. }
  destruct (Hloop (Nat.div (length arts + 4 - 1) 4) 0%nat [] w) as [w' Hw'].
  rewrite Hw'. exists w'. cbn [app Nat.mul drop]. f_equal. f_equal. f_equal.
  apply take_ge, range_step_covers.
Qed.

(** C7: [categorize_article] returns on every text and in every world;
    when the classifier raises, what it returns is [general] with
    confidence 1.0; and a batch of articles is categorised to the end, in
    order, whatever the classifier does, an article on which it raises
    being given [general]. *)
Theorem categorize_article_fail_soft E :
  (forall text w, exists r w', categorize_article E text w = (Ok r, w'))
  /\ (forall text w e,
         categorizer E text categories = Raise e ->
         categorize_article E text w
         = (Ok general_result, after_categorize text w))
  /\ (forall arts w,
         Forall (fun a => is_text (lit "headline") a = true
                          /\ is_text (lit "description") a = true) arts ->
         exists w',
           process_articles_batch E arts w = (Ok (map (categorized E) arts), w')
           /\ forall a e,
                a ∈ arts ->
                categorizer E (text_of a) categories = Raise e ->
                dict_get (lit "categories") (categorized E a)
                = Some general_result).
Proof.
  assert (Hraise : forall text e,
             categorizer E text categories = Raise e ->
             category_of E text = general_result).
  { intros text e He. unfold category_of. rewrite He.
    by destruct (short_text text). }
  split; [| split].
  - intros text w. rewrite categorize_article_run. by eauto.
  - intros text w e He. by rewrite categorize_article_run, (Hraise text e He).
  - intros arts w Harts.
    destruct (process_articles_batch_run E arts w Harts) as [w' Hw'].
    exists w'. split; [exact Hw' |].
    intros a e _ He. unfold categorized.
    by rewrite dict_get_set_eq, (Hraise _ e He).
Qed.

Lemma categorize_article_fail_soft_witness :
  categorize_article failing (lit "Cup final goes to penalties") w0
  = (Ok general_result,
     logged [Classify (lit "Cup final goes to penalties") categories] w0).
Proof.
  apply (proj1 (proj2 (categorize_article_fail_soft failing))
           (lit "Cup final goes to penalties") w0 ExternalError).
  reflexivity.
Defined.

(** ** Calls made by the methods *)

Ltac emits_step :=
  first
    [ apply emits_ret
    | apply emits_lift
    | apply emits_get_collection
    | apply emits_set_collection
    | apply emits_call; done
    | apply emits_bind; [| intros ?]
    | apply emits_try; [| intros ?]
    | apply emits_for_each; intros ? ?
    | match goal with
      | |- emits _ (match ?x with _ => _ end) => destruct x
      end ].

Lemma emits_categorize_article (P : event -> Prop) E text :
  (forall t l, P (Classify t l)) -> emits P (categorize_article E text).
Proof. intros HP. unfold categorize_article. repeat emits_step. Qed.

Lemma emits_generate_embedding (P : event -> Prop) E text :
  (forall t, P (Encode t)) -> emits P (generate_embedding E text).
Proof. intros HP. unfold generate_embedding. repeat emits_step. Qed.

Lemma emits_categorize_batch (P : event -> Prop) E j texts batch acc :
  (forall t l, P (Classify t l)) -> emits P (categorize_batch E j texts batch acc).
Proof.
  intros HP. revert j batch acc.
  induction texts as [|text texts IH]; intros j batch acc; cbn [categorize_batch].
  - apply emits_ret.
  - intros w. rewrite categorize_article_run.
    assert (Hc : exists evs,
               calls (after_categorize text w) = calls w ++ evs /\ Forall P evs).
    { unfold after_categorize. destruct (short_text text).
      - exists []. by rewrite app_nil_r.
      - exists [Classify text categories]. split; [done | by constructor]. }
    destruct Hc as [evs [Hevs HPevs]].
    repeat (match goal with
            | |- context [match ?x with _ => _ end] =>
                lazymatch x with
                | context [categorize_batch] => fail
                | _ => destruct x
                end
            end; cbn [snd]; try by exists evs).
    destruct (IH (S j) (<[j:=dict_set (lit "categories")
                               (category_of E text) d]> batch)
                (acc ++ [dict_set (lit "categories") (category_of E text) d])
                (after_categorize text w)) as [evs' [Hevs' HPevs']].
    exists (evs ++ evs'). rewrite Hevs', Hevs, app_assoc.
    split; [done | by apply Forall_app].
Qed.

Lemma emits_process_articles_batch (P : event -> Prop) E arts :
  (forall t l, P (Classify t l)) -> emits P (process_articles_batch E arts).
Proof.
  intros HP. unfold process_articles_batch.
  destruct (negb (nonempty arts)); [apply emits_ret |].
  apply emits_bind; [apply emits_lift | intros texts].
  apply emits_for_each. intros i acc.
  apply emits_bind; [by apply emits_categorize_batch | intros [[b c] [e|]]];
    apply emits_ret.
Qed.

Lemma emits_scrape_website (P : event -> Prop) E url selectors limit :
  (forall u, P (Goto u)) -> emits P (scrape_website E url selectors limit).
Proof. intros HP. unfold scrape_website. repeat emits_step. Qed.

Lemma emits_migrate_categories (P : event -> Prop) E :
  P Get -> (forall ids ms, P (Update ids ms)) -> emits P (migrate_categories E).
Proof.
  intros HG HU. unfold migrate_categories, collection_get, collection_update.
  repeat emits_step.
Qed.

Lemma emits_search_articles (P : event -> Prop) E query limit filter :
  (forall t, P (Encode t)) -> (forall v n f, P (Query v n f)) ->
  emits P (search_articles E query limit filter).
Proof.
  intros HE HQ. unfold search_articles.
  apply emits_bind; [by apply emits_generate_embedding | intros v].
  repeat emits_step.
Qed.

Lemma emits_store_article (P : event -> Prop) E art cols :
  (forall t, P (Encode t)) -> emits P (store_article E art cols).
Proof.
  intros HP. unfold store_article. destruct cols as [[[ids embs] docs] metas].
  apply emits_bind; [apply emits_lift | intros doc].
  apply emits_bind; [by apply emits_generate_embedding | intros v].
  repeat emits_step.
Qed.

Lemma emits_store_in_chromadb (P : event -> Prop) E arts :
  (forall t, P (Encode t)) -> (forall i e d m, P (Upsert i e d m)) ->
  emits P (store_in_chromadb E arts).
Proof.
  intros HE HU. unfold store_in_chromadb, collection_upsert.
  destruct (negb (nonempty arts)); [apply emits_ret |].
  apply emits_bind.
  - apply emits_for_each. intros a cols. by apply emits_store_article.
  - intros [[[ids embs] docs] metas]. repeat emits_step.
Qed.

Lemma emits_scrape_all_websites E sites limit :
  emits not_dump (scrape_all_websites E sites limit).
Proof.
  unfold scrape_all_websites. apply emits_for_each. intros entry acc.
  apply emits_try; [| intros e; apply emits_ret].
  apply emits_bind; [| intros arts; apply emits_ret].
  unfold scrape_site.
  apply emits_bind; [by apply emits_scrape_website | intros arts].
  destruct (nonempty arts); [| apply emits_ret].
  apply emits_bind; [by apply emits_process_articles_batch | intros arts'].
  apply emits_bind; [by apply emits_store_in_chromadb | intros []].
  apply emits_ret.
Qed.

(** ** [store_in_chromadb] *)

Lemma store_article_run E art ids embs docs metas w ids' embs' docs' metas' w' :
  store_article E art (ids, embs, docs, metas) w
  = (Ok (ids', embs', docs', metas'), w') ->
  exists doc m,
    docs' = docs ++ [doc] /\ metas' = metas ++ [m]
    /\ article_text art = Ok doc /\ metadata_of art = Ok m.
Proof.
  unfold store_article, metadata_of. intros H.
  rewrite bind_run in H. unfold lift in H.
  destruct (article_text art) as [doc|]; [| discriminate H].
  rewrite bind_run in H.
  destruct (generate_embedding E doc w) as [[v|] w1]; [| discriminate H].
  rewrite bind_run in H. unfold lift in H.
  destruct (text_field (lit "url") art) as [url|]; [| discriminate H].
  rewrite bind_run in H. unfold lift in H.
  destruct (text_field (lit "headline") art) as [headline|]; [| discriminate H].
  rewrite bind_run in H. unfold lift in H.
  destruct (generate_article_id url headline) as [id|]; [| discriminate H].
  rewrite bind_run in H. unfold lift in H.
  destruct (article_metadata art doc) as [m|]; [| discriminate H].
  injection H as <- <- <- <- <-. by exists doc, m.
Qed.

(** The loop of [store_in_chromadb] adds one document and one metadata
    dictionary per article, in order. *)
Lemma store_loop_run E (arts : list dict) ids embs docs metas w
    ids' embs' docs' metas' w' :
  for_each arts (ids, embs, docs, metas) (store_article E) w
  = (Ok (ids', embs', docs', metas'), w') ->
  exists dn mn,
    docs' = docs ++ dn /\ metas' = metas ++ mn
    /\ Forall2 (fun a d => article_text a = Ok d) arts dn
    /\ Forall2 (fun a m => metadata_of a = Ok m) arts mn.
Proof.
  revert ids embs docs metas w.
  induction arts as [|a arts IH]; intros ids embs docs metas w H;
    cbn [for_each] in H.
  - injection H as <- <- <- <- <-. exists [], [].
    rewrite !app_nil_r. repeat split; constructor.
  - rewrite bind_run in H.
    destruct (store_article E a (ids, embs, docs, metas) w)
      as [[[[[ids1 embs1] docs1] metas1]|] w1] eqn:Ha; [| discriminate H].
    apply store_article_run in Ha as [doc [m [-> [-> [Hdoc Hm]]]]].
    apply IH in H as [dn [mn [-> [-> [Hdn Hmn]]]]].
    exists (doc :: dn), (m :: mn). rewrite <- !app_assoc.
    repeat split; by constructor.
Qed.

(** The metadata built for a storable article satisfies the invariant. *)
Lemma metadata_of_invariant (art : dict) (doc : str) (m : dict) :
  storable art = true ->
  article_text art = Ok doc ->
  metadata_of art = Ok m ->
  metadata_invariant art doc m.
Proof.
  unfold storable, metadata_of, metadata_invariant. intros Hst Hdoc Hm.
  apply andb_prop in Hst as [[[Hh Hd]%andb_prop Himg]%andb_prop Hcat].
  apply is_text_get in Hh as [headline Hh].
  apply is_text_get in Hd as [description Hd].
  rewrite Hdoc in Hm. unfold article_text, text_field in Hdoc.
  rewrite Hh, Hd in Hdoc. injection Hdoc as <-.
  assert (Himage : exists image,
             default (VStr []) (dict_get (lit "image") art) = VStr image).
  { unfold image_ok in Himg.
    destruct (dict_get (lit "image") art) as [[| | | | |image| |]|];
      try discriminate Himg; by eexists. }
  destruct Himage as [image Himage].
  assert (Hcategory : article_category art = Ok (VStr (assigned_category art))).
  { unfold article_category, assigned_category. unfold category_ok in Hcat.
    destruct (dict_get (lit "categories") art) as [[| | | | | | |d]|];
      try discriminate Hcat; cbn [default from_option id]; [| done].
    destruct (dict_get (lit "category") d) as [[| | | | |c| |]|];
      try discriminate Hcat; done. }
  unfold article_metadata, dict_item in Hm.
  rewrite Hh, Hd, Himage, Hcategory in Hm. cbn [getitem_slice_to] in Hm.
  destruct (dict_get (lit "url") art) as [url|]; [| discriminate Hm].
  destruct (dict_get (lit "source") art) as [source|]; [| discriminate Hm].
  destruct (dict_get (lit "scraped_at") art) as [scraped_at|];
    [| discriminate Hm].
  injection Hm as <-. exists headline, description, image.
  repeat split; try reflexivity; try done;
    unfold slice_to; cbn [Z.leb Z.compare]; apply firstn_le_length.
Qed.

(** The articles that the pipeline hands to [store_in_chromadb], scraped
    items once categorised, are storable. *)
Lemma categorized_storable E (a : dict) :
  raw_item a = true -> storable (categorized E a) = true.
Proof.
  unfold raw_item, scraped_item. cbn [item_keys map forallb]. intros H.
  repeat (apply andb_prop in H as [H ?]).
  repeat match goal with
         | H : _ && _ = true |- _ => apply andb_prop in H as [? H]
         end.
  unfold storable, image_ok, category_ok, is_text in *. unfold categorized.
  rewrite !(dict_get_set_ne _ (lit "categories")) by discriminate.
  rewrite dict_get_set_eq.
  destruct (dict_get (lit "headline") a) as [[| | | | |h| |]|]; try discriminate.
  destruct (dict_get (lit "description") a) as [[| | | | |d| |]|];
    try discriminate.
  destruct (dict_get (lit "image") a) as [[| | | | |img| |]|]; try discriminate.
  unfold category_of. destruct (short_text _); [reflexivity |].
  by destruct (categorizer E _ categories) as [[[|c ls] [|x ss]]|e].
Qed.

(** C10: every metadata dictionary that [store_in_chromadb] hands to the
    store for a list of storable articles goes with the document text of
    its article (headline, a space, the description) and satisfies the
    invariant: the category is the string assigned to the article, or
    [general] when none is; the description is cut to 500 characters and the
    image to 200; [text_length] is the length of the document text. *)
Theorem store_in_chromadb_metadata E (arts : list dict) (w : world) :
  Forall (fun a => storable a = true) arts ->
  exists evs,
    calls (snd (store_in_chromadb E arts w)) = calls w ++ evs
    /\ forall ids embs docs metas,
         Upsert ids embs docs metas ∈ evs ->
         length docs = length arts /\ length metas = length arts
         /\ forall i a,
              arts !! i = Some a ->
              exists doc m,
                docs !! i = Some doc /\ metas !! i = Some m
                /\ metadata_invariant a doc m.
Proof.
  intros Hst. unfold store_in_chromadb.
  destruct (negb (nonempty arts)).
  { exists []. rewrite app_nil_r. split; [done |].
    intros ids embs docs metas Hin. by apply elem_of_nil in Hin. }
  rewrite bind_run.
  destruct (emits_for_each not_upsert arts ([], [], [], []) (store_article E)
              (fun a cols => emits_store_article not_upsert E a cols
                               (fun _ => I)) w)
    as [evs [Hevs Hnot]].
  destruct (for_each arts ([], [], [], []) (store_article E) w)
    as [[[[[ids embs] docs] metas]|e] w1] eqn:Hloop; cbn [snd] in *.
  - exists (evs ++ [Upsert ids embs docs metas]).
    split.
    + unfold collection_upsert. rewrite bind_run. cbn [call].
      destruct (store_error E _); cbn [lift snd calls].
      * by rewrite Hevs, app_assoc.
      * rewrite bind_run. cbn [get_collection set_collection snd calls].
        by rewrite Hevs, app_assoc.
    + intros ids' embs' docs' metas' [Hin | Hin]%elem_of_app.
      { rewrite Forall_forall in Hnot. by apply Hnot in Hin. }
      apply list_elem_of_singleton in Hin. injection Hin as -> -> -> ->.
      apply store_loop_run in Hloop as [dn [mn [-> [-> [Hdn Hmn]]]]].
      cbn [app]. split; [symmetry; by eapply Forall2_length |].
      split; [symmetry; by eapply Forall2_length |].
      intros i a Ha.
      destruct (Forall2_lookup_l _ _ _ _ _ Hdn Ha) as [doc [Hdoc Hdoc']].
      destruct (Forall2_lookup_l _ _ _ _ _ Hmn Ha) as [m [Hm Hm']].
      exists doc, m. repeat split; [done | done |].
      apply metadata_of_invariant; [| done | done].
      by eapply Forall_lookup_1 in Hst.
  - exists evs. split; [done |].
    intros ids embs docs metas Hin.
    rewrite Forall_forall in Hnot. by apply Hnot in Hin.
Qed.

Lemma store_in_chromadb_metadata_witness :
  exists evs,
    calls (snd (store_in_chromadb stub [sample_article] w0)) = calls w0 ++ evs
    /\ forall ids embs docs metas,
         Upsert ids embs docs metas ∈ evs ->
         length docs = length [sample_article]
         /\ length metas = length [sample_article]
         /\ forall i a,
              [sample_article] !! i = Some a ->
              exists doc m,
                docs !! i = Some doc /\ metas !! i = Some m
                /\ metadata_invariant a doc m.
Proof.
  apply (store_in_chromadb_metadata stub [sample_article] w0).
  repeat constructor.
Defined.

(** ** [scrape_website] and [scrape_all_websites] *)

Lemma scrape_website_run E url selectors limit (w : world) :
  scrape_website E url selectors limit w
  = (Ok (scraped E url selectors limit), logged [Goto url] w).
Proof.
  unfold scrape_website, scraped, try_except. rewrite bind_run. cbn [call].
  rewrite bind_run. unfold lift.
  by destruct (page E url selectors).
Qed.

Lemma scrape_container_raw E url c :
  Forall (fun a => raw_item a = true) (scrape_container E url c).
Proof.
  unfold scrape_container.
  match goal with |- context [if ?b then _ else _] => destruct b end;
    [| constructor].
  constructor; [reflexivity | constructor].
Qed.

Lemma scrape_items_raw E url cs :
  Forall (fun a => raw_item a = true) (scrape_items E url cs).
Proof.
  unfold scrape_items. induction cs as [|[c|e] cs IH]; cbn [flat_map].
  - constructor.
  - apply Forall_app. split; [apply scrape_container_raw | exact IH].
  - exact IH.
Qed.

Lemma scraped_raw E url selectors limit :
  Forall (fun a => raw_item a = true) (scraped E url selectors limit).
Proof.
  unfold scraped. destruct (page E url selectors); [| constructor].
  apply scrape_items_raw.
Qed.

Lemma raw_item_texts (a : dict) :
  raw_item a = true ->
  is_text (lit "headline") a = true /\ is_text (lit "description") a = true.
Proof.
  unfold raw_item, scraped_item. cbn [map forallb].
  intros H. repeat (apply andb_prop in H as [H ?]).
  repeat match goal with H : _ && _ = true |- _ => apply andb_prop in H as [? H] end.
  done.
Qed.

(** The [try] block of a source returns the categorised items of the
    source, when it returns. *)
Lemma scrape_site_result E config limit (w w' : world) arts :
  scrape_site E config limit w = (Ok arts, w') ->
  arts = map (categorized E) (site_items E config limit).
Proof.
  unfold scrape_site, site_items. rewrite bind_run, scrape_website_run.
  set (items := scraped E _ _ _).
  destruct (nonempty items) eqn:Hne.
  - rewrite bind_run.
    destruct (process_articles_batch_run E items (logged [Goto (site_url config)] w))
      as [w1 Hw1].
    { eapply Forall_impl; [apply scraped_raw | apply raw_item_texts]. }
    rewrite Hw1, bind_run.
    destruct (store_in_chromadb E _ w1) as [[[]|e] w2]; [| discriminate].
    by intros [= <- <-].
  - intros [= <- <-]. by destruct items.
Qed.

(** It returns them when the store takes them. *)
Lemma scrape_site_stored E config limit (w : world) :
  (forall w1, fst (store_in_chromadb E
                     (map (categorized E) (site_items E config limit)) w1)
              = Ok tt) ->
  fst (scrape_site E config limit w)
  = Ok (map (categorized E) (site_items E config limit)).
Proof.
  intros Hstore.
  unfold scrape_site, site_items in *. rewrite bind_run, scrape_website_run.
  set (items := scraped E _ _ _) in *.
  destruct (nonempty items) eqn:Hne.
  - rewrite bind_run.
    destruct (process_articles_batch_run E items (logged [Goto (site_url config)] w))
      as [w1 Hw1].
    { eapply Forall_impl; [apply scraped_raw | apply raw_item_texts]. }
    rewrite Hw1, bind_run. specialize (Hstore w1).
    destruct (store_in_chromadb E _ w1) as [[[]|e] w2]; [done | discriminate].
  - by destruct items.
Qed.

(** The loop over the sources adds the contribution of each of them. *)
Lemma scrape_all_websites_run E sites limit (w : world) :
  scrape_all_websites E sites limit w
  = (Ok (fst (run_contributions E sites limit w)),
     snd (run_contributions E sites limit w)).
Proof.
  unfold scrape_all_websites.
  assert (H : forall acc w,
    for_each sites acc
      (fun entry all_articles =>
         try_except
           (processed_articles ← scrape_site E (snd entry) limit;
            mret (all_articles ++ processed_articles))
           (fun _ => mret all_articles)) w
    = (Ok (acc ++ fst (run_contributions E sites limit w)),
       snd (run_contributions E sites limit w))).
  { induction sites as [|entry sites IH]; intros acc w1;
      cbn [for_each run_contributions].
    - by rewrite app_nil_r.
    - rewrite bind_run. unfold try_except at 1. rewrite bind_run.
      unfold site_contribution.
      destruct (scrape_site E (snd entry) limit w1) as [[arts|e] w2];
        cbn [mret M_ret]; rewrite IH;
        destruct (run_contributions E sites limit w2) as [arts' w3]; cbn [fst snd].
      + by rewrite app_assoc.
      + done. }
  by rewrite H.
Qed.

(** C8: a run never raises and returns, in the order of the sources, what
    each source contributes: nothing when its page fails to load (the
    failure is caught and the source skipped), and otherwise nothing or all
    its categorised items, which it does contribute when the store takes
    them.  With two sources, the first failing to load and the second
    giving three items that are stored, the run returns exactly these three
    articles, categorised. *)
Theorem scrape_all_websites_isolation E sites limit (w : world) :
  scrape_all_websites E sites limit w
  = (Ok (fst (run_contributions E sites limit w)),
     snd (run_contributions E sites limit w))
  /\ (forall config w1 e,
         page E (site_url config) (site_selectors config) = Raise e ->
         scrape_website E (site_url config) (site_selectors config)
           (Some (Z.min (site_limit config) limit)) w1
         = (Ok [], logged [Goto (site_url config)] w1)
         /\ site_contribution E config limit w1
            = ([], logged [Goto (site_url config)] w1))
  /\ (forall config w1,
         fst (site_contribution E config limit w1) = []
         \/ fst (site_contribution E config limit w1)
            = map (categorized E) (site_items E config limit))
  /\ (forall config w1,
         (forall w2, fst (store_in_chromadb E
                            (map (categorized E) (site_items E config limit)) w2)
                     = Ok tt) ->
         fst (site_contribution E config limit w1)
         = map (categorized E) (site_items E config limit))
  /\ (forall a b e i1 i2 i3,
         sites = [a; b] ->
         page E (site_url (snd a)) (site_selectors (snd a)) = Raise e ->
         site_items E (snd b) limit = [i1; i2; i3] ->
         (forall w2, fst (store_in_chromadb E
                            (map (categorized E) [i1; i2; i3]) w2) = Ok tt) ->
         fst (scrape_all_websites E sites limit w)
         = Ok [categorized E i1; categorized E i2; categorized E i3]).
Proof.
  assert (Hfail : forall config w1 e,
             page E (site_url config) (site_selectors config) = Raise e ->
             scrape_website E (site_url config) (site_selectors config)
               (Some (Z.min (site_limit config) limit)) w1
             = (Ok [], logged [Goto (site_url config)] w1)
             /\ site_contribution E config limit w1
                = ([], logged [Goto (site_url config)] w1)).
  { intros config w1 e He.
    assert (Hs : scrape_website E (site_url config) (site_selectors config)
                   (Some (Z.min (site_limit config) limit)) w1
                 = (Ok [], logged [Goto (site_url config)] w1))
      by (rewrite scrape_website_run; unfold scraped; by rewrite He).
    split; [exact Hs |].
    unfold site_contribution, scrape_site. by rewrite bind_run, Hs. }
  assert (Hstored : forall config w1,
             (forall w2, fst (store_in_chromadb E
                                (map (categorized E) (site_items E config limit)) w2)
                         = Ok tt) ->
             fst (site_contribution E config limit w1)
             = map (categorized E) (site_items E config limit)).
  { intros config w1 Hstore. unfold site_contribution.
    pose proof (scrape_site_stored E config limit w1 Hstore) as H.
    destruct (scrape_site E config limit w1) as [[arts|e] w2]; cbn [fst] in *.
    - by injection H.
    - discriminate H. }
  split; [apply scrape_all_websites_run |].
  split; [exact Hfail |]. split; [| split; [exact Hstored |]].
  - intros config w1. unfold site_contribution.
    destruct (scrape_site E config limit w1) as [[arts|e] w2] eqn:Hs; cbn [fst].
    + right. by eapply scrape_site_result.
    + by left.
  - intros a b e i1 i2 i3 -> Ha Hb Hstore.
    rewrite scrape_all_websites_run. cbn [run_contributions fst].
    destruct (Hfail (snd a) w e Ha) as [_ Hca]. rewrite Hca.
    rewrite <- Hb in Hstore.
    pose proof (Hstored (snd b) (logged [Goto (site_url (snd a))] w) Hstore) as Hcb.
    destruct (site_contribution E (snd b) limit _) as [arts w2].
    cbn [fst] in *. subst arts. rewrite Hb. by rewrite app_nil_r.
Qed.

Lemma scrape_all_websites_isolation_witness :
  fst (scrape_all_websites stub two_sources 12 w0)
  = Ok [categorized stub (nth 0 b_items []);
        categorized stub (nth 1 b_items []);
        categorized stub (nth 2 b_items [])]
  /\ length b_items = 3%nat.
Proof.
  split; [| reflexivity].
  apply (proj2 (proj2 (proj2 (proj2
           (scrape_all_websites_isolation stub two_sources 12 w0))))
           source_a source_b ExternalError).
  - reflexivity.
  - reflexivity.
  - vm_compute. reflexivity.
  - intros w2. vm_compute. reflexivity.
Defined.

(** ** The persisted array *)

Lemma round_half_even_unit (q : Q) :
  (0 <= q)%Q -> (q <= 100)%Q -> 0 <= round_half_even q <= 100.
Proof.
  intros H0 H100. unfold round_half_even.
  pose proof (Qfloor_resp_le _ _ H0) as Hlo.
  pose proof (Qfloor_resp_le _ _ H100) as Hhi.
  change (Qfloor 0) with 0 in Hlo. change (Qfloor 100) with 100 in Hhi.
  destruct (Z.eq_dec (Qfloor q) 100) as [Heq | Hne].
  - rewrite Heq.
    assert (Hlt : Qcompare (q - inject_Z 100) (1 # 2) = Lt).
    { apply Qlt_alt. apply Qle_lt_trans with (y := 0%Q); [| reflexivity].
      unfold Qminus. apply (Qplus_le_l _ _ (inject_Z 100)).
      ring_simplify. exact H100. }
    rewrite Hlt. lia.
  - destruct (Qcompare _ _); [destruct (Z.even _) | |]; lia.
Qed.

Lemma round2_unit (x : Q) :
  (0 <= x)%Q -> (x <= 1)%Q -> (0 <= round2 x /\ round2 x <= 1)%Q.
Proof.
  intros H0 H1.
  assert (Hlo : (0 <= x * 100)%Q) by (apply Qmult_le_0_compat; [done | discriminate]).
  assert (Hhi : (x * 100 <= 100)%Q).
  { change (100 : Q) with (1 * 100)%Q at 2. apply Qmult_le_r; [reflexivity | done]. }
  pose proof (round_half_even_unit _ Hlo Hhi) as [Ha Hb].
  unfold round2, Qle. cbn [Qnum Qden]. lia.
Qed.

Lemma category_of_shape E (text : str) :
  exists c q,
    category_of E text
    = VDict [(lit "category", VStr c); (lit "confidence", VFloat q)]
    /\ confidence_of E text c q.
Proof.
  unfold confidence_of, top_answer, category_of.
  assert (Hgen : exists c q,
             general_result
             = VDict [(lit "category", VStr c); (lit "confidence", VFloat q)]
             /\ (c = general /\ q = 1%Q)
             /\ (unit_scores E -> (0 <= q /\ q <= 1)%Q)).
  { exists general, 1%Q. split; [reflexivity |]. split; [done |].
    intros _. split; discriminate. }
  destruct (short_text text); [exact Hgen |].
  destruct (categorizer E text categories) as [[[|c ls] [|x ss]]|e] eqn:Hc;
    try exact Hgen.
  exists c, (round2 x). split; [reflexivity |]. split; [done |].
  intros Hunit. specialize (Hunit _ _ _ _ Hc).
  apply Forall_cons in Hunit as [[H0 H1] _]. by apply round2_unit.
Qed.

(** Categorising an article does not change its text. *)
Lemma text_of_categorized E (a : dict) : text_of (categorized E a) = text_of a.
Proof.
  unfold text_of, article_text, text_field, categorized.
  by rewrite !dict_get_set_ne by discriminate.
Qed.

Lemma dict_set_fresh_keys k v (d : dict) :
  dict_get k d = None -> map fst (dict_set k v d) = map fst d ++ [k].
Proof.
  induction d as [|[k' v'] d IH]; cbn [dict_get dict_set map app fst]; [done |].
  destruct (str_eqb k k'); [discriminate |].
  intros H. cbn [map fst]. by rewrite IH.
Qed.

Lemma categorized_persisted E (a : dict) :
  raw_item a = true -> persisted_shape (confidence_of E) (categorized E a).
Proof.
  unfold raw_item, has_key. intros H.
  apply andb_prop in H as [[[[Hkeys Hitem]%andb_prop Hcats]%andb_prop
                              Hcat]%andb_prop Hconf].
  apply bool_decide_eq_true in Hkeys.
  unfold persisted_shape. rewrite text_of_categorized. unfold categorized.
  destruct (category_of_shape E (text_of a)) as [c [q [-> Hq]]].
  repeat split.
  - rewrite dict_set_fresh_keys; [by rewrite Hkeys |].
    by destruct (dict_get (lit "categories") a).
  - unfold scraped_item, is_text in *. cbn [map forallb] in *.
    by rewrite !dict_get_set_ne by discriminate.
  - exists c, q. by rewrite dict_get_set_eq.
  - rewrite dict_get_set_ne by discriminate.
    by destruct (dict_get (lit "category") a).
  - rewrite dict_get_set_ne by discriminate.
    by destruct (dict_get (lit "confidence") a).
Qed.

Lemma run_contributions_persisted E sites limit (w : world) :
  Forall (persisted_shape (confidence_of E))
         (fst (run_contributions E sites limit w)).
Proof.
  revert w. induction sites as [|entry sites IH]; intros w;
    cbn [run_contributions].
  - constructor.
  - unfold site_contribution.
    destruct (scrape_site E (snd entry) limit w) as [[arts|e] w1] eqn:Hs.
    + specialize (IH w1).
      destruct (run_contributions E sites limit w1) as [arts' w2].
      cbn [fst] in *. apply Forall_app. split; [| exact IH].
      apply scrape_site_result in Hs as ->.
      apply Forall_fmap. eapply Forall_impl; [apply scraped_raw |].
      intros a Ha. by apply categorized_persisted.
    + specialize (IH w1).
      destruct (run_contributions E sites limit w1) as [arts' w2]. exact IH.
Qed.

(** C4, as stated, fails: the first element of the array that a run over
    the two sources persists has neither a [category] nor a [confidence]
    field; both sit in the object under its [categories] key. *)
Lemma persisted_element_not_article_record :
  let arts := map (categorized stub) b_items in
  last (calls (snd (main stub two_sources w0)))
  = Some (Dump (lit "efficient_articles.json") (VList (map VDict arts)))
  /\ dict_get (lit "category") (nth 0 arts []) = None
  /\ dict_get (lit "confidence") (nth 0 arts []) = None
  /\ dict_get (lit "categories") (nth 0 arts [])
     = Some (VDict [(lit "category", VStr (lit "sports"));
                    (lit "confidence", VFloat (90 # 100))])
  /\ ~ article_record_shape (nth 0 arts []).
Proof.
  intros arts. repeat split; try (vm_compute; reflexivity).
  intros [_ [[c Hc] _]]. vm_compute in Hc. discriminate Hc.
Qed.

(** C4, amended: every element of the array that [main] dumps to
    [efficient_articles.json] has the six string fields [headline],
    [description], [url], [image], [source] and [scraped_at] and, under the
    key [categories], an object with the category as a string and the
    confidence as a float: the first label of the classifier on the text of
    the element with its first score rounded to two decimals, or [general]
    with 1.0 when the text has fewer than three tokens or the classifier
    gives no such answer; the confidence lies between 0 and 1 when the
    scores of the classifier do; the element has no [category] or
    [confidence] field of its own. *)
Theorem main_persists_nested_categories E sites (w : world) :
  exists evs,
    calls (snd (main E sites w)) = calls w ++ evs
    /\ forall file obj,
         Dump file obj ∈ evs ->
         file = lit "efficient_articles.json"
         /\ exists arts,
              obj = VList (map VDict arts)
              /\ Forall (persisted_shape (confidence_of E)) arts.
Proof.
  assert (Hnone : forall evs file obj,
             Forall not_dump evs -> Dump file obj ∈ evs -> False).
  { intros evs file obj Hevs Hin. rewrite Forall_forall in Hevs.
    by apply Hevs in Hin. }
  unfold main. rewrite bind_run.
  destruct (emits_migrate_categories not_dump E I (fun _ _ => I) w)
    as [evs1 [Hevs1 Hnd1]].
  destruct (migrate_categories E w) as [[[]|e] w1]; cbn [snd] in *;
    [| exists evs1; split; [done | intros f o Hin; by destruct (Hnone _ _ _ Hnd1 Hin)]].
  rewrite bind_run, scrape_all_websites_run.
  destruct (emits_scrape_all_websites E sites 12 w1) as [evs2 [Hevs2 Hnd2]].
  rewrite scrape_all_websites_run in Hevs2. cbn [snd] in Hevs2.
  pose proof (run_contributions_persisted E sites 12 w1) as Hshape.
  destruct (run_contributions E sites 12 w1) as [arts w2]. cbn [fst snd] in *.
  rewrite bind_run.
  destruct (emits_search_articles not_dump E (lit "sports") 5 (Some (lit "sports"))
              (fun _ => I) (fun _ _ _ => I) w2) as [evs3 [Hevs3 Hnd3]].
  assert (Hnd : Forall not_dump (evs1 ++ evs2 ++ evs3))
    by (repeat (apply Forall_app; split); done).
  destruct (search_articles E _ _ _ w2) as [[results|e] w3]; cbn [snd] in *.
  2: { exists (evs1 ++ evs2 ++ evs3).
       split; [by rewrite Hevs3, Hevs2, Hevs1, <- !app_assoc |].
       intros f o Hin. by destruct (Hnone _ _ _ Hnd Hin). }
  rewrite bind_run. unfold lift.
  destruct (inspect_results results) as [[]|e].
  2: { exists (evs1 ++ evs2 ++ evs3). cbn [snd].
       split; [by rewrite Hevs3, Hevs2, Hevs1, <- !app_assoc |].
       intros f o Hin. by destruct (Hnone _ _ _ Hnd Hin). }
  cbn [call snd calls].
  exists ((evs1 ++ evs2 ++ evs3)
          ++ [Dump (lit "efficient_articles.json") (VList (map VDict arts))]).
  split; [by rewrite Hevs3, Hevs2, Hevs1, <- !app_assoc |].
  intros f o [Hin | Hin]%elem_of_app; [by destruct (Hnone _ _ _ Hnd Hin) |].
  apply list_elem_of_singleton in Hin. injection Hin as -> ->.
  split; [done |]. by exists arts.
Qed.

Lemma main_persists_nested_categories_witness :
  unit_scores stub
  /\ exists evs,
       calls (snd (main stub two_sources w0)) = calls w0 ++ evs
       /\ forall file obj,
            Dump file obj ∈ evs ->
            exists arts,
              obj = VList (map VDict arts)
              /\ Forall (persisted_shape (fun _ _ q => 0 <= q /\ q <= 1)%Q) arts.
Proof.
  assert (Hunit : unit_scores stub).
  { intros text labels ls ss H. injection H as <- <-.
    repeat constructor; discriminate. }
  split; [exact Hunit |].
  destruct (main_persists_nested_categories stub two_sources w0)
    as [evs [Hevs Hdump]].
  exists evs. split; [exact Hevs |].
  intros file obj Hin. destruct (Hdump file obj Hin) as [_ [arts [-> Harts]]].
  exists arts. split; [reflexivity |].
  eapply Forall_impl; [exact Harts |].
  intros a [Hkeys [Hitem [[c [q [Hc [_ Hq]]]] [Hcat Hconf]]]].
  repeat split; [exact Hkeys | exact Hitem | | exact Hcat | exact Hconf].
  exists c, q. split; [exact Hc | exact (Hq Hunit)].
Defined.

(** ** Reference values *)

(** The digests of RFC 1321 for the empty string and for "abc". *)
Example md5_empty :
  MD5.hexdigest [] = lit "d41d8cd98f00b204e9800998ecf8427e".
Proof. vm_compute. reflexivity. Qed.

Example md5_abc :
  MD5.hexdigest [97; 98; 99] = lit "900150983cd24fb0d6963f7d28e17f72".
Proof. vm_compute. reflexivity. Qed.

(** The legacy encoding of the scenario, decoded: the score is the double
    nearest to 0.9. *)
Example loads_legacy :
  Json.loads (dq "[{'category':'tech','score':0.9}]")
  = Some (VList [VDict [(lit "category", VStr (lit "tech"));
                        (lit "score",
                         VFloat (8106479329266893 # 9007199254740992))]]).
Proof. vm_compute. reflexivity. Qed.

(** A float literal beyond the range of a double is read as infinity, and
    an integer literal of more than 4300 digits is refused. *)
Example loads_overflow :
  Json.loads (lit "[1e400, -1e400, 1e-400]")
  = Some (VList [VNonFinite PosInf; VNonFinite NegInf; VFloat 0]).
Proof. vm_compute. reflexivity. Qed.

Example loads_long_integer :
  Json.loads (repeat 57%N 4300 ++ lit ".0") = Some (VNonFinite PosInf)
  /\ Json.loads (repeat 57%N 4301) = None.
Proof. split; vm_compute; reflexivity. Qed.

Example loads_trailing_comma : Json.loads (lit "[1,]") = None.
Proof. vm_compute. reflexivity. Qed.

(** [str.split()] and [str.strip()] on the texts of the scenario. *)
Example split_two_tokens : split_ws (lit " a  b ") = [lit "a"; lit "b"].
Proof. vm_compute. reflexivity. Qed.

Example strip_blank : strip (lit "  ") = lit "".
Proof. vm_compute. reflexivity. Qed.

End Props.

(* ================================================================== *)
(** * Further properties of the methods *)
(* ================================================================== *)

Module More.
Import Py Scraper Doubles Spec Props.

(** ** Computations that only make calls *)

Lemma logged_nil (w : world) : logged [] w = w.
Proof. destruct w. unfold logged. cbn. by rewrite app_nil_r. Qed.

Lemma logged_logged evs1 evs2 (w : world) :
  logged evs2 (logged evs1 w) = logged (evs1 ++ evs2) w.
Proof. unfold logged. cbn. by rewrite app_assoc. Qed.

Lemma logs_ret P {A} (a : A) : logs P (mret a : M A).
Proof. intros w. exists []. by rewrite logged_nil. Qed.

Lemma logs_lift P {A} (r : res A) : logs P (lift r).
Proof. intros w. exists []. by rewrite logged_nil. Qed.

Lemma logs_call (P : event -> Prop) ev : P ev -> logs P (call ev).
Proof. intros H w. exists [ev]. split; [done | by constructor]. Qed.

Lemma logs_bind P {A B} (m : M A) (f : A -> M B) :
  logs P m -> (forall a, logs P (f a)) -> logs P (m ≫= f).
Proof.
  intros Hm Hf w. rewrite bind_run. destruct (Hm w) as [evs [Hevs HP]].
  destruct (m w) as [[a|e] w1]; cbn [snd] in *; subst w1.
  - destruct (Hf a (logged evs w)) as [evs' [Hevs' HP']].
    exists (evs ++ evs'). rewrite Hevs', logged_logged.
    split; [done | by apply Forall_app].
  - by exists evs.
Qed.

Lemma logs_try P {A} (m : M A) (h : exn -> M A) :
  logs P m -> (forall e, logs P (h e)) -> logs P (try_except m h).
Proof.
  intros Hm Hh w. unfold try_except. destruct (Hm w) as [evs [Hevs HP]].
  destruct (m w) as [[a|e] w1]; cbn [snd] in *; subst w1.
  - by exists evs.
  - destruct (Hh e (logged evs w)) as [evs' [Hevs' HP']].
    exists (evs ++ evs'). rewrite Hevs', logged_logged.
    split; [done | by apply Forall_app].
Qed.

Lemma logs_for_each P {A B} (xs : list A) (acc : B) (body : A -> B -> M B) :
  (forall x acc, logs P (body x acc)) -> logs P (for_each xs acc body).
Proof.
  intros Hbody. revert acc. induction xs as [|x xs IH]; intros acc; cbn [for_each].
  - apply logs_ret.
  - apply logs_bind; [apply Hbody | apply IH].
Qed.

Ltac logs_step :=
  first
    [ apply logs_ret
    | apply logs_lift
    | apply logs_call; done
    | apply logs_bind; [| intros ?]
    | apply logs_try; [| intros ?]
    | apply logs_for_each; intros ? ?
    | match goal with
      | |- logs _ (match ?x with _ => _ end) => destruct x
      end ].

(** ** [scrape_website] *)

Lemma scrape_container_valid E url c :
  Forall (valid_item url) (scrape_container E url c).
Proof.
  unfold scrape_container.
  match goal with |- context [if ?b then _ else _] => destruct b eqn:Hb end;
    [| constructor].
  apply andb_prop in Hb as [[Hh Hl]%andb_prop Hn].
  constructor; [| constructor].
  do 5 eexists. split; [reflexivity |].
  repeat split.
  - intros Heq. by rewrite Heq in Hh.
  - intros Heq. rewrite Heq, str_eqb_refl in Hn. discriminate Hn.
  - intros Heq. by rewrite Heq in Hl.
Qed.

Lemma scrape_items_valid E url cs :
  Forall (valid_item url) (scrape_items E url cs).
Proof.
  unfold scrape_items. induction cs as [|[c|e] cs IH]; cbn [flat_map].
  - constructor.
  - apply Forall_app. split; [apply scrape_container_valid | exact IH].
  - exact IH.
Qed.

(** X1: [scrape_website] never raises and makes one call, the page load;
    every item it returns has the six fields in order, a headline that is
    neither empty nor "No headline", a link that is not empty and the page
    url as source; when the page fails to load it returns no item. *)
Theorem scrape_website_items E url selectors limit (w : world) :
  exists items,
    scrape_website E url selectors limit w = (Ok items, logged [Goto url] w)
    /\ Forall (valid_item url) items
    /\ (forall e, page E url selectors = Raise e -> items = []).
Proof.
  rewrite scrape_website_run. eexists. split; [reflexivity |].
  unfold scraped. split.
  - destruct (page E url selectors); [apply scrape_items_valid | constructor].
  - by intros e ->.
Qed.

Lemma scrape_website_items_witness :
  exists items,
    scrape_website stub (lit "https://a.example") card_selectors (Some 12) w0
    = (Ok items, logged [Goto (lit "https://a.example")] w0)
    /\ items = [].
Proof.
  destruct (scrape_website_items stub (lit "https://a.example") card_selectors
              (Some 12) w0)
    as [items [Hrun [_ Hfail]]].
  exists items. split; [exact Hrun |].
  apply (Hfail ExternalError). reflexivity.
Defined.

Lemma length_scrape_items E url cs :
  (length (scrape_items E url cs) <= length cs)%nat.
Proof.
  unfold scrape_items. induction cs as [|[c|e] cs IH]; cbn [flat_map length].
  - done.
  - rewrite length_app.
    assert (length (scrape_container E url c) <= 1)%nat; [| lia].
    unfold scrape_container.
    match goal with |- context [if ?b then _ else _] => destruct b end;
      cbn [length]; lia.
  - cbn [app]. lia.
Qed.

(** X2: with a limit that is not negative, [scrape_website] returns at
    most [limit] items, and never more than the containers found on the
    page. *)
Theorem scrape_website_limit E url selectors (limit : Z) (w : world) :
  0 <= limit ->
  exists items w',
    scrape_website E url selectors (Some limit) w = (Ok items, w')
    /\ Z.of_nat (length items) <= limit
    /\ forall found,
         page E url selectors = Ok found ->
         (length items <= length found)%nat.
Proof.
  intros Hlimit. rewrite scrape_website_run. do 2 eexists.
  split; [reflexivity |]. unfold scraped.
  destruct (page E url selectors) as [found|e].
  - assert (Hslice : (length (slice_to limit found) <= Z.to_nat limit)%nat
                     /\ (length (slice_to limit found) <= length found)%nat).
    { unfold slice_to. replace (0 <=? limit) with true
        by (symmetry; by apply Z.leb_le).
      rewrite length_take. lia. }
    pose proof (length_scrape_items E url (slice_to limit found)).
    split; [lia |]. intros found' [= <-]. lia.
  - cbn [length]. split; [lia |]. intros found' [=].
Qed.

Lemma scrape_website_limit_witness :
  exists items w',
    scrape_website stub (lit "https://b.example") card_selectors (Some 2) w0
    = (Ok items, w')
    /\ Z.of_nat (length items) <= 2.
Proof.
  destruct (scrape_website_limit stub (lit "https://b.example") card_selectors 2 w0)
    as [items [w' [Hrun [Hlen _]]]]; [lia |].
  by exists items, w'.
Defined.

Lemma scrape_container_nonempty E url (c : container) :
  scrape_container E url c ≠ []
  <-> exists headline href,
        headline_elem c = Some headline
        /\ headline ≠ [] /\ headline ≠ lit "No headline"
        /\ link_elem c = Some (Some href)
        /\ href ≠ [] /\ urljoin E url href ≠ [].
Proof.
  unfold scrape_container.
  destruct (headline_elem c) as [headline|].
  2: { rewrite str_eqb_refl, andb_false_r. split; [done |].
       by intros [h [href [[=] _]]]. }
  assert (Hne : forall s : str, nonempty s = true <-> s ≠ [])
    by (intros [|? ?]; cbn; split; done).
  assert (Hnb : negb (str_eqb headline (lit "No headline")) = true
                <-> headline ≠ lit "No headline").
  { rewrite negb_true_iff. split.
    - intros Hf ->. by rewrite str_eqb_refl in Hf.
    - apply str_eqb_ne. }
  destruct (link_elem c) as [[href|]|].
  2,3: rewrite andb_false_r; cbn; split; [done |];
    by intros [h [href [_ [_ [_ [[=] _]]]]]].
  destruct (nonempty href) eqn:Hhref.
  2: { rewrite andb_false_r. cbn. split; [done |].
       intros [h [href' [_ [_ [_ [[= <-] [Hh _]]]]]]].
       apply Hne in Hh. congruence. }
  match goal with |- context [if ?b then _ else _] => destruct b eqn:Hb end.
  - split; [| done]. intros _.
    apply andb_prop in Hb as [[Hh Hl]%andb_prop Hn].
    exists headline, href. repeat split; try done.
    + by apply Hne.
    + by apply Hnb.
    + by apply Hne.
    + by apply Hne.
  - split; [done |].
    intros [h [href' [[= <-] [Hh [Hn [[= <-] [_ Hl]]]]]]].
    apply Hne in Hh, Hl. apply Hnb in Hn.
    by rewrite Hh, Hl, Hn in Hb.
Qed.

(** X3: a container gives an item exactly when it has a headline element
    whose text is neither empty nor "No headline" and a link element whose
    [href] is not empty and resolves to a url that is not empty; the
    description and the image are not required.  It gives one item at most,
    which carries that headline and that url. *)
Theorem scrape_container_accepts E url (c : container) :
  (scrape_container E url c ≠ []
   <-> exists headline href,
         headline_elem c = Some headline
         /\ headline ≠ [] /\ headline ≠ lit "No headline"
         /\ link_elem c = Some (Some href)
         /\ href ≠ [] /\ urljoin E url href ≠ [])
  /\ (length (scrape_container E url c) <= 1)%nat
  /\ forall item,
       item ∈ scrape_container E url c ->
       scrape_container E url c = [item]
       /\ exists headline href,
            headline_elem c = Some headline
            /\ link_elem c = Some (Some href)
            /\ dict_get (lit "headline") item = Some (VStr headline)
            /\ dict_get (lit "url") item = Some (VStr (urljoin E url href)).
Proof.
  split; [apply scrape_container_nonempty |].
  assert (Hlen : (length (scrape_container E url c) <= 1)%nat).
  { unfold scrape_container.
    match goal with |- context [if ?b then _ else _] => destruct b end;
      cbn [length]; lia. }
  split; [exact Hlen |]. intros item Hin.
  assert (Hne : scrape_container E url c ≠ []).
  { intros Heq. rewrite Heq in Hin. by apply elem_of_nil in Hin. }
  apply scrape_container_nonempty in Hne
    as [headline [href [Hh [_ [_ [Hl [Hhref _]]]]]]].
  assert (Hone : scrape_container E url c = [item]).
  { destruct (scrape_container E url c) as [|a [|b rest]].
    - by apply elem_of_nil in Hin.
    - by apply list_elem_of_singleton in Hin as ->.
    - cbn [length] in Hlen. lia. }
  split; [exact Hone |]. exists headline, href.
  split; [exact Hh |]. split; [exact Hl |].
  revert Hone. unfold scrape_container. rewrite Hh, Hl.
  destruct href as [|x href]; [done |]. cbn [nonempty].
  match goal with |- context [if ?b then _ else _] => destruct b end;
    [| discriminate].
  intros [= <-]. split; reflexivity.
Qed.

Lemma scrape_container_accepts_witness :
  let c := {| headline_elem := Some (lit "Cup final");
              desc_elem := None;
              link_elem := Some (Some (lit "/one"));
              img_elem := None;
              clock := lit "2024-01-01T00:00:00" |} in
  scrape_container stub (lit "https://b.example") c ≠ []
  /\ (length (scrape_container stub (lit "https://b.example") c) <= 1)%nat.
Proof.
  intros c.
  destruct (scrape_container_accepts stub (lit "https://b.example") c)
    as [Hiff [Hlen _]].
  split; [| exact Hlen]. apply Hiff.
  exists (lit "Cup final"), (lit "/one").
  repeat split; discriminate.
Defined.

(** X4: a container that cannot be read is skipped and the others are
    scraped as if it were not there, in order; but it counts towards the
    limit, which is applied to the containers before they are read. *)
Theorem scrape_website_skips_failed E url selectors cs1 e cs2 (w : world) :
  page E url selectors = Ok (cs1 ++ Raise e :: cs2) ->
  fst (scrape_website E url selectors None w)
  = Ok (scrape_items E url cs1 ++ scrape_items E url cs2)
  /\ fst (scrape_website E url selectors
            (Some (Z.of_nat (length cs1) + 1)) w)
     = Ok (scrape_items E url cs1).
Proof.
  intros Hpage. rewrite !scrape_website_run. cbn [fst]. unfold scraped.
  rewrite Hpage. split.
  - unfold scrape_items. by rewrite flat_map_app.
  - unfold slice_to.
    replace (0 <=? Z.of_nat (length cs1) + 1) with true
      by (symmetry; apply Z.leb_le; lia).
    replace (Z.to_nat (Z.of_nat (length cs1) + 1)) with (length cs1 + 1)%nat
      by lia.
    rewrite take_app_add'; [| done]. cbn [take].
    unfold scrape_items. rewrite flat_map_app. cbn [flat_map].
    by rewrite app_nil_r.
Qed.

Lemma scrape_website_skips_failed_witness :
  let one := card "Cup final goes to penalties" "A late equaliser" "/one" in
  let three := card "Markets rally after rate cut" "Shares rise" "/three" in
  fst (scrape_website flaky (lit "https://b.example") card_selectors None w0)
  = Ok (scrape_items flaky (lit "https://b.example") [one]
        ++ scrape_items flaky (lit "https://b.example") [three])
  /\ fst (scrape_website flaky (lit "https://b.example") card_selectors
            (Some 2) w0)
     = Ok (scrape_items flaky (lit "https://b.example") [one]).
Proof.
  intros one three.
  exact (scrape_website_skips_failed flaky (lit "https://b.example")
           card_selectors
           [one] ExternalError [three] w0 eq_refl).
Defined.

(** ** [categorize_article] and [process_articles_batch] *)

Lemma after_categorize_logged (text : str) (w : world) :
  after_categorize text w = logged (classify_calls text) w.
Proof.
  unfold after_categorize, classify_calls.
  destruct (short_text text); [by rewrite logged_nil | done].
Qed.

(** X5: on a text of three tokens or more, [categorize_article] calls the
    classifier once, with the twelve labels; it returns the first label with
    the first score rounded to two decimals, and [general] with confidence
    1.0 when the classifier raises or returns no label or no score. *)
Theorem categorize_article_classifies E (text : str) (w : world) :
  short_text text = false ->
  exists r,
    categorize_article E text w = (Ok r, logged [Classify text categories] w)
    /\ length categories = 12%nat
    /\ (forall label labels score scores,
          categorizer E text categories = Ok (label :: labels, score :: scores) ->
          r = VDict [(lit "category", VStr label);
                     (lit "confidence", VFloat (round2 score))])
    /\ (forall scores, categorizer E text categories = Ok ([], scores) ->
                       r = general_result)
    /\ (forall labels, categorizer E text categories = Ok (labels, []) ->
                       r = general_result)
    /\ (forall e, categorizer E text categories = Raise e -> r = general_result).
Proof.
  intros Hshort. rewrite categorize_article_run. eexists.
  unfold after_categorize, category_of. rewrite Hshort.
  split; [reflexivity |]. split; [reflexivity |].
  repeat split.
  - by intros label labels score scores ->.
  - by intros scores ->.
  - intros labels ->. by destruct labels.
  - by intros e ->.
Qed.

Lemma categorize_article_classifies_witness :
  exists r,
    categorize_article stub (lit "Cup final goes to penalties") w0
    = (Ok r, logged [Classify (lit "Cup final goes to penalties") categories] w0)
    /\ r = VDict [(lit "category", VStr (lit "sports"));
                  (lit "confidence", VFloat (round2 (9 # 10)))].
Proof.
  destruct (categorize_article_classifies stub
              (lit "Cup final goes to penalties") w0 eq_refl)
    as [r [Hrun [_ [Hok _]]]].
  exists r. split; [exact Hrun |].
  apply (Hok (lit "sports") [lit "tech"] (9 # 10)%Q [(1 # 10)%Q]). reflexivity.
Defined.

(** The [try] block of a batch, with the world it leaves. *)
Lemma categorize_batch_world E (todo pre acc : list dict) (w : world) :
  Forall (fun a => is_text (lit "headline") a = true) todo ->
  categorize_batch E (length pre) (map text_of todo) (pre ++ todo) acc w
  = (Ok (pre ++ map (categorized E) todo,
         acc ++ map (categorized E) todo, None),
     logged (flat_map (fun a => classify_calls (text_of a)) todo) w).
Proof.
  intros Htodo. revert pre acc w.
  induction Htodo as [|a todo Ha _ IH]; intros pre acc w.
  - cbn [map categorize_batch flat_map]. by rewrite !app_nil_r, logged_nil.
  - cbn [map categorize_batch flat_map]. rewrite categorize_article_run.
    rewrite list_lookup_middle by done.
    fold (categorized E a).
    apply is_text_get in Ha as [h Hh].
    cbn [getitem_key]. unfold dict_item, categorized at 1.
    rewrite dict_get_set_ne by apply headline_ne_categories.
    rewrite Hh. cbn [getitem_slice_to].
    rewrite insert_app_r_alt by done. rewrite Nat.sub_diag. cbn [insert list_insert].
    specialize (IH (pre ++ [categorized E a]) (acc ++ [categorized E a])
                  (after_categorize (text_of a) w)).
    rewrite length_app in IH. cbn [length] in IH.
    rewrite Nat.add_1_r in IH. rewrite <- !app_assoc in IH. cbn [app] in IH.
    rewrite IH, after_categorize_logged, logged_logged. done.
Qed.

Lemma process_articles_batch_world E (arts : list dict) (w : world) :
  Forall (fun a => is_text (lit "headline") a = true
                   /\ is_text (lit "description") a = true) arts ->
  process_articles_batch E arts w
  = (Ok (map (categorized E) arts),
     logged (flat_map (fun a => classify_calls (text_of a)) arts) w).
Proof.
  intros Harts. unfold process_articles_batch.
  destruct arts as [|a0 arts0]; [by rewrite logged_nil |].
  cbn [nonempty negb]. set (arts := a0 :: arts0) in *. clearbody arts.
  rewrite bind_run, (article_texts_ok _ Harts). unfold lift at 1.
  unfold range_step.
  assert (Hloop : forall m k acc w,
    for_each (map (fun k => (k * 4)%nat) (seq k m)) acc
      (fun i categorized_articles =>
         '(batch_articles', categorized_articles', failure) ←
           categorize_batch E 0 (slice i (i + 4) (map text_of arts))
             (slice i (i + 4) arts) categorized_articles;
         match failure with
         | Some _ => mret (categorized_articles' ++ batch_articles')
         | None => mret categorized_articles'
         end) w
    = (Ok (acc ++ map (categorized E) (take (4 * m) (drop (k * 4) arts))),
       logged (flat_map (fun a => classify_calls (text_of a))
                 (take (4 * m) (drop (k * 4) arts))) w)).
  { induction m as [|m IH]; intros k acc w1.
    - cbn [seq map for_each]. rewrite Nat.mul_0_r. cbn [take map flat_map].
      by rewrite app_nil_r, logged_nil.
    - cbn [seq map for_each]. rewrite bind_run. rewrite bind_run.
      assert (Hs : forall (A : Type) (l : list A),
                 slice (k * 4) (k * 4 + 4) l = take 4 (drop (k * 4) l))
        by (intros A l; unfold slice; f_equal; lia).
      rewrite !Hs, skipn_map, firstn_map.
      pose proof (categorize_batch_world E (take 4 (drop (k * 4) arts)) [] acc w1)
        as Hrun.
      cbn [length app] in Hrun. rewrite Hrun.
      2: { apply Forall_take, Forall_drop.
           eapply Forall_impl; [exact Harts | by intros a [? ?]]. }
      unfold mret at 1, M_ret at 1.
      rewrite IH, logged_logged.
      replace (S k * 4)%nat with (k * 4 + 4)%nat by lia.
      rewrite <- drop_drop.
      replace (4 * S m)%nat with (4 + 4 * m)%nat by lia.
      rewrite <- (take_take_drop (drop (k * 4) arts) 4 (4 * m)).
      by rewrite map_app, flat_map_app, app_assoc. }
  rewrite Hloop. cbn [app Nat.mul drop].
  by rewrite take_ge by apply range_step_covers.
Qed.

(** X6: [process_articles_batch] returns the articles it is given, in
    order and as many, each with its [categories] key set to the result of
    [categorize_article] on its text and its other keys untouched; it calls
    the classifier once for every article whose text has three tokens or
    more, in order, and leaves the collection alone.  The grouping by four
    does not show in the result. *)
Theorem process_articles_batch_keeps E (arts : list dict) (w : world) :
  Forall (fun a => is_text (lit "headline") a = true
                   /\ is_text (lit "description") a = true) arts ->
  exists arts',
    process_articles_batch E arts w
    = (Ok arts',
       logged (flat_map (fun a => classify_calls (text_of a)) arts) w)
    /\ length arts' = length arts
    /\ forall i a,
         arts !! i = Some a ->
         exists a',
           arts' !! i = Some a'
           /\ dict_get (lit "categories") a' = Some (category_of E (text_of a))
           /\ forall k, k ≠ lit "categories" -> dict_get k a' = dict_get k a.
Proof.
  intros Harts. rewrite (process_articles_batch_world E arts w Harts).
  eexists. split; [reflexivity |]. split; [apply length_map |].
  intros i a Ha. exists (categorized E a). split.
  - change (map (categorized E) arts) with (categorized E <$> arts).
    by rewrite list_lookup_fmap, Ha.
  - unfold categorized. split; [apply dict_get_set_eq |].
    intros k Hk. by apply dict_get_set_ne.
Qed.

Lemma process_articles_batch_keeps_witness :
  exists arts',
    process_articles_batch failing (b_items ++ b_items) w0
    = (Ok arts',
       logged (flat_map (fun a => classify_calls (text_of a))
                 (b_items ++ b_items)) w0)
    /\ length arts' = 6%nat.
Proof.
  destruct (process_articles_batch_keeps failing (b_items ++ b_items) w0)
    as [arts' [Hrun [Hlen _]]].
  - repeat constructor.
  - exists arts'. split; [exact Hrun | exact Hlen].
Defined.

Lemma article_texts_missing (arts : list dict) :
  Forall (fun a => absent_or_text (lit "headline") a = true
                   /\ absent_or_text (lit "description") a = true) arts ->
  Exists (fun a => dict_get (lit "headline") a = None
                   \/ dict_get (lit "description") a = None) arts ->
  article_texts arts = Raise KeyError.
Proof.
  induction 1 as [|a arts [Hh Hd] _ IH]; intros Hex.
  - by apply Exists_nil in Hex.
  - cbn [article_texts]. unfold article_text, text_field, absent_or_text in *.
    destruct (dict_get (lit "headline") a) as [[| | | | |h| |]|] eqn:Eh;
      try discriminate Hh; [| done].
    destruct (dict_get (lit "description") a) as [[| | | | |d| |]|] eqn:Ed;
      try discriminate Hd; [| done].
    apply Exists_cons in Hex as [[Hex | Hex] | Hex];
      [congruence | congruence |].
    by rewrite (IH Hex).
Qed.

(** X7: when one of the articles has no headline or no description (the
    fields of the others being strings where present),
    [process_articles_batch] raises [KeyError] before it categorises any
    article: the classifier is not called and no article is returned. *)
Theorem process_articles_batch_missing_field E (arts : list dict) (w : world) :
  Forall (fun a => absent_or_text (lit "headline") a = true
                   /\ absent_or_text (lit "description") a = true) arts ->
  Exists (fun a => dict_get (lit "headline") a = None
                   \/ dict_get (lit "description") a = None) arts ->
  process_articles_batch E arts w = (Raise KeyError, w).
Proof.
  intros Hall Hex. unfold process_articles_batch.
  destruct arts as [|a arts]; [by apply Exists_nil in Hex |].
  cbn [nonempty negb]. rewrite bind_run.
  by rewrite (article_texts_missing _ Hall Hex).
Qed.

Lemma process_articles_batch_missing_field_witness :
  process_articles_batch stub (b_items ++ [headline_only]) w0
  = (Raise KeyError, w0).
Proof.
  apply (process_articles_batch_missing_field stub (b_items ++ [headline_only]) w0).
  - repeat constructor.
  - apply Exists_app. right. constructor. by right.
Defined.

(** ** [generate_embedding] and [store_in_chromadb] *)

Lemma generate_embedding_run E (text : str) (w : world) :
  generate_embedding E text w
  = (embedding_of E text, logged (encode_calls text) w).
Proof.
  unfold generate_embedding, embedding_of, encode_calls.
  destruct (negb (nonempty (strip text))); [by rewrite logged_nil |].
  rewrite bind_run. reflexivity.
Qed.

Lemma logs_generate_embedding E text :
  logs is_encode (generate_embedding E text).
Proof.
  intros w. rewrite generate_embedding_run. eexists. split; [reflexivity |].
  unfold encode_calls. destruct (negb _); repeat constructor.
Qed.

Lemma logs_store_article E art cols : logs is_encode (store_article E art cols).
Proof.
  unfold store_article. destruct cols as [[[ids embs] docs] metas].
  apply logs_bind; [apply logs_lift | intros doc].
  apply logs_bind; [apply logs_generate_embedding | intros v].
  repeat logs_step.
Qed.

Lemma store_article_fst E art ids embs docs metas (w : world) :
  fst (store_article E art (ids, embs, docs, metas) w)
  = match record_of E art with
    | Ok (id, emb, doc, meta) =>
        Ok (ids ++ [id], embs ++ [emb], docs ++ [doc], metas ++ [meta])
    | Raise e => Raise e
    end.
Proof.
  unfold store_article, record_of.
  rewrite bind_run. unfold lift at 1.
  destruct (article_text art) as [doc|]; [| done].
  rewrite bind_run, generate_embedding_run.
  destruct (embedding_of E doc) as [v|]; [| done].
  rewrite bind_run. unfold lift at 1.
  destruct (text_field (lit "url") art) as [url|]; [| done].
  rewrite bind_run. unfold lift at 1.
  destruct (text_field (lit "headline") art) as [headline|]; [| done].
  rewrite bind_run. unfold lift at 1.
  destruct (generate_article_id url headline) as [id|]; [| done].
  rewrite bind_run. unfold lift at 1.
  by destruct (article_metadata art doc) as [m|].
Qed.

(** The loop of [store_in_chromadb]: the rows it has built when it
    completes, and calls to the encoder only. *)
Lemma store_loop_fst E (arts : list dict) ids embs docs metas (w : world) :
  fst (for_each arts (ids, embs, docs, metas) (store_article E) w)
  = match records_of E arts with
    | Ok rows =>
        Ok (ids ++ map (fun r => fst (fst (fst r))) rows,
            embs ++ map (fun r => snd (fst (fst r))) rows,
            docs ++ map (fun r => snd (fst r)) rows,
            metas ++ map snd rows)
    | Raise e => Raise e
    end.
Proof.
  revert ids embs docs metas w.
  induction arts as [|a arts IH]; intros ids embs docs metas w;
    cbn [for_each records_of].
  - cbn [map]. by rewrite !app_nil_r.
  - rewrite bind_run.
    pose proof (store_article_fst E a ids embs docs metas w) as Ha.
    destruct (store_article E a (ids, embs, docs, metas) w) as [[cols|e] w1];
      cbn [fst] in Ha.
    + destruct (record_of E a) as [[[[id emb] doc] meta]|]; [| discriminate Ha].
      injection Ha as ->. rewrite IH.
      destruct (records_of E arts) as [rows|]; [| done].
      cbn [map fst snd]. by rewrite <- !app_assoc.
    + destruct (record_of E a) as [[[[id emb] doc] meta]|]; [discriminate Ha |].
      by injection Ha as ->.
Qed.

Lemma records_of_rows E (arts : list dict) rows :
  records_of E arts = Ok rows ->
  Forall2 (fun a r => record_of E a = Ok r) arts rows.
Proof.
  revert rows. induction arts as [|a arts IH]; intros rows; cbn [records_of].
  - intros [= <-]. constructor.
  - destruct (record_of E a) as [r|] eqn:Hr; [| discriminate].
    destruct (records_of E arts) as [rs|]; [| discriminate].
    intros [= <-]. constructor; [done | by apply IH].
Qed.

(** What a call of [store_in_chromadb] on a list that is not empty does,
    by the rows built for the articles and the answer of the store. *)
Lemma store_in_chromadb_run E (arts : list dict) (w : world) :
  arts ≠ [] ->
  exists encodes,
    Forall is_encode encodes
    /\ match records_of E arts with
       | Raise e => store_in_chromadb E arts w = (Raise e, logged encodes w)
       | Ok rows =>
           match store_error E (upsert_of rows) with
           | Some e =>
               store_in_chromadb E arts w
               = (Raise e, logged (encodes ++ [upsert_of rows]) w)
           | None =>
               match upsert_of rows with
               | Upsert ids embs docs metas =>
                   store_in_chromadb E arts w
                   = (Ok tt,
                      {| collection :=
                           apply_upsert ids embs docs metas (collection w);
                         calls := calls w ++ encodes ++ [upsert_of rows] |})
               | _ => False
               end
           end
       end.
Proof.
  intros Hne. unfold store_in_chromadb.
  destruct arts as [|a0 arts0]; [done |]. cbn [nonempty negb].
  set (arts := a0 :: arts0) in *. clearbody arts.
  rewrite bind_run.
  destruct (logs_for_each is_encode arts ([], [], [], []) (store_article E)
              (logs_store_article E) w) as [encodes [Hw Henc]].
  pose proof (store_loop_fst E arts [] [] [] [] w) as Hfst.
  exists encodes. split; [exact Henc |].
  destruct (for_each arts ([], [], [], []) (store_article E) w)
    as [[cols|e] w1]; cbn [fst snd] in *; subst w1.
  - destruct (records_of E arts) as [rows|]; [| discriminate Hfst].
    injection Hfst as ->. cbn [app].
    unfold collection_upsert. rewrite bind_run. cbn [call].
    fold (upsert_of rows).
    destruct (store_error E (upsert_of rows)) as [e|].
    + unfold lift, logged. cbn [collection calls]. by rewrite <- app_assoc.
    + rewrite bind_run. unfold upsert_of.
      cbn [get_collection set_collection logged collection calls].
      by rewrite <- app_assoc.
  - destruct (records_of E arts) as [rows|]; [discriminate Hfst |].
    by injection Hfst as ->.
Qed.

(** X8: [store_in_chromadb] writes all the articles or none: it calls the
    encoder for the articles and then, only if a row could be built for
    every article, calls the store once, last; when it raises, because a row
    could not be built or because the store refused the rows, the collection
    is as it was; on an empty list it does nothing. *)
Theorem store_in_chromadb_all_or_nothing E (arts : list dict) (w : world) :
  (arts = [] -> store_in_chromadb E arts w = (Ok tt, w))
  /\ (forall e,
         fst (store_in_chromadb E arts w) = Raise e ->
         collection (snd (store_in_chromadb E arts w)) = collection w)
  /\ (exists encodes,
         Forall is_encode encodes
         /\ (calls (snd (store_in_chromadb E arts w)) = calls w ++ encodes
             \/ exists rows,
                  records_of E arts = Ok rows
                  /\ length rows = length arts
                  /\ calls (snd (store_in_chromadb E arts w))
                     = calls w ++ encodes ++ [upsert_of rows]))
  /\ (forall e,
         records_of E arts = Raise e ->
         fst (store_in_chromadb E arts w) = Raise e).
Proof.
  destruct arts as [|a0 arts0].
  { split; [done |]. split; [done |]. split; [| done].
    exists []. split; [constructor |]. left. cbn. by rewrite app_nil_r. }
  set (arts := a0 :: arts0) in *.
  destruct (store_in_chromadb_run E arts w) as [encodes [Henc Hrun]]; [done |].
  split; [done |].
  destruct (records_of E arts) as [rows|e0] eqn:Hrows.
  - pose proof (Forall2_length _ _ _ (records_of_rows E arts rows Hrows)) as Hlen.
    destruct (store_error E (upsert_of rows)) as [e1|].
    + rewrite Hrun. cbn [fst snd]. split; [done |]. split; [| done].
      exists encodes. split; [done |]. right. exists rows.
      split; [done |]. split; [done | reflexivity].
    + unfold upsert_of in Hrun at 1. rewrite Hrun. cbn [fst snd].
      split; [done |]. split; [| done].
      exists encodes. split; [done |]. right. exists rows.
      split; [done |]. split; [done | reflexivity].
  - rewrite Hrun. cbn [fst snd]. split; [done |]. split.
    + exists encodes. split; [done |]. by left.
    + by intros e [= <-].
Qed.

Lemma store_in_chromadb_all_or_nothing_witness :
  fst (store_in_chromadb stub [sample_article; headline_only] w0)
  = Raise KeyError
  /\ collection (snd (store_in_chromadb stub [sample_article; headline_only] w0))
     = collection w0.
Proof.
  pose proof (store_in_chromadb_all_or_nothing stub
                [sample_article; headline_only] w0) as [_ [Hkeep [_ Hraise]]].
  assert (H : fst (store_in_chromadb stub [sample_article; headline_only] w0)
              = Raise KeyError) by (apply Hraise; vm_compute; reflexivity).
  split; [exact H | exact (Hkeep KeyError H)].
Defined.

Lemma record_of_fields E (a : dict) id emb doc meta :
  record_of E a = Ok (id, emb, doc, meta) ->
  exists url headline description,
    dict_get (lit "url") a = Some (VStr url)
    /\ dict_get (lit "headline") a = Some (VStr headline)
    /\ dict_get (lit "description") a = Some (VStr description)
    /\ doc = headline ++ [space] ++ description
    /\ generate_article_id url headline = Ok id
    /\ embedding_of E doc = Ok emb
    /\ article_metadata a doc = Ok meta.
Proof.
  unfold record_of, article_text, text_field.
  destruct (dict_get (lit "headline") a) as [[| | | | |headline| |]|];
    try discriminate.
  destruct (dict_get (lit "description") a) as [[| | | | |description| |]|];
    try discriminate.
  destruct (embedding_of E _) as [v|] eqn:Hv; [| discriminate].
  destruct (dict_get (lit "url") a) as [[| | | | |url| |]|]; try discriminate.
  destruct (generate_article_id url headline) as [i|] eqn:Hi; [| discriminate].
  destruct (article_metadata a _) as [m|] eqn:Hm; [| discriminate].
  intros [= <- <- <- <-]. by exists url, headline, description.
Qed.

(** X9: the four lists that [store_in_chromadb] hands to the store are
    aligned with the articles: each has one entry per article, the i-th id
    is [generate_article_id] of the url and headline of the i-th article,
    the i-th document is its headline, a space and its description, and the
    i-th embedding is what [generate_embedding] gives for that document. *)
Theorem store_in_chromadb_columns E (arts : list dict) (w : world)
    evs ids embs docs metas :
  calls (snd (store_in_chromadb E arts w)) = calls w ++ evs ->
  Upsert ids embs docs metas ∈ evs ->
  length ids = length arts /\ length embs = length arts
  /\ length docs = length arts /\ length metas = length arts
  /\ forall i a,
       arts !! i = Some a ->
       exists id emb url headline description,
         ids !! i = Some id /\ embs !! i = Some emb
         /\ docs !! i = Some (headline ++ [space] ++ description)
         /\ dict_get (lit "url") a = Some (VStr url)
         /\ dict_get (lit "headline") a = Some (VStr headline)
         /\ dict_get (lit "description") a = Some (VStr description)
         /\ generate_article_id url headline = Ok id
         /\ embedding_of E (headline ++ [space] ++ description) = Ok emb.
Proof.
  intros Hcalls Hin.
  destruct arts as [|a0 arts0].
  { cbn in Hcalls. rewrite <- (app_nil_r (calls w)) in Hcalls at 1.
    apply app_inv_head in Hcalls as <-. by apply elem_of_nil in Hin. }
  set (arts := a0 :: arts0) in *.
  destruct (store_in_chromadb_run E arts w) as [encodes [Henc Hrun]]; [done |].
  assert (Hnot : Upsert ids embs docs metas ∉ encodes).
  { intros Hu. rewrite Forall_forall in Henc. by apply Henc in Hu. }
  destruct (records_of E arts) as [rows|e0] eqn:Hrows.
  2: { rewrite Hrun in Hcalls. cbn [snd logged calls] in Hcalls.
       apply app_inv_head in Hcalls as <-. done. }
  assert (Hevs : evs = encodes ++ [upsert_of rows]).
  { destruct (store_error E (upsert_of rows)).
    - rewrite Hrun in Hcalls. cbn [snd logged calls] in Hcalls.
      by apply app_inv_head in Hcalls.
    - unfold upsert_of in Hrun at 1. rewrite Hrun in Hcalls.
      cbn [snd calls] in Hcalls. by apply app_inv_head in Hcalls. }
  subst evs. apply elem_of_app in Hin as [Hin | Hin]; [done |].
  apply list_elem_of_singleton in Hin. unfold upsert_of in Hin.
  injection Hin as -> -> -> ->.
  pose proof (records_of_rows E arts rows Hrows) as Hall.
  pose proof (Forall2_length _ _ _ Hall) as Hlen.
  rewrite !length_map. repeat split; try done.
  intros i a Ha.
  destruct (Forall2_lookup_l _ _ _ _ _ Hall Ha) as [[[[id emb] doc] meta] [Hr Hrec]].
  apply record_of_fields in Hrec
    as [url [headline [description [Hu [Hh [Hd [-> [Hid [Hemb _]]]]]]]]].
  exists id, emb, url, headline, description.
  change (map ?f rows) with (f <$> rows).
  rewrite !list_lookup_fmap, Hr. cbn [fmap option_fmap option_map fst snd].
  repeat split; done.
Qed.

Lemma store_in_chromadb_columns_witness :
  exists ids embs docs metas,
    calls (snd (store_in_chromadb stub [sample_article] w0))
    = calls w0 ++ [Encode (lit "Cup final goes to penalties A late equaliser");
                   Upsert ids embs docs metas]
    /\ length ids = 1%nat
    /\ ids !! 0%nat = Some (lit "fd1ade7497bfb23ab80f75391c95dbcb").
Proof.
  eexists _, _, _, _. split; [vm_compute; reflexivity |].
  split; [| reflexivity].
  refine (proj1 (store_in_chromadb_columns stub [sample_article] w0
                   _ _ _ _ _ eq_refl _)).
  vm_compute. apply elem_of_cons. right. apply elem_of_cons. by left.
Defined.

(** ** [generate_article_id] *)

Lemma encode_char_encodable (c : N) :
  encodable c = true -> exists bs, Utf8.encode_char c = Ok bs.
Proof.
  unfold encodable, Utf8.encode_char. cbn zeta. intros H.
  apply orb_prop in H.
  destruct (Z.of_N c <? 128); [by eexists |].
  destruct (Z.of_N c <? 2048); [by eexists |].
  destruct (Z.of_N c <? 65536) eqn:H3.
  - replace ((55296 <=? Z.of_N c) && (Z.of_N c <=? 57343)) with false;
      [by eexists |].
    symmetry. apply andb_false_iff. apply Z.ltb_lt in H3.
    destruct H as [H | [H _]%andb_prop].
    + left. apply Z.leb_gt. apply N.ltb_lt in H. lia.
    + right. apply Z.leb_gt. apply N.ltb_lt in H. lia.
  - replace (Z.of_N c <? 1114112) with true; [by eexists |].
    symmetry. apply Z.ltb_lt. apply Z.ltb_ge in H3.
    destruct H as [H | [_ H]%andb_prop]; apply N.ltb_lt in H; lia.
Qed.

Lemma encode_char_not_encodable (c : N) :
  encodable c = false -> Utf8.encode_char c = Raise UnicodeEncodeError.
Proof.
  unfold encodable, Utf8.encode_char. cbn zeta. intros H.
  apply orb_false_elim in H as [H1 H2]. apply N.ltb_ge in H1.
  replace (Z.of_N c <? 128) with false by (symmetry; apply Z.ltb_ge; lia).
  replace (Z.of_N c <? 2048) with false by (symmetry; apply Z.ltb_ge; lia).
  destruct (Z.of_N c <? 65536) eqn:H3.
  - apply Z.ltb_lt in H3.
    replace (55296 <=? Z.of_N c) with true by (symmetry; apply Z.leb_le; lia).
    apply andb_false_iff in H2 as [H2 | H2].
    + apply N.ltb_ge in H2.
      by replace (Z.of_N c <=? 57343) with true
        by (symmetry; apply Z.leb_le; lia).
    + apply N.ltb_ge in H2. lia.
  - apply Z.ltb_ge in H3.
    apply andb_false_iff in H2 as [H2 | H2]; apply N.ltb_ge in H2; [lia |].
    by replace (Z.of_N c <? 1114112) with false
      by (symmetry; apply Z.ltb_ge; lia).
Qed.

Lemma encode_encodable (s : str) :
  forallb encodable s = true -> exists bs, Utf8.encode s = Ok bs.
Proof.
  induction s as [|c s IH]; cbn [forallb Utf8.encode]; [by eexists |].
  intros [Hc Hs]%andb_prop.
  destruct (encode_char_encodable c Hc) as [bs ->].
  destruct (IH Hs) as [bs' ->]. by eexists.
Qed.

Lemma encode_not_encodable (s : str) :
  forallb encodable s = false -> Utf8.encode s = Raise UnicodeEncodeError.
Proof.
  induction s as [|c s IH]; cbn [forallb Utf8.encode]; [discriminate |].
  destruct (encodable c) eqn:Hc; cbn [andb].
  - intros Hs. destruct (encode_char_encodable c Hc) as [bs ->].
    by rewrite (IH Hs).
  - intros _. by rewrite (encode_char_not_encodable c Hc).
Qed.

Lemma hex_digit_is_hex (x : Z) :
  0 <= x < 16 -> is_hex (MD5.hex_digit x) = true.
Proof.
  intros Hx. unfold is_hex, MD5.hex_digit.
  destruct (x <? 10) eqn:H10.
  - apply Z.ltb_lt in H10. apply orb_true_iff. left.
    apply andb_true_iff. split; apply N.leb_le; lia.
  - apply Z.ltb_ge in H10. apply orb_true_iff. right.
    apply andb_true_iff. split; apply N.leb_le; lia.
Qed.

Lemma hexdigest_format (msg : list Z) :
  length (MD5.hexdigest msg) = 32%nat
  /\ forallb is_hex (MD5.hexdigest msg) = true.
Proof.
  unfold MD5.hexdigest, MD5.digest.
  destruct (fold_left MD5.compress _ MD5.init) as [[[A B] C] D].
  set (bytes := MD5.le_bytes 4 A ++ MD5.le_bytes 4 B
                ++ MD5.le_bytes 4 C ++ MD5.le_bytes 4 D).
  assert (Hlen : length bytes = 16%nat)
    by (unfold bytes; by rewrite !length_app, !length_le_bytes).
  assert (Hrange : Forall (fun b => 0 <= b < 256) bytes)
    by (unfold bytes; repeat (apply Forall_app; split); apply le_bytes_range).
  clearbody bytes.
  enough (H : forall hex,
             hex = flat_map (fun b => [MD5.hex_digit (b / 16);
                                       MD5.hex_digit (b mod 16)]) bytes ->
             length hex = (2 * length bytes)%nat
             /\ forallb is_hex hex = true).
  { destruct (H _ eq_refl) as [Hl Hh]. split; [lia | done]. }
  clear Hlen.
  induction Hrange as [|b bytes Hb _ IH]; intros hex ->; cbn [flat_map].
  - done.
  - destruct (IH _ eq_refl) as [Hl Hh]. cbn [app length forallb].
    rewrite Hl, Hh, !hex_digit_is_hex by (Z.div_mod_to_equations; lia).
    split; [lia | done].
Qed.

(** X10: [generate_article_id] gives 32 lowercase hexadecimal digits
    whenever it gives an id, which it does exactly when every code point of
    the url and of the headline can be encoded in UTF-8; a lone surrogate
    in either makes it raise [UnicodeEncodeError]. *)
Theorem generate_article_id_format (url headline : str) :
  match generate_article_id url headline with
  | Ok id =>
      forallb encodable (url ++ headline) = true
      /\ length id = 32%nat /\ forallb is_hex id = true
  | Raise e =>
      e = UnicodeEncodeError /\ forallb encodable (url ++ headline) = false
  end.
Proof.
  unfold generate_article_id, unique_string.
  assert (Hall : forallb encodable (url ++ [underscore] ++ headline)
                 = forallb encodable (url ++ headline)).
  { rewrite !forallb_app. cbn [forallb]. by rewrite andb_true_l. }
  destruct (forallb encodable (url ++ headline)) eqn:Hok.
  - destruct (encode_encodable _ Hall) as [bs ->].
    destruct (hexdigest_format bs) as [Hl Hh]. done.
  - by rewrite (encode_not_encodable _ Hall).
Qed.

(** ** [migrate_categories] *)

Lemma migrate_metadata_present (m : dict) :
  exists v, dict_get (lit "categories") (migrate_metadata m) = Some v.
Proof.
  unfold migrate_metadata, migrate_try.
  destruct (dict_get (lit "categories") m) as [x|] eqn:Hget;
    cbn [default from_option id].
  - destruct x; try (rewrite dict_get_set_eq; eauto).
    repeat case_inner; try (rewrite dict_get_set_eq; eauto).
    rewrite Hget. eauto.
  - cbn [startswith contains existsb nonempty negb].
    rewrite dict_get_set_eq. eauto.
Qed.

Lemma migrate_metadata_plain (m : dict) (s : str) :
  dict_get (lit "categories") m = Some (VStr s) ->
  startswith lbracket s = false ->
  exists s',
    dict_get (lit "categories") (migrate_metadata m) = Some (VStr s')
    /\ contains comma s' = false /\ startswith lbracket s' = false.
Proof.
  intros Hget Hs. unfold migrate_metadata, migrate_try.
  rewrite Hget. cbn [default from_option id]. rewrite Hs.
  destruct (contains comma s) eqn:Hc.
  - rewrite dict_get_set_eq, hd_split_on. eexists. split; [done |].
    split; [apply first_segment_no_sep |].
    destruct s as [|c s]; [done |]. cbn [startswith first_segment] in *.
    destruct (c =? comma)%N; done.
  - destruct (nonempty s) eqn:Hn; cbn [negb].
    + rewrite Hget. by exists s.
    + rewrite dict_get_set_eq. by exists general.
Qed.

Lemma migrate_metadata_fallback (m : dict) :
  (forall s, dict_get (lit "categories") m ≠ Some (VStr s)) ->
  dict_get (lit "categories") (migrate_metadata m) = Some (VStr general).
Proof.
  intros Hns. unfold migrate_metadata, migrate_try.
  destruct (dict_get (lit "categories") m) as [x|] eqn:Hget;
    cbn [default from_option id].
  - destruct x as [| | | | |s| |]; try by rewrite dict_get_set_eq.
    by destruct (Hns s).
  - cbn [startswith contains existsb nonempty negb].
    by rewrite dict_get_set_eq.
Qed.

(** X11: [migrate_categories] touches nothing but the [categories] key: it
    adds no record and removes none, and every record keeps its embedding,
    its document and every other key of its metadata, whether the store
    fails or not. *)
Theorem migrate_categories_frame E (w : world) (id : str) :
  (collection (snd (migrate_categories E w)) !! id = None
   <-> collection w !! id = None)
  /\ forall r r',
       collection w !! id = Some r ->
       collection (snd (migrate_categories E w)) !! id = Some r' ->
       embedding r' = embedding r /\ document r' = document r
       /\ (metadata r' = None <-> metadata r = None)
       /\ forall m m' k,
            metadata r = Some m -> metadata r' = Some m' ->
            k ≠ lit "categories" -> dict_get k m' = dict_get k m.
Proof.
  destruct (migrate_categories_collection E w) as [-> | ->].
  - split; [done |]. intros r r' -> [= ->].
    repeat split; try done. by intros m m' k -> [= ->].
  - rewrite lookup_fmap. split; [apply fmap_None |].
    intros r r' ->. cbn. intros [= <-]. unfold migrate_record.
    cbn [embedding document metadata].
    split; [done |]. split; [done |]. split; [apply fmap_None |].
    intros m m' k ->. cbn. intros [= <-] Hk.
    by apply migrate_metadata_other_keys.
Qed.

Lemma one_record_lookup (v : val) :
  collection (one_record v) !! lit "id1" = Some (with_category v).
Proof. unfold one_record. cbn [collection]. by apply lookup_singleton_Some. Qed.

Lemma migrate_categories_frame_witness :
  let w := one_record (VStr (lit "sports,tech")) in
  exists r',
    collection (snd (migrate_categories stub w)) !! lit "id1" = Some r'
    /\ document r' = document (with_category (VStr (lit "sports,tech"))).
Proof.
  intros w.
  pose proof (migrate_categories_frame stub w (lit "id1")) as [Hnone H].
  destruct (collection (snd (migrate_categories stub w)) !! lit "id1")
    as [r'|].
  - exists r'. split; [reflexivity |].
    exact (proj1 (proj2 (H _ r' (one_record_lookup _) eq_refl))).
  - apply proj1 in Hnone. specialize (Hnone eq_refl).
    assert (Hl : collection w !! lit "id1"
                 = Some (with_category (VStr (lit "sports,tech"))))
      by apply one_record_lookup.
    rewrite Hl in Hnone. discriminate Hnone.
Defined.

(** X12: every metadata dictionary that [migrate_categories] hands to
    [collection.update] is the migrated dictionary of the record whose id
    stands at the same place, and has a [categories] entry.  When the entry
    of the record was a string that does not begin with a bracket, it is
    now a string with no comma and no leading bracket; when it was missing
    or not a string, it is now [general]. *)
Theorem migrate_categories_result E (w : world) evs ids metadatas :
  calls (snd (migrate_categories E w)) = calls w ++ evs ->
  Update ids metadatas ∈ evs ->
  length ids = length metadatas
  /\ forall (i : nat) id m',
       ids !! i = Some id -> metadatas !! i = Some m' ->
       exists r m v,
         collection w !! id = Some r /\ metadata r = Some m
         /\ m' = migrate_metadata m
         /\ dict_get (lit "categories") m' = Some v
         /\ (forall s,
               dict_get (lit "categories") m = Some (VStr s) ->
               startswith lbracket s = false ->
               exists s', v = VStr s' /\ contains comma s' = false
                          /\ startswith lbracket s' = false)
         /\ ((forall s, dict_get (lit "categories") m ≠ Some (VStr s)) ->
             v = VStr general).
Proof.
  intros Hcalls Hin. set (c := collection w).
  assert (Hev : all_metadata c = true
                /\ Update ids metadatas
                   = Update (update_ids c) (update_metadatas c)).
  { rewrite migrate_categories_run in Hcalls. fold c in Hcalls.
    assert (Hget : forall evs', calls (logged [Get] w) = calls w ++ evs' ->
                                Update ids metadatas ∈ evs' -> False).
    { intros evs' H%app_inv_head Hin'. subst evs'.
      apply list_elem_of_singleton in Hin'. discriminate Hin'. }
    destruct (store_error E Get); [by destruct (Hget evs) |]. cbn zeta in Hcalls.
    destruct (all_metadata c); [| by destruct (Hget evs)].
    destruct (nonempty (map_to_list c)); [| by destruct (Hget evs)].
    assert (Hevs : evs = [Get; Update (update_ids c) (update_metadatas c)]).
    { destruct (store_error E (Update _ _)); cbn [snd logged calls] in Hcalls;
        by apply app_inv_head in Hcalls. }
    subst evs. apply elem_of_cons in Hin as [Hin | Hin]; [discriminate Hin |].
    apply list_elem_of_singleton in Hin. done. }
  destruct Hev as [Hall [= -> ->]].
  rewrite (update_metadatas_rows c Hall). unfold update_ids.
  split; [by rewrite !length_map |].
  intros i id m'.
  change (map ?f (map_to_list c)) with (f <$> map_to_list c).
  rewrite !list_lookup_fmap.
  destruct (map_to_list c !! i) as [[id0 r]|] eqn:Hrow; [| discriminate].
  cbn. intros [= <-] [= <-].
  assert (Hr : c !! id0 = Some r).
  { apply elem_of_map_to_list. by eapply list_elem_of_lookup_2. }
  destruct (all_metadata_lookup c id0 r Hall Hr) as [m Hm].
  rewrite Hm. cbn [default from_option id].
  destruct (migrate_metadata_present m) as [v Hv].
  exists r, m, v. split; [done |]. split; [done |]. split; [done |].
  split; [done |]. split.
  - intros s Hs Hb.
    destruct (migrate_metadata_plain _ _ Hs Hb) as [s' [Hs' [? ?]]].
    exists s'. rewrite Hs' in Hv. injection Hv as <-. done.
  - intros Hns. rewrite (migrate_metadata_fallback _ Hns) in Hv.
    by injection Hv as <-.
Qed.

Lemma migrate_categories_result_witness :
  let w := one_record (VStr (lit "sports,tech")) in
  let m' := [ (lit "headline", VStr (lit "Cup final goes to penalties"));
              (lit "categories", VStr (lit "sports")) ] in
  calls (snd (migrate_categories stub w)) = [Get; Update [lit "id1"] [m']]
  /\ exists v, dict_get (lit "categories") m' = Some v.
Proof.
  intros w m'.
  assert (Hcalls : calls (snd (migrate_categories stub w))
                   = calls w ++ [Get; Update [lit "id1"] [m']])
    by (vm_compute; reflexivity).
  split; [exact Hcalls |].
  destruct (migrate_categories_result stub w _ [lit "id1"] [m'] Hcalls)
    as [_ H].
  { apply elem_of_cons. right. apply elem_of_cons. by left. }
  destruct (H 0%nat (lit "id1") m' eq_refl eq_refl)
    as [r [m [v [_ [_ [_ [Hv _]]]]]]].
  exists v. exact Hv.
Defined.

(** ** [search_articles] *)

Lemma search_articles_run E (query : str) (limit : Z)
    (category_filter : option str) (w : world) :
  search_articles E query limit category_filter w
  = match embedding_of E query with
    | Raise e => (Raise e, logged (encode_calls query) w)
    | Ok v =>
        let where_filter :=
          match category_filter with
          | Some c => if nonempty c then Some c else None
          | None => None
          end in
        (match store_error E (Query v limit where_filter) with
         | Some e => Raise e
         | None => Ok (query_result E v limit where_filter)
         end,
         logged (encode_calls query ++ [Query v limit where_filter]) w)
    end.
Proof.
  unfold search_articles. rewrite bind_run, generate_embedding_run.
  destruct (embedding_of E query) as [v|e]; [| done].
  cbn zeta. rewrite bind_run. unfold call.
  destruct (store_error E _); unfold lift, logged; cbn [collection calls];
    by rewrite <- app_assoc.
Qed.

(** X13: [search_articles] only reads: it leaves the collection as it is.
    An empty category filter is no filter.  When the query cannot be
    embedded the store is not queried; otherwise the store is queried once,
    after the embedding, with the embedding of the query, the limit and the
    filter, which is the category given unless that is missing or empty,
    and the answer of the store, or its error, is the result. *)
Theorem search_articles_read_only E (query : str) (limit : Z)
    (category_filter : option str) (w : world) :
  collection (snd (search_articles E query limit category_filter w))
  = collection w
  /\ search_articles E query limit (Some []) w
     = search_articles E query limit None w
  /\ (forall e,
        embedding_of E query = Raise e ->
        search_articles E query limit category_filter w
        = (Raise e, logged (encode_calls query) w))
  /\ (forall v,
        embedding_of E query = Ok v ->
        exists where_filter,
          (where_filter = None
           <-> category_filter = None \/ category_filter = Some [])
          /\ (forall c, where_filter = Some c -> category_filter = Some c)
          /\ search_articles E query limit category_filter w
             = (match store_error E (Query v limit where_filter) with
                | Some e => Raise e
                | None => Ok (query_result E v limit where_filter)
                end,
                logged (encode_calls query ++ [Query v limit where_filter]) w)).
Proof.
  rewrite !search_articles_run.
  destruct (embedding_of E query) as [v|e] eqn:Hemb.
  - cbn [nonempty]. split; [done |]. split; [done |].
    split; [discriminate |].
    intros v' [= <-]. eexists. split; [| split; [| reflexivity]].
    + destruct category_filter as [[|c s]|]; cbn [nonempty].
      * split; [by right | done].
      * split; [discriminate | by intros [|]].
      * split; [by left | done].
    + intros c. destruct category_filter as [[|c' s]|]; cbn [nonempty];
        congruence.
  - split; [done |]. split; [done |]. split; [| discriminate].
    by intros e' [= <-].
Qed.

Lemma search_articles_read_only_witness :
  fst (search_articles refusing (lit "sports") 5 (Some (lit "sports")) w0)
  = Ok (VDict [(lit "metadatas", VList [VList []])])
  /\ calls (snd (search_articles refusing (lit "sports") 5
                   (Some (lit "sports")) w0))
     = [Encode (lit "sports");
        Query [1%Q; 0%Q] 5 (Some (lit "sports"))].
Proof.
  destruct (search_articles_read_only refusing (lit "sports") 5
              (Some (lit "sports")) w0) as [_ [_ [_ H]]].
  destruct (H [1%Q; 0%Q] eq_refl) as [f [Hiff [Hf Hrun]]].
  destruct f as [c|].
  - specialize (Hf c eq_refl). injection Hf as <-.
    rewrite Hrun. split; reflexivity.
  - destruct (proj1 Hiff eq_refl) as [H1 | H1]; vm_compute in H1;
      discriminate H1.
Defined.

(** ** [main] *)

Lemma main_run E sites (w : world) :
  main E sites w
  = match migrate_categories E w with
    | (Raise e, w1) => (Raise e, w1)
    | (Ok _, w1) =>
        let arts := fst (run_contributions E sites 12 w1) in
        let w2 := snd (run_contributions E sites 12 w1) in
        match search_articles E (lit "sports") 5 (Some (lit "sports")) w2 with
        | (Raise e, w3) => (Raise e, w3)
        | (Ok results, w3) =>
            match inspect_results results with
            | Raise e => (Raise e, w3)
            | Ok _ =>
                (Ok tt, logged [Dump (lit "efficient_articles.json")
                                     (VList (map VDict arts))] w3)
            end
        end
    end.
Proof.
  unfold main. rewrite bind_run.
  destruct (migrate_categories E w) as [[[]|e] w1]; [| done].
  rewrite bind_run, scrape_all_websites_run. cbn zeta.
  rewrite bind_run.
  destruct (search_articles E _ _ _ _) as [[results|e] w3]; [| done].
  rewrite bind_run. unfold lift.
  by destruct (inspect_results results) as [[]|e].
Qed.

Lemma main_failure_no_dump E sites (w : world) :
  (exists e, fst (main E sites w) = Raise e) ->
  exists evs,
    calls (snd (main E sites w)) = calls w ++ evs /\ Forall not_dump evs.
Proof.
  rewrite main_run. intros [e0 Hraise].
  destruct (emits_migrate_categories not_dump E I (fun _ _ => I) w)
    as [evs1 [Hevs1 Hnd1]].
  destruct (migrate_categories E w) as [[[]|e] w1]; cbn [snd] in *;
    [| by exists evs1].
  cbn zeta in *.
  destruct (emits_scrape_all_websites E sites 12 w1) as [evs2 [Hevs2 Hnd2]].
  rewrite scrape_all_websites_run in Hevs2. cbn [snd] in Hevs2.
  set (arts := fst (run_contributions E sites 12 w1)) in *.
  set (w2 := snd (run_contributions E sites 12 w1)) in *.
  clearbody arts w2.
  destruct (emits_search_articles not_dump E (lit "sports") 5
              (Some (lit "sports")) (fun _ => I) (fun _ _ _ => I) w2)
    as [evs3 [Hevs3 Hnd3]].
  assert (Hnd : Forall not_dump (evs1 ++ evs2 ++ evs3))
    by (repeat (apply Forall_app; split); done).
  destruct (search_articles E _ _ _ w2) as [[results|e] w3]; cbn [snd] in *.
  2: { exists (evs1 ++ evs2 ++ evs3).
       split; [by rewrite Hevs3, Hevs2, Hevs1, <- !app_assoc | done]. }
  destruct (inspect_results results) as [[]|e]; [discriminate Hraise |].
  exists (evs1 ++ evs2 ++ evs3). cbn [snd].
  split; [by rewrite Hevs3, Hevs2, Hevs1, <- !app_assoc | done].
Qed.

(** X14: [main] writes [efficient_articles.json] at most once, as its last
    action, and only when the migration, the search and the inspection of
    its results succeed; the file then holds the articles that the run
    over the sources returned.  When [main] raises, no file is written.
    When the store cannot be read at the start, [main] raises at once and
    no source is loaded. *)
Theorem main_dump_last E sites (w : world) :
  (forall e, store_error E Get = Some e ->
             main E sites w = (Raise e, logged [Get] w))
  /\ (fst (main E sites w) = Ok tt ->
      exists evs,
        calls (snd (main E sites w))
        = calls w ++ evs
          ++ [Dump (lit "efficient_articles.json")
                   (VList (map VDict
                      (fst (run_contributions E sites 12
                              (snd (migrate_categories E w))))))]
        /\ Forall not_dump evs)
  /\ (forall e, fst (main E sites w) = Raise e ->
        exists evs,
          calls (snd (main E sites w)) = calls w ++ evs
          /\ Forall not_dump evs).
Proof.
  rewrite main_run. split.
  { intros e He. rewrite migrate_categories_run, He. done. }
  destruct (emits_migrate_categories not_dump E I (fun _ _ => I) w)
    as [evs1 [Hevs1 Hnd1]].
  destruct (migrate_categories E w) as [[[]|e] w1]; cbn [snd] in *.
  2: { split; [discriminate |]. intros e' _. by exists evs1. }
  cbn zeta.
  destruct (emits_scrape_all_websites E sites 12 w1) as [evs2 [Hevs2 Hnd2]].
  rewrite scrape_all_websites_run in Hevs2. cbn [snd] in Hevs2.
  set (arts := fst (run_contributions E sites 12 w1)) in *.
  set (w2 := snd (run_contributions E sites 12 w1)) in *.
  clearbody arts w2.
  destruct (emits_search_articles not_dump E (lit "sports") 5
              (Some (lit "sports")) (fun _ => I) (fun _ _ _ => I) w2)
    as [evs3 [Hevs3 Hnd3]].
  assert (Hnd : Forall not_dump (evs1 ++ evs2 ++ evs3))
    by (repeat (apply Forall_app; split); done).
  destruct (search_articles E _ _ _ w2) as [[results|e] w3]; cbn [snd] in *.
  2: { split; [discriminate |]. intros e' _. exists (evs1 ++ evs2 ++ evs3).
       split; [by rewrite Hevs3, Hevs2, Hevs1, <- !app_assoc | done]. }
  destruct (inspect_results results) as [[]|e]; cbn [fst snd].
  2: { split; [discriminate |]. intros e' _. exists (evs1 ++ evs2 ++ evs3).
       split; [by rewrite Hevs3, Hevs2, Hevs1, <- !app_assoc | done]. }
  split; [| discriminate]. intros _. exists (evs1 ++ evs2 ++ evs3).
  split; [| done]. cbn [logged calls].
  by rewrite Hevs3, Hevs2, Hevs1, <- !app_assoc.
Qed.

Lemma main_dump_last_witness :
  exists evs obj,
    calls (snd (main stub two_sources w0))
    = calls w0 ++ evs ++ [Dump (lit "efficient_articles.json") obj]
    /\ Forall not_dump evs.
Proof.
  assert (Hok : fst (main stub two_sources w0) = Ok tt)
    by (vm_compute; reflexivity).
  destruct (proj1 (proj2 (main_dump_last stub two_sources w0)) Hok)
    as [evs [Hevs Hnd]].
  eexists evs, _. split; [exact Hevs | exact Hnd].
Defined.

(** ** [scrape_all_websites] *)

Lemma scrape_site_run E config limit (w : world) :
  scrape_site E config limit w
  = let items := site_items E config limit in
    if nonempty items then
      match store_in_chromadb E (map (categorized E) items)
              (logged (Goto (site_url config)
                       :: flat_map (fun a => classify_calls (text_of a)) items)
                      w) with
      | (Ok _, w') => (Ok (map (categorized E) items), w')
      | (Raise e, w') => (Raise e, w')
      end
    else (Ok [], logged [Goto (site_url config)] w).
Proof.
  unfold scrape_site. rewrite bind_run, scrape_website_run.
  fold (site_items E config limit). cbn zeta.
  pose proof (scraped_raw E (site_url config) (site_selectors config)
                (Some (Z.min (site_limit config) limit))) as Hraw.
  fold (site_items E config limit) in Hraw.
  destruct (nonempty (site_items E config limit)); [| done].
  rewrite bind_run, process_articles_batch_world, logged_logged.
  2: { eapply Forall_impl; [exact Hraw |]. intros a Ha.
       by apply raw_item_texts. }
  rewrite bind_run. cbn [app].
  by destruct (store_in_chromadb E _ _) as [[[]|e] w'].
Qed.

Lemma length_site_items E config (limit : Z) :
  0 <= Z.min (site_limit config) limit ->
  Z.of_nat (length (site_items E config limit))
  <= Z.min (site_limit config) limit.
Proof.
  intros Hmin. unfold site_items, scraped.
  destruct (page E _ _) as [found|e]; [| cbn [length]; lia].
  pose proof (length_scrape_items E (site_url config)
                (slice_to (Z.min (site_limit config) limit) found)) as Hle.
  unfold slice_to in *.
  replace (0 <=? Z.min (site_limit config) limit) with true in *
    by (symmetry; by apply Z.leb_le).
  rewrite length_take in Hle. lia.
Qed.

Lemma length_site_contribution E config limit (w : world) :
  (length (fst (site_contribution E config limit w))
   <= length (site_items E config limit))%nat.
Proof.
  unfold site_contribution. rewrite scrape_site_run. cbn zeta.
  destruct (nonempty (site_items E config limit)); [| cbn; lia].
  destruct (store_in_chromadb E _ _) as [[[]|e] w']; cbn [fst length];
    [by rewrite length_map | lia].
Qed.

(** X15: when the limit of the run and the limits of the sources are not
    negative, a run returns at most as many articles as the limits of the
    sources allow, each capped by the limit of the run, hence at most the
    limit of the run for each source. *)
Theorem scrape_all_websites_bound E sites (limit : Z) (w : world) :
  0 <= limit ->
  Forall (fun entry => 0 <= site_limit (snd entry)) sites ->
  exists arts w',
    scrape_all_websites E sites limit w = (Ok arts, w')
    /\ Z.of_nat (length arts) <= sites_bound sites limit
    /\ sites_bound sites limit <= limit * Z.of_nat (length sites).
Proof.
  intros Hlimit Hsites. rewrite scrape_all_websites_run.
  do 2 eexists. split; [reflexivity |]. revert w.
  induction Hsites as [|entry sites Hentry _ IH]; intros w;
    cbn [run_contributions sites_bound map fold_right length fst].
  - lia.
  - pose proof (length_site_contribution E (snd entry) limit w) as Hc.
    pose proof (length_site_items E (snd entry) limit ltac:(lia)) as Hi.
    destruct (site_contribution E (snd entry) limit w) as [arts w1].
    specialize (IH w1). fold (sites_bound sites limit) in *.
    destruct (run_contributions E sites limit w1) as [arts' w2].
    cbn [fst] in *. rewrite length_app. lia.
Qed.

Lemma scrape_all_websites_bound_witness :
  exists arts w',
    scrape_all_websites stub two_sources 2 w0 = (Ok arts, w')
    /\ Z.of_nat (length arts) <= 2 * 2.
Proof.
  destruct (scrape_all_websites_bound stub two_sources 2 w0)
    as [arts [w' [Hrun [Hlen Hbound]]]].
  - lia.
  - repeat constructor; vm_compute; discriminate.
  - exists arts, w'. split; [exact Hrun |].
    change (Z.of_nat (length two_sources)) with 2 in Hbound. lia.
Defined.

Lemma goto_urls_app evs1 evs2 :
  goto_urls (evs1 ++ evs2) = goto_urls evs1 ++ goto_urls evs2.
Proof. unfold goto_urls. apply flat_map_app. Qed.

Lemma goto_urls_not_goto evs : Forall not_goto evs -> goto_urls evs = [].
Proof.
  induction 1 as [|ev evs Hev _ IH]; [done |].
  cbn [goto_urls flat_map]. fold (goto_urls evs). rewrite IH.
  by destruct ev.
Qed.

Lemma site_contribution_calls E config limit (w : world) :
  exists evs,
    calls (snd (site_contribution E config limit w))
    = calls w ++ Goto (site_url config) :: evs
    /\ Forall not_goto evs.
Proof.
  unfold site_contribution. rewrite scrape_site_run. cbn zeta.
  destruct (nonempty (site_items E config limit)).
  2: { exists []. by split. }
  set (classifies := flat_map (fun a => classify_calls (text_of a))
                              (site_items E config limit)).
  assert (Hclass : Forall not_goto classifies).
  { apply Forall_flat_map, Forall_forall. intros a _. unfold classify_calls.
    destruct (short_text (text_of a)); repeat constructor. }
  destruct (emits_store_in_chromadb not_goto E
              (map (categorized E) (site_items E config limit))
              (fun _ => I) (fun _ _ _ _ => I)
              (logged (Goto (site_url config) :: classifies) w))
    as [evs [Hevs Hng]].
  exists (classifies ++ evs).
  split; [| by apply Forall_app].
  destruct (store_in_chromadb E _ _) as [[[]|e] w']; cbn [snd] in *;
    rewrite Hevs; cbn [logged calls]; by rewrite <- app_assoc.
Qed.

(** X16: a run loads the page of every configured source exactly once, in
    the order of the configuration, whatever fails on the way: a source
    that cannot be loaded, categorised or stored does not keep the later
    ones from being visited, and none is visited again. *)
Theorem scrape_all_websites_visits_each E sites limit (w : world) :
  exists evs,
    calls (snd (scrape_all_websites E sites limit w)) = calls w ++ evs
    /\ goto_urls evs = map (fun entry => site_url (snd entry)) sites.
Proof.
  rewrite scrape_all_websites_run. cbn [snd]. revert w.
  induction sites as [|entry sites IH]; intros w;
    cbn [run_contributions map snd].
  - exists []. by rewrite app_nil_r.
  - destruct (site_contribution_calls E (snd entry) limit w)
      as [evs1 [Hevs1 Hng]].
    destruct (site_contribution E (snd entry) limit w) as [arts w1].
    destruct (IH w1) as [evs2 [Hevs2 Hurls]].
    destruct (run_contributions E sites limit w1) as [arts' w2].
    cbn [snd] in *.
    exists ((Goto (site_url (snd entry)) :: evs1) ++ evs2).
    split; [by rewrite Hevs2, Hevs1, <- app_assoc |].
    rewrite goto_urls_app, Hurls. cbn [goto_urls flat_map].
    fold (goto_urls evs1). by rewrite (goto_urls_not_goto _ Hng).
Qed.

Lemma site_contribution_stored E config limit (w : world) (a : dict) :
  a ∈ fst (site_contribution E config limit w) ->
  exists evs ev,
    calls (snd (site_contribution E config limit w)) = calls w ++ evs
    /\ ev ∈ evs /\ stored_by E a ev.
Proof.
  unfold site_contribution. rewrite scrape_site_run. cbn zeta.
  destruct (site_items E config limit) as [|i0 items0] eqn:Hitems;
    cbn [nonempty].
  { cbn [fst]. by intros ?%elem_of_nil. }
  set (items := i0 :: items0) in *.
  set (w1 := logged _ w).
  destruct (store_in_chromadb_run E (map (categorized E) items) w1)
    as [encodes [_ Hrun]]; [done |].
  destruct (records_of E (map (categorized E) items)) as [rows|e] eqn:Hrows.
  2: { rewrite Hrun. cbn [fst]. by intros ?%elem_of_nil. }
  pose proof (records_of_rows E _ rows Hrows) as Hall.
  destruct (store_error E (upsert_of rows)) eqn:Herr.
  { rewrite Hrun. cbn [fst]. by intros ?%elem_of_nil. }
  unfold upsert_of in Hrun at 1. rewrite Hrun. cbn [fst snd calls].
  intros Ha. apply list_elem_of_lookup in Ha as [i Ha].
  destruct (Forall2_lookup_l _ _ _ _ _ Hall Ha)
    as [[[[id emb] doc] meta] [Hr Hrec]].
  apply record_of_fields in Hrec
    as [url [headline [description [Hu [Hh [Hd [-> [Hid _]]]]]]]].
  eexists _, _.
  split; [subst w1; cbn [logged calls]; rewrite <- app_assoc; reflexivity |].
  split.
  { apply elem_of_app. right. apply elem_of_app. right.
    apply list_elem_of_singleton. reflexivity. }
  cbn [stored_by]. split; [exact Herr |].
  exists i, id, url, headline, description.
  change (map ?f rows) with (f <$> rows).
  rewrite !list_lookup_fmap, Hr. done.
Qed.

Lemma run_contributions_calls E sites limit (w : world) :
  exists evs, calls (snd (run_contributions E sites limit w)) = calls w ++ evs.
Proof.
  destruct (emits_scrape_all_websites E sites limit w) as [evs [Hevs _]].
  rewrite scrape_all_websites_run in Hevs. by exists evs.
Qed.

(** X17: a run returns only articles that the store has taken: for each of
    them the run made a call to the store's upsert that did not fail, with
    the id made from the url and the headline of the article and, at the
    same place, its headline and description as the document. *)
Theorem scrape_all_websites_returns_stored E sites limit (w : world)
    (a : dict) arts (w' : world) :
  scrape_all_websites E sites limit w = (Ok arts, w') ->
  a ∈ arts ->
  exists evs ev,
    calls w' = calls w ++ evs /\ ev ∈ evs /\ stored_by E a ev.
Proof.
  rewrite scrape_all_websites_run. intros [= <- <-]. revert w.
  induction sites as [|entry sites IH]; intros w;
    cbn [run_contributions fst].
  { by intros ?%elem_of_nil. }
  pose proof (site_contribution_stored E (snd entry) limit w a) as Hsite.
  destruct (site_contribution_calls E (snd entry) limit w)
    as [evs1 [Hevs1 _]].
  destruct (site_contribution E (snd entry) limit w) as [arts1 w1].
  specialize (IH w1).
  destruct (run_contributions_calls E sites limit w1) as [evs2 Hevs2].
  destruct (run_contributions E sites limit w1) as [arts2 w2].
  cbn [fst snd] in *. intros [Ha | Ha]%elem_of_app.
  - destruct (Hsite Ha) as [evs [ev [Hevs [Hin Hst]]]].
    exists (evs ++ evs2), ev. split; [by rewrite Hevs2, Hevs, <- app_assoc |].
    split; [apply elem_of_app; by left | done].
  - destruct (IH Ha) as [evs [ev [Hevs [Hin Hst]]]].
    exists ((Goto (site_url (snd entry)) :: evs1) ++ evs), ev.
    split; [by rewrite Hevs, Hevs1, <- app_assoc |].
    split; [apply elem_of_app; by right | done].
Qed.

Lemma scrape_all_websites_returns_stored_witness :
  let run := scrape_all_websites stub two_sources 12 w0 in
  exists a evs ev,
    fst run = Ok [a; categorized stub (nth 1 b_items []);
                  categorized stub (nth 2 b_items [])]
    /\ calls (snd run) = calls w0 ++ evs /\ ev ∈ evs /\ stored_by stub a ev.
Proof.
  intros run.
  destruct (run) as [r w'] eqn:Hrun.
  assert (Hr : r = Ok (map (categorized stub) b_items)).
  { apply (f_equal fst) in Hrun. cbn [fst] in Hrun. rewrite <- Hrun.
    vm_compute. reflexivity. }
  subst r. subst run.
  destruct (scrape_all_websites_returns_stored stub two_sources 12 w0
              (categorized stub (nth 0 b_items [])) _ w' Hrun)
    as [evs [ev [Hevs [Hin Hst]]]].
  - apply elem_of_cons. by left.
  - exists (categorized stub (nth 0 b_items [])), evs, ev.
    split; [reflexivity |]. split; [exact Hevs |]. split; assumption.
Defined.

(** X18: [migrate_categories] completes whenever the store answers its
    two calls and every record has metadata, whatever the dictionaries
    hold.  When it raises, either the store did, and the exception is that
    of the store call made last, or a record has no metadata, and the
    exception is the [TypeError] raised after the one call that read the
    store; in both cases the collection is left as it was. *)
Theorem migrate_categories_failures E (w : world) :
  (store_error E Get = None ->
   (forall ids metadatas, store_error E (Update ids metadatas) = None) ->
   all_metadata (collection w) = true ->
   fst (migrate_categories E w) = Ok tt)
  /\ (forall e,
        fst (migrate_categories E w) = Raise e ->
        collection (snd (migrate_categories E w)) = collection w
        /\ ((exists evs ev,
               calls (snd (migrate_categories E w)) = calls w ++ evs ++ [ev]
               /\ store_error E ev = Some e)
            \/ (e = TypeError
                /\ store_error E Get = None
                /\ all_metadata (collection w) = false
                /\ calls (snd (migrate_categories E w)) = calls w ++ [Get]))).
Proof.
  rewrite migrate_categories_run. split.
  - intros -> Hupdate Hall. cbn zeta. rewrite Hall.
    destruct (nonempty _); [| done]. by rewrite Hupdate.
  - intros e. destruct (store_error E Get) as [e1|] eqn:Hget.
    { intros [= ->]. split; [done |]. left. by exists [], Get. }
    cbn zeta. destruct (all_metadata (collection w)) eqn:Hall.
    2: { intros [= <-]. split; [done |]. by right. }
    destruct (nonempty _); [| discriminate].
    destruct (store_error E (Update _ _)) as [e2|] eqn:Hupd; [| discriminate].
    intros [= ->]. split; [done |]. left. by eexists [Get], _.
Qed.

Lemma migrate_categories_failures_witness :
  fst (migrate_categories stub (one_record (VInt 7))) = Ok tt
  /\ collection (snd (migrate_categories refusing (one_record (VInt 7))))
     = collection (one_record (VInt 7))
  /\ collection (snd (migrate_categories stub legacy_store))
     = collection legacy_store.
Proof.
  split; [| split].
  - apply (proj1 (migrate_categories_failures stub (one_record (VInt 7))));
      reflexivity.
  - apply (proj2 (migrate_categories_failures refusing (one_record (VInt 7)))
             ExternalError).
    vm_compute. reflexivity.
  - apply (proj2 (migrate_categories_failures stub legacy_store) TypeError).
    vm_compute. reflexivity.
Defined.

Lemma inspect_metadatas_ok (ms : list val) :
  inspect_metadatas ms = Ok tt <-> Forall inspectable ms.
Proof.
  induction ms as [|m ms IH]; cbn [inspect_metadatas]; [done |].
  rewrite Forall_cons, <- IH. unfold inspectable, getitem_key, has_key, dict_item.
  destruct m as [| | | | | | |d];
    try (split; [discriminate | by intros [[d' [? _]] _]]).
  destruct (dict_get (lit "headline") d) eqn:Hh.
  2: { split; [discriminate |]. intros [[d' [[= <-] [H _]]] _].
       by rewrite Hh in H. }
  destruct (dict_get (lit "source") d) eqn:Hs.
  2: { split; [discriminate |]. intros [[d' [[= <-] [_ [H _]]]] _].
       by rewrite Hs in H. }
  destruct (dict_get (lit "categories") d) eqn:Hc.
  2: { split; [discriminate |]. intros [[d' [[= <-] [_ [_ H]]]] _].
       by rewrite Hc in H. }
  split; [| by intros [_ ?]]. intros H. split; [| done].
  exists d. by rewrite Hh, Hs, Hc.
Qed.

(** X19: the loop of [main] over the hits of its search completes exactly
    when every hit is a dictionary with the keys [headline], [source] and
    [categories]; one hit without one of them makes it raise, so that, the
    loop standing before the dump, the file is not written. *)
Theorem inspect_results_needs_keys (d : dict) (ms rest : list val) :
  dict_get (lit "metadatas") d = Some (VList (VList ms :: rest)) ->
  (inspect_results (VDict d) = Ok tt <-> Forall inspectable ms)
  /\ forall E sites (w : world) evs,
       ~ Forall inspectable ms ->
       fst (search_articles E (lit "sports") 5 (Some (lit "sports"))
              (snd (run_contributions E sites 12
                      (snd (migrate_categories E w)))))
       = Ok (VDict d) ->
       calls (snd (main E sites w)) = calls w ++ evs ->
       Forall not_dump evs.
Proof.
  intros Hd.
  assert (Hiff : inspect_results (VDict d) = Ok tt <-> Forall inspectable ms).
  { unfold inspect_results, getitem_key, dict_item. rewrite Hd.
    cbn [getitem_index lookup list_lookup iterate].
    apply inspect_metadatas_ok. }
  split; [exact Hiff |].
  intros E sites w evs Hbad Hsearch Hcalls.
  destruct (main_failure_no_dump E sites w) as [evs' [Hevs' Hnd]].
  - rewrite main_run.
    destruct (migrate_categories E w) as [[[]|e] w1]; [| by eexists].
    cbn [snd] in Hsearch. cbn zeta.
    destruct (search_articles E _ _ _ _) as [[results|e] w3]; [| by eexists].
    cbn [fst] in Hsearch. injection Hsearch as ->.
    destruct (inspect_results (VDict d)) as [[]|e]; [| by eexists].
    destruct Hbad. by apply Hiff.
  - rewrite Hevs' in Hcalls. by apply app_inv_head in Hcalls as <-.
Qed.

Lemma inspect_results_needs_keys_witness :
  let hit := VDict [(lit "headline", VStr (lit "Cup final goes to penalties"));
                    (lit "source", VStr (lit "https://b.example"))] in
  inspect_results (VDict [(lit "metadatas", VList [VList [hit]])]) = Ok tt
  <-> Forall inspectable [hit].
Proof.
  intros hit.
  exact (proj1 (inspect_results_needs_keys
                  [(lit "metadatas", VList [VList [hit]])] [hit] [] eq_refl)).
Defined.

End More.
